(** * PhonePe Pulse dashboard (app.py): name reconciliation, map-click
      resolution, KPI aggregates, state selection and geometry enrichment.

    Shallow embedding of the pure logic of [app.py] and the properties
    stated about it.

    Conventions of the embedding.
    - A Python [str] is a [string]; every character is read as the code
      point of the same number (0..255).
    - A Python [dict] is an association list in insertion order with
      pairwise distinct keys; [dict_set] updates in place or appends,
      as CPython does.
    - Python floats are idealised as exact rationals [Q]; rounding and
      overflow are outside the model.
    - Python objects that are mutated (the GeoJSON features) live in an
      explicit heap of dict and list objects addressed by locations. *)

From Stdlib Require Import String Ascii List ZArith QArith Lqa Lia Bool Arith Sorted.
From Stdlib Require OrderedTypeEx.
From stdpp Require Import base option list gmap.
Import ListNotations.

Set Warnings "-register-all".

Local Open Scope string_scope.
Local Open Scope list_scope.

(* ===================================================================== *)
(** ** Python strings: [str.strip]                                        *)
(* ===================================================================== *)

Module PyStr.

(** [str.isspace] on one character, for the code points below 256:
    TAB..CR (9-13), FS..US (28-31), SPACE (32), NEL (133), NBSP (160). *)
Definition is_space (c : ascii) : bool :=
  let n := nat_of_ascii c in
  (((9 <=? n) && (n <=? 13)) || ((28 <=? n) && (n <=? 32))
   || (n =? 133) || (n =? 160))%nat.

Fixpoint lstrip (s : string) : string :=
  match s with
  | EmptyString => EmptyString
  | String c s' => if is_space c then lstrip s' else s
  end.

Fixpoint rstrip (s : string) : string :=
  match s with
  | EmptyString => EmptyString
  | String c s' =>
      match rstrip s' with
      | EmptyString => if is_space c then EmptyString else String c EmptyString
      | r => String c r
      end
  end.

(** [s.strip()] *)
Definition strip (s : string) : string := rstrip (lstrip s).

(** Python truthiness of a [str]. *)
Definition truthy (s : string) : bool :=
  match s with EmptyString => false | _ => true end.

(** A string that does not start with whitespace. *)
Definition no_lead (s : string) : Prop :=
  match s with
  | EmptyString => True
  | String c _ => is_space c = false
  end.

End PyStr.

(* ===================================================================== *)
(** ** Python dicts with [str] keys                                       *)
(* ===================================================================== *)

Section Dict.
Context {V : Type}.

(** [d.get(k)] *)
Fixpoint dict_get (d : list (string * V)) (k : string) : option V :=
  match d with
  | [] => None
  | (k', v) :: d' => if String.eqb k k' then Some v else dict_get d' k
  end.

(** [k in d] *)
Definition dict_mem (d : list (string * V)) (k : string) : bool :=
  match dict_get d k with Some _ => true | None => false end.

(** [d[k] = v]: an existing key keeps its position, a new key goes last. *)
Fixpoint dict_set (d : list (string * V)) (k : string) (v : V)
  : list (string * V) :=
  match d with
  | [] => [(k, v)]
  | (k', v') :: d' =>
      if String.eqb k k' then (k', v) :: d' else (k', v') :: dict_set d' k v
  end.

(** [d.get(k, dflt)] *)
Definition dict_get_default (d : list (string * V)) (k : string) (dflt : V)
  : V :=
  match dict_get d k with Some v => v | None => dflt end.

(** [d.values()] *)
Definition dict_values (d : list (string * V)) : list V := map snd d.

(** [d.keys()] *)
Definition dict_keys (d : list (string * V)) : list string := map fst d.
End Dict.

(* ===================================================================== *)
(** ** Name normalization (DB <-> GeoJSON ST_NM), app.py 46-62           *)
(* ===================================================================== *)

Definition NAME_TO_ST_NM : list (string * string) :=
  [ ("Andaman And Nicobar", "Andaman & Nicobar Islands");
    ("Dadra And Nagar Haveli And Daman Diu",
     "Dadra and Nagar Haveli and Daman and Diu");
    ("Nct Of Delhi", "Delhi");
    ("Jammu And Kashmir", "Jammu & Kashmir");
    ("Pondicherry", "Puducherry");
    ("Orissa", "Odisha") ].

(** [to_st_nm]; the [isinstance(s, str)] guard always passes at type
    [string]. *)
Definition to_st_nm (s : string) : string :=
  dict_get_default NAME_TO_ST_NM (PyStr.strip s) (PyStr.strip s).

(** [{v: k for k, v in NAME_TO_ST_NM.items()}] *)
Definition invert (d : list (string * string)) : list (string * string) :=
  fold_left (fun acc kv => dict_set acc (snd kv) (fst kv)) d [].

Definition ST_NM_TO_NAME : list (string * string) := invert NAME_TO_ST_NM.

Definition stnm_to_db (s : string) : string :=
  dict_get_default ST_NM_TO_NAME (PyStr.strip s) (PyStr.strip s).

(* ===================================================================== *)
(** ** Python values and exceptions                                       *)
(* ===================================================================== *)

Inductive exn : Type :=
| KeyError (k : string)
| IndexError
| AttributeError (a : string)
| TypeError
| ValueError.

(** Outcome of a Python call: a value, or a raised exception. *)
Inductive result (A : Type) : Type :=
| Ok (a : A)
| Raise (e : exn).
Arguments Ok {A} a.
Arguments Raise {A} e.

#[export] Instance result_ret : MRet result := fun _ a => Ok a.
#[export] Instance result_bind : MBind result := fun _ _ f r =>
  match r with
  | Ok a => f a
  | Raise e => Raise e
  end.

(** Values a selection payload is made of.  [PDict] is a [dict] (also a
    dict subclass whose keys can be read as attributes: for the code
    below such a value behaves as the plain dict with the same items);
    [PObj] is any other object, given by its attributes. *)
Inductive py : Type :=
| PNone
| PBool (b : bool)
| PInt (z : Z)
| PFloat (q : Q)
| PStr (s : string)
| PList (l : list py)
| PDict (d : list (string * py))
| PObj (attrs : list (string * py)).

(** Truth value of [v] in a condition. *)
Definition py_truthy (v : py) : bool :=
  match v with
  | PNone => false
  | PBool b => b
  | PInt z => negb (Z.eqb z 0)
  | PFloat q => negb (Qeq_bool q 0)
  | PStr s => PyStr.truthy s
  | PList l => match l with [] => false | _ => true end
  | PDict d => match d with [] => false | _ => true end
  | PObj _ => true
  end.

(** [a or b] *)
Definition py_or (a b : py) : py := if py_truthy a then a else b.

(** [hasattr(v, a)]: only [PObj] carries data attributes. *)
Definition hasattr (v : py) (a : string) : bool :=
  match v with
  | PObj attrs => dict_mem attrs a
  | _ => false
  end.

(** [v.a] *)
Definition getattr (v : py) (a : string) : result py :=
  match v with
  | PObj attrs =>
      match dict_get attrs a with
      | Some x => Ok x
      | None => Raise (AttributeError a)
      end
  | _ => Raise (AttributeError a)
  end.

(** [d[k]] *)
Definition getitem (d : list (string * py)) (k : string) : result py :=
  match dict_get d k with
  | Some x => Ok x
  | None => Raise (KeyError k)
  end.

(** [l[i]] for [i >= 0] *)
Definition list_index (l : list py) (i : nat) : result py :=
  match nth_error l i with
  | Some x => Ok x
  | None => Raise IndexError
  end.

(** [d.get(k)], [None] on a miss. *)
Definition py_get (d : list (string * py)) (k : string) : py :=
  dict_get_default d k PNone.

(* ===================================================================== *)
(** ** Map click resolution, app.py 205-241                               *)
(* ===================================================================== *)

(** Lines 207-211: the selection carried by the event. *)
Definition selection_of (event : py) : result py :=
  if hasattr event "selection" then getattr event "selection"
  else match event with
       | PDict d => Ok (dict_get_default d "selection" event)
       | _ => Ok PNone
       end.

(** Lines 221-225: the loop over [o.values()], leaving at the first
    non-empty list or the first dict. *)
Fixpoint first_objects (vs : list py) : list py :=
  match vs with
  | [] => []
  | v :: vs' =>
      match v with
      | PList (x :: l) => x :: l
      | PDict d => [PDict d]
      | _ => first_objects vs'
      end
  end.

(** Lines 215-227: the candidate objects of a selection dict. *)
Definition objects_of (sel : list (string * py)) : result (list py) :=
  if dict_mem sel "objects" then
    o ← getitem sel "objects";
    match o with
    | PList l => Ok l
    | PDict od => Ok (first_objects (dict_values od))
    | _ => Ok []
    end
  else if dict_mem sel "object" then
    x ← getitem sel "object"; Ok [x]
  else Ok [].

(** Lines 232-233: one level of ["object"] wrapping is removed. *)
Definition unwrap_object (obj : py) : result py :=
  match obj with
  | PDict d => if dict_mem d "object" then getitem d "object" else Ok obj
  | _ => Ok obj
  end.

(** Line 234. *)
Definition properties_of (obj : py) : py :=
  match obj with
  | PDict d => py_get d "properties"
  | _ => PNone
  end.

(** Line 238. *)
Definition name_of (props : list (string * py)) : py :=
  py_or (py_or (py_get props "ST_NM") (py_get props "state"))
        (py_get props "name").

Definition get_selected_state_from_event (event : py)
  : result (option string) :=
  sel ← selection_of event;
  match sel with
  | PDict sel =>
      objs ← objects_of sel;
      match objs with
      | [] => Ok None
      | _ :: _ =>
          obj ← list_index objs 0;
          obj ← unwrap_object obj;
          match properties_of obj with
          | PDict props =>
              match name_of props with
              | PStr st_nm =>
                  if PyStr.truthy (PyStr.strip st_nm)
                  then Ok (Some (stnm_to_db (PyStr.strip st_nm)))
                  else Ok None
              | _ => Ok None
              end
          | _ => Ok None
          end
      end
  | _ => Ok None
  end.

(* ===================================================================== *)
(** ** KPI aggregates, app.py 93-117                                      *)
(* ===================================================================== *)

(** [float(v)]; a [str] argument is outside the model (a query cell is a
    number or [None]). *)
Definition py_float (v : py) : result Q :=
  match v with
  | PBool b => Ok (if b then 1 else 0)%Q
  | PInt z => Ok (inject_Z z)
  | PFloat q => Ok q
  | PStr _ => Raise ValueError
  | _ => Raise TypeError
  end.

(** [int(v)]: a float is truncated towards zero. *)
Definition py_int (v : py) : result Z :=
  match v with
  | PBool b => Ok (if b then 1 else 0)%Z
  | PInt z => Ok z
  | PFloat q => Ok (Z.quot (Qnum q) (Z.pos (Qden q)))
  | PStr _ => Raise ValueError
  | _ => Raise TypeError
  end.

(** The two tables the KPI queries read.  Measures are nullable. *)
Record aggregated_transaction_row : Type := {
  at_state : string;
  at_year : Z;
  at_quarter : Z;
  at_transaction_type : string;
  at_transaction_count : option Z;
  at_transaction_amount : option Q
}.

Record map_user_row : Type := {
  mu_state : string;
  mu_year : Z;
  mu_quarter : Z;
  mu_name : string;
  mu_registered_users : option Z;
  mu_app_opens : option Z
}.

Record database : Type := {
  aggregated_transaction : list aggregated_transaction_row;
  map_user : list map_user_row
}.

(** SQL [SUM]: NULL inputs are skipped; the sum of no value is NULL. *)
Fixpoint sql_sum {A : Type} (add : A -> A -> A) (xs : list (option A))
  : option A :=
  match xs with
  | [] => None
  | x :: xs' =>
      match x, sql_sum add xs' with
      | None, r => r
      | Some a, None => Some a
      | Some a, Some b => Some (add a b)
      end
  end.

(** A result cell as the data frame holds it: NULL arrives as [None]. *)
Definition cell_of_Q (c : option Q) : py :=
  match c with Some q => PFloat q | None => PNone end.
Definition cell_of_Z (c : option Z) : py :=
  match c with Some z => PInt z | None => PNone end.

(** [WHERE year=%(y)s AND quarter=%(q)s] *)
Definition txn_in_period (y q : Z) (r : aggregated_transaction_row) : bool :=
  (at_year r =? y)%Z && (at_quarter r =? q)%Z.
Definition user_in_period (y q : Z) (r : map_user_row) : bool :=
  (mu_year r =? y)%Z && (mu_quarter r =? q)%Z.

(** The single row returned by
    [SELECT SUM(transaction_amount) amt, SUM(transaction_count) cnt ...]. *)
Definition txn_totals (rows : list aggregated_transaction_row) : py * py :=
  (cell_of_Q (sql_sum Qplus (map at_transaction_amount rows)),
   cell_of_Z (sql_sum Z.add (map at_transaction_count rows))).

(** The single row returned by
    [SELECT SUM(registered_users) ru, SUM(app_opens) ao ...]. *)
Definition user_totals (rows : list map_user_row) : py * py :=
  (cell_of_Z (sql_sum Z.add (map mu_registered_users rows)),
   cell_of_Z (sql_sum Z.add (map mu_app_opens rows))).

Definition india_txn_kpis (db : database) (y q : Z) : result (Q * Z) :=
  let row := txn_totals (List.filter (txn_in_period y q)
                           (aggregated_transaction db)) in
  amt ← py_float (py_or (fst row) (PInt 0));
  cnt ← py_int (py_or (snd row) (PInt 0));
  Ok (amt, cnt).

Definition india_user_kpis (db : database) (y q : Z) : result (Z * Z) :=
  let row := user_totals (List.filter (user_in_period y q) (map_user db)) in
  ru ← py_int (py_or (fst row) (PInt 0));
  ao ← py_int (py_or (snd row) (PInt 0));
  Ok (ru, ao).

Definition state_txn_kpis (db : database) (state : string) (y q : Z)
  : result (Q * Z) :=
  let row := txn_totals
               (List.filter (fun r => String.eqb (at_state r) state
                                 && txn_in_period y q r)
                  (aggregated_transaction db)) in
  amt ← py_float (py_or (fst row) (PInt 0));
  cnt ← py_int (py_or (snd row) (PInt 0));
  Ok (amt, cnt).

Definition state_user_kpis (db : database) (state : string) (y q : Z)
  : result (Z * Z) :=
  let row := user_totals
               (List.filter (fun r => String.eqb (mu_state r) state
                                 && user_in_period y q r)
                  (map_user db)) in
  ru ← py_int (py_or (fst row) (PInt 0));
  ao ← py_int (py_or (snd row) (PInt 0));
  Ok (ru, ao).

(* ===================================================================== *)
(** ** Metric rows and the state dropdown default, app.py 309-326         *)
(* ===================================================================== *)

(** One row of the data frame returned by [df_state_txn_amount] or
    [df_state_users]: columns [state] and [value] (already numeric, with
    missing values filled by 0). *)
Record metric_row : Type := { mr_state : string; mr_value : Q }.

(** [df.sort_values("value", ascending=False)].  Rows of equal value keep
    their order here; pandas leaves their order open. *)
Fixpoint insert_desc (r : metric_row) (l : list metric_row)
  : list metric_row :=
  match l with
  | [] => [r]
  | x :: l' =>
      if Qle_bool (mr_value x) (mr_value r) then r :: l
      else x :: insert_desc r l'
  end.

Definition sort_values_desc (df : list metric_row) : list metric_row :=
  fold_right insert_desc [] df.

(** [df.sort_values(...).iloc[0]["state"] if not df.empty else None] *)
Definition default_state (df : list metric_row) : option string :=
  match sort_values_desc df with
  | [] => None
  | r :: _ => Some (mr_state r)
  end.

(** [x in l] *)
Definition list_mem (x : string) (l : list string) : bool :=
  existsb (String.eqb x) l.

(** [l.index(x)] *)
Fixpoint index_of (l : list string) (x : string) : result nat :=
  match l with
  | [] => Raise ValueError
  | y :: l' =>
      if String.eqb x y then Ok 0%nat
      else n ← index_of l' x; Ok (S n)
  end.

(** Lines 318-324: the index handed to the state select box.
    [preferred] is [st.session_state.get("home_clicked_state")]. *)
Definition home_state_index (preferred : option string)
    (df_for_default : list metric_row) (states : list string) : result nat :=
  let fallback :=
    match default_state df_for_default with
    | Some d =>
        if PyStr.truthy d && list_mem d states then index_of states d
        else Ok 0%nat
    | None => Ok 0%nat
    end in
  match preferred with
  | Some p => if list_mem p states then index_of states p else fallback
  | None => fallback
  end.

(** [d] is the state of a row whose value no other row exceeds. *)
Definition highest_metric (df : list metric_row) (d : string) : Prop :=
  exists r, In r df /\ mr_state r = d /\
            forall r', In r' df -> (mr_value r' <= mr_value r)%Q.

(** The list is in ascending lexical order, as [ORDER BY state] returns it. *)
Definition lexically_sorted (states : list string) : Prop :=
  StronglySorted (fun a b => String.leb a b = true) states.

(* ===================================================================== *)
(** ** The object heap                                                    *)
(* ===================================================================== *)

(** A location names one dict or list object; two references to the same
    location are the same Python object. *)
Abbreviation loc := nat.

Inductive val : Type :=
| VNone
| VBool (b : bool)
| VInt (z : Z)
| VFloat (q : Q)
| VStr (s : string)
| VRef (l : loc).

Inductive obj : Type :=
| ODict (d : list (string * val))
| OList (xs : list val).

(** The heap: location [l] holds the [l]-th object; a new object goes to
    the end.  Nothing is freed. *)
Abbreviation heap := (list obj).

(** A computation reads and updates the heap and returns or raises; the
    updates made before an exception stay. *)
Definition M (A : Type) : Type := heap -> result A * heap.

Definition retM {A} (a : A) : M A := fun h => (Ok a, h).
Definition raiseM {A} (e : exn) : M A := fun h => (Raise e, h).
Definition bindM {A B} (m : M A) (f : A -> M B) : M B := fun h =>
  match m h with
  | (Ok a, h') => f a h'
  | (Raise e, h') => (Raise e, h')
  end.

#[export] Instance M_ret : MRet M := @retM.
#[export] Instance M_bind : MBind M := fun A B f m => bindM m f.

(** A new object. *)
Definition alloc (o : obj) : M val := fun h => (Ok (VRef (length h)), h ++ [o]).

(** [v[k]] *)
Definition getitem_h (v : val) (k : string) : M val := fun h =>
  match v with
  | VRef l =>
      match h !! l with
      | Some (ODict d) =>
          match dict_get d k with
          | Some x => (Ok x, h)
          | None => (Raise (KeyError k), h)
          end
      | _ => (Raise TypeError, h)
      end
  | _ => (Raise TypeError, h)
  end.

(** [v[k] = x] *)
Definition setitem_h (v : val) (k : string) (x : val) : M unit := fun h =>
  match v with
  | VRef l =>
      match h !! l with
      | Some (ODict d) => (Ok tt, <[l := ODict (dict_set d k x)]> h)
      | _ => (Raise TypeError, h)
      end
  | _ => (Raise TypeError, h)
  end.

(** [v.append(x)] *)
Definition append_h (v : val) (x : val) : M unit := fun h =>
  match v with
  | VRef l =>
      match h !! l with
      | Some (OList xs) => (Ok tt, <[l := OList (xs ++ [x])]> h)
      | _ => (Raise (AttributeError "append"), h)
      end
  | _ => (Raise (AttributeError "append"), h)
  end.

(** The items a [for] loop over [v] visits: the elements of a list, the
    keys of a dict. *)
Definition iter_h (v : val) : M (list val) := fun h =>
  match v with
  | VRef l =>
      match h !! l with
      | Some (OList xs) => (Ok xs, h)
      | Some (ODict d) => (Ok (map VStr (dict_keys d)), h)
      | None => (Raise TypeError, h)
      end
  | VStr s => (Ok (map (fun c => VStr (String c EmptyString))
                     (list_ascii_of_string s)), h)
  | _ => (Raise TypeError, h)
  end.

(** [for x in xs: body(x)] *)
Fixpoint for_each {A} (xs : list A) (body : A -> M unit) : M unit :=
  match xs with
  | [] => retM tt
  | x :: xs' => _ ← body x; for_each xs' body
  end.

(* ===================================================================== *)
(** ** [json.dumps] and [json.loads]                                      *)
(* ===================================================================== *)

(** A JSON text, as the tree it denotes. *)
Inductive json : Type :=
| JNull
| JBool (b : bool)
| JInt (z : Z)
| JFloat (q : Q)
| JStr (s : string)
| JArr (ts : list json)
| JObj (kvs : list (string * json)).

(** [mapM] in [result]. *)
Fixpoint result_map {A B} (f : A -> result B) (xs : list A)
  : result (list B) :=
  match xs with
  | [] => Ok []
  | x :: xs' => y ← f x; ys ← result_map f xs'; Ok (y :: ys)
  end.

(** [json.dumps]: the text of [v].  The walk follows references; [fuel]
    bounds its depth, and running out of it is the circular-reference
    [ValueError]. *)
Fixpoint dumps (fuel : nat) (h : heap) (v : val) : result json :=
  match v with
  | VNone => Ok JNull
  | VBool b => Ok (JBool b)
  | VInt z => Ok (JInt z)
  | VFloat q => Ok (JFloat q)
  | VStr s => Ok (JStr s)
  | VRef l =>
      match fuel with
      | O => Raise ValueError
      | S n =>
          match h !! l with
          | Some (ODict d) =>
              kvs ← result_map
                      (fun kv => t ← dumps n h (snd kv); Ok (fst kv, t)) d;
              Ok (JObj kvs)
          | Some (OList xs) =>
              ts ← result_map (dumps n h) xs; Ok (JArr ts)
          | None => Raise TypeError
          end
      end
  end.

(** A path of more references than there are objects passes twice
    through one of them. *)
Definition json_dumps (v : val) : M json := fun h =>
  (dumps (S (length h)) h v, h).

(** [json.loads] of the elements of an array, left to right. *)
Fixpoint loads_list (ld : json -> heap -> val * heap) (ts : list json)
    (h : heap) : list val * heap :=
  match ts with
  | [] => ([], h)
  | t :: ts' =>
      let '(v, h1) := ld t h in
      let '(vs, h2) := loads_list ld ts' h1 in
      (v :: vs, h2)
  end.

(** [json.loads] of the members of an object, left to right; a repeated
    key keeps its first position and its last value. *)
Fixpoint loads_items (ld : json -> heap -> val * heap)
    (kvs : list (string * json)) (d : list (string * val)) (h : heap)
  : list (string * val) * heap :=
  match kvs with
  | [] => (d, h)
  | kv :: kvs' =>
      let '(v, h1) := ld (snd kv) h in
      loads_items ld kvs' (dict_set d (fst kv) v) h1
  end.

(** [json.loads]: every array and object of the text becomes a new
    object. *)
Fixpoint loads (t : json) (h : heap) {struct t} : val * heap :=
  match t with
  | JNull => (VNone, h)
  | JBool b => (VBool b, h)
  | JInt z => (VInt z, h)
  | JFloat q => (VFloat q, h)
  | JStr s => (VStr s, h)
  | JArr ts =>
      let '(vs, h1) := loads_list loads ts h in
      (VRef (length h1), h1 ++ [OList vs])
  | JObj kvs =>
      let '(d, h1) := loads_items loads kvs [] h in
      (VRef (length h1), h1 ++ [ODict d])
  end.

Definition json_loads (t : json) : M val := fun h =>
  let '(v, h') := loads t h in (Ok v, h').

(* ===================================================================== *)
(** ** Geometry enrichment, app.py 184-203                                *)
(* ===================================================================== *)

(** [float(r["value"] or 0)] *)
Definition value_or_zero (q : Q) : Q := if Qeq_bool q 0 then 0%Q else q.

(** Line 185: [{to_st_nm(r["state"]): float(r["value"] or 0) for ...}] *)
Definition metric_values (df_plot : list metric_row) : list (string * Q) :=
  fold_left (fun vals r =>
               dict_set vals (to_st_nm (mr_state r))
                 (value_or_zero (mr_value r)))
            df_plot [].

(** [min(xs)] and [max(xs)] of a non-empty sequence [x :: xs]. *)
Definition py_min (x : Q) (xs : list Q) : Q :=
  fold_left (fun m y => if Qlt_le_dec y m then y else m) xs x.
Definition py_max (x : Q) (xs : list Q) : Q :=
  fold_left (fun m y => if Qlt_le_dec m y then y else m) xs x.

(** Line 186 *)
Definition vmin_of (vals : list (string * Q)) : Q :=
  match dict_values vals with
  | [] => 0%Q
  | x :: xs => py_min x xs
  end.

(** Line 187 *)
Definition vmax_of (vals : list (string * Q)) : Q :=
  match dict_values vals with
  | [] => 1%Q
  | x :: xs => py_max x xs
  end.

(** Line 188: [(vmax - vmin) or 1.0] *)
Definition rng_of (vals : list (string * Q)) : Q :=
  let d := (vmax_of vals - vmin_of vals)%Q in
  if Qeq_bool d 0 then 1%Q else d.

(** Lines 194 and 197 *)
Definition height_of (vals : list (string * Q)) (v : Q) : Q :=
  let norm := ((v - vmin_of vals) / rng_of vals)%Q in
  (200000 + norm * 700000)%Q.

(** Line 193: [vals.get(st_nm, 0.0)].  The keys of [vals] are strings, so
    only a string finds one; a list or dict cannot be hashed. *)
Definition vals_get (vals : list (string * Q)) (st_nm : val) : M Q :=
  match st_nm with
  | VStr s => retM (dict_get_default vals s 0%Q)
  | VRef _ => raiseM TypeError
  | _ => retM 0%Q
  end.

(** Lines 192-202: the loop body for the feature [f], appending to
    [feats]. *)
Definition enrich_feature (vals : list (string * Q)) (feats f : val)
  : M unit :=
  props ← getitem_h f "properties";
  st_nm ← getitem_h props "ST_NM";
  v ← vals_get vals st_nm;
  text ← json_dumps f;
  g ← json_loads text;
  gp ← getitem_h g "properties";
  _ ← setitem_h gp "metric_value" (VFloat v);
  gp ← getitem_h g "properties";
  _ ← setitem_h gp "height" (VFloat (height_of vals v));
  gp ← getitem_h g "properties";
  _ ← setitem_h gp "fill_r" (VInt 66);
  gp ← getitem_h g "properties";
  _ ← setitem_h gp "fill_g" (VInt 135);
  gp ← getitem_h g "properties";
  _ ← setitem_h gp "fill_b" (VInt 245);
  gp ← getitem_h g "properties";
  _ ← setitem_h gp "fill_a" (VInt 180);
  append_h feats g.

(** [build_feature_collection(df_plot)], reading the module-level
    [INDIA_GEOJSON]. *)
Definition build_feature_collection (INDIA_GEOJSON : val)
    (df_plot : list metric_row) : M val :=
  let vals := metric_values df_plot in
  feats ← alloc (OList []);
  features ← getitem_h INDIA_GEOJSON "features";
  fs ← iter_h features;
  _ ← for_each fs (enrich_feature vals feats);
  alloc (ODict [("type", VStr "FeatureCollection"); ("features", feats)]).

(** [load_geojson]: [r.json()] parses the response text. *)
Definition load_geojson (text : json) : M val := json_loads text.

(** Reading results back: [v[k]] in heap [h], without effect. *)
Definition peek (h : heap) (v : val) (k : string) : option val :=
  match v with
  | VRef l =>
      match h !! l with
      | Some (ODict d) => dict_get d k
      | _ => None
      end
  | _ => None
  end.

(** [g["properties"][k]] *)
Definition feature_prop (h : heap) (g : val) (k : string) : option val :=
  match peek h g "properties" with
  | Some p => peek h p k
  | None => None
  end.

(** [fc["features"]] as the list of its elements. *)
Definition collection_features (h : heap) (fc : val) : option (list val) :=
  match peek h fc "features" with
  | Some (VRef l) =>
      match h !! l with
      | Some (OList xs) => Some xs
      | _ => None
      end
  | _ => None
  end.

(** A GeoJSON feature with the given [ST_NM]. *)
Definition feature_text (st_nm : string) : json :=
  JObj [("type", JStr "Feature");
        ("properties", JObj [("ST_NM", JStr st_nm)]);
        ("geometry", JObj [("type", JStr "Polygon");
                           ("coordinates", JArr [JArr [JInt 0; JInt 0]])])].

Definition geojson_text (st_nms : list string) : json :=
  JObj [("type", JStr "FeatureCollection");
        ("features", JArr (map feature_text st_nms))].

(** **** Freshness: what a newly built object may point to *)

(** [v] does not point below location [n]. *)
Definition val_fresh (n : nat) (v : val) : Prop :=
  match v with
  | VRef l => n <= l
  | _ => True
  end.

Definition obj_values (o : obj) : list val :=
  match o with
  | ODict d => dict_values d
  | OList xs => xs
  end.

Definition obj_fresh (n : nat) (o : obj) : Prop :=
  Forall (val_fresh n) (obj_values o).

(** The heap [h] still starts with the objects of [h0], unchanged, and
    what was added to it points to added objects only. *)
Definition extends_untouched (h0 h : heap) : Prop :=
  (exists ext, h = h0 ++ ext /\ Forall (obj_fresh (length h0)) ext).

(** Running [m] from a heap satisfying [I] leaves a heap satisfying [I],
    whether it returns or raises, and a returned value satisfies [Q]. *)
Definition keeps {A} (I : heap -> Prop) (m : M A) (Q : A -> Prop) : Prop :=
  forall h, I h -> I (snd (m h)) /\ forall a, fst (m h) = Ok a -> Q a.

(** **** Well-formed geometry *)

(** [f] is a feature named [name]: a dict whose ["properties"] is a dict
    holding the string [name] under ["ST_NM"], and which [json.dumps]
    accepts.  Keys of a dict are pairwise distinct. *)
Definition wf_feature (h : heap) (f : val) (name : string) : Prop :=
  exists lf d lp dp t,
    f = VRef lf /\ h !! lf = Some (ODict d) /\ NoDup (dict_keys d) /\
    dict_get d "properties" = Some (VRef lp) /\
    h !! lp = Some (ODict dp) /\ NoDup (dict_keys dp) /\
    dict_get dp "ST_NM" = Some (VStr name) /\
    dumps (S (length h)) h f = Ok t.

(** [geo] is a feature collection whose features are [fs], named
    [names] in this order. *)
Definition geometry (h : heap) (geo : val) (fs : list val)
    (names : list string) : Prop :=
  exists lfs,
    peek h geo "features" = Some (VRef lfs) /\
    h !! lfs = Some (OList fs) /\
    Forall2 (wf_feature h) fs names.

(** No row of the metric table is about the region [name]. *)
Definition absent_from (df : list metric_row) (name : string) : Prop :=
  forall r, In r df -> to_st_nm (mr_state r) <> name.

(** In [h], the dict at [lg] has the dict at [lgp], whose items are [dp],
    as its ["properties"]. *)
Definition feature_at (h : heap) (lg lgp : loc) (dp : list (string * val))
  : Prop :=
  exists dg, h !! lg = Some (ODict dg) /\
             dict_get dg "properties" = Some (VRef lgp) /\
             h !! lgp = Some (ODict dp).

(** The output feature [g] made for the region [name]: it lies above
    [lfeats], keeps the region's name and carries its metric value and
    height. *)
Definition enriched (vals : list (string * Q)) (lfeats : loc) (h : heap)
    (g : val) (name : string) : Prop :=
  exists lg lgp dp,
    g = VRef lg /\ (lfeats < lg)%nat /\ (lfeats < lgp)%nat /\
    feature_at h lg lgp dp /\
    dict_get dp "ST_NM" = Some (VStr name) /\
    dict_get dp "metric_value"
      = Some (VFloat (dict_get_default vals name 0%Q)) /\
    dict_get dp "height"
      = Some (VFloat (height_of vals (dict_get_default vals name 0%Q))).

(* ===================================================================== *)
(** ** Sample inputs                                                      *)
(* ===================================================================== *)

Definition sample_db : database :=
  {| aggregated_transaction :=
       [ {| at_state := "Kerala"; at_year := 2021; at_quarter := 1;
            at_transaction_type := "Recharge";
            at_transaction_count := Some 10%Z;
            at_transaction_amount := Some (5 # 2) |} ];
     map_user :=
       [ {| mu_state := "Kerala"; mu_year := 2021; mu_quarter := 1;
            mu_name := "Idukki";
            mu_registered_users := Some 4%Z; mu_app_opens := None |} ] |}.

(** A period whose rows hold NULL in the summed columns, next to a row of
    another period that holds numbers. *)
Definition null_measures_db : database :=
  {| aggregated_transaction :=
       [ {| at_state := "Goa"; at_year := 2022; at_quarter := 3;
            at_transaction_type := "Recharge";
            at_transaction_count := None;
            at_transaction_amount := None |};
         {| at_state := "Goa"; at_year := 2021; at_quarter := 1;
            at_transaction_type := "Recharge";
            at_transaction_count := Some 7%Z;
            at_transaction_amount := Some (3 # 2) |} ];
     map_user :=
       [ {| mu_state := "Goa"; mu_year := 2022; mu_quarter := 3;
            mu_name := "North Goa";
            mu_registered_users := None; mu_app_opens := None |} ] |}.

(** A geometry of three regions, as [load_geojson] leaves it in an empty
    heap. *)
Definition sample_regions : list string := ["Kerala"; "Goa"; "Sikkim"].

Definition sample_heap : heap :=
  snd (load_geojson (geojson_text sample_regions) []).

Definition sample_geojson : val := VRef 16.

(** What the map shows for one output feature: region name, metric value
    and height, the numbers in lowest terms. *)
Definition feature_row (h : heap) (g : val) : option (string * Q * Q) :=
  match feature_prop h g "ST_NM", feature_prop h g "metric_value",
        feature_prop h g "height" with
  | Some (VStr s), Some (VFloat m), Some (VFloat ht) =>
      Some (s, Qred m, Qred ht)
  | _, _, _ => None
  end.

(** The rows of all features of [build_feature_collection(df_plot)]. *)
Definition feature_rows (INDIA_GEOJSON : val) (df_plot : list metric_row)
    (h0 : heap) : option (list (option (string * Q * Q))) :=
  match build_feature_collection INDIA_GEOJSON df_plot h0 with
  | (Ok fc, h) =>
      match collection_features h fc with
      | Some gs => Some (map (feature_row h) gs)
      | None => None
      end
  | (Raise _, _) => None
  end.

(* ===================================================================== *)
(** ** Further definitions for the properties of the whole file           *)
(* ===================================================================== *)

(** [not s.strip()]: the string is empty or all whitespace. *)
Fixpoint blank (s : string) : bool :=
  match s with
  | EmptyString => true
  | String c s' => PyStr.is_space c && blank s'
  end.

(** The values of a dict are pairwise distinct. *)
Definition injective_dict (d : list (string * string)) : Prop :=
  NoDup (dict_keys d) /\ NoDup (dict_values d).

(** Lines 239-241: the name returned for the extracted string [st_nm]. *)
Definition resolve_name (st_nm : string) : option string :=
  if PyStr.truthy (PyStr.strip st_nm)
  then Some (stnm_to_db (PyStr.strip st_nm)) else None.

(* ===================================================================== *)
(** ** Query results: DISTINCT, ORDER BY, GROUP BY                        *)
(* ===================================================================== *)

Section Ordering.
Context {A : Type} (eqb leb : A -> A -> bool).

(** [SELECT DISTINCT]: one copy of every value. *)
Fixpoint distinct_by (l : list A) : list A :=
  match l with
  | [] => []
  | x :: l' =>
      if existsb (eqb x) l' then distinct_by l' else x :: distinct_by l'
  end.

Fixpoint insert_by (x : A) (l : list A) : list A :=
  match l with
  | [] => [x]
  | y :: l' => if leb x y then x :: l else y :: insert_by x l'
  end.

(** [ORDER BY ... ASC] and Python's [sorted]. *)
Definition sort_by (l : list A) : list A := fold_right insert_by [] l.
End Ordering.

(** Sum of a nullable column with NULL counted as 0. *)
Definition total_Z (xs : list (option Z)) : Z :=
  fold_right (fun x acc => (default 0 x + acc)%Z) 0%Z xs.
Definition total_Q (xs : list (option Q)) : Q :=
  fold_right (fun x acc => (default 0 x + acc)%Q) 0%Q xs.

(** The rows of [aggregated_transaction] for one period. *)
Definition txn_rows (db : database) (y q : Z)
  : list aggregated_transaction_row :=
  List.filter (txn_in_period y q) (aggregated_transaction db).

(** Line 316:
    [SELECT DISTINCT state FROM aggregated_transaction
     WHERE year=%s AND quarter=%s ORDER BY state]. *)
Definition home_states (db : database) (y q : Z) : list string :=
  sort_by String.leb (distinct_by String.eqb (map at_state (txn_rows db y q))).

(** Lines 77-83: [df_state_txn_amount].  One row per state of the period
    (SQL leaves the order of the groups open); a NULL sum becomes 0.0 by
    [pd.to_numeric(...).fillna(0.0)]. *)
Definition df_state_txn_amount (db : database) (y q : Z) : list metric_row :=
  let rows := txn_rows db y q in
  map (fun s =>
         {| mr_state := s;
            mr_value :=
              default 0%Q
                (sql_sum Qplus
                   (map at_transaction_amount
                      (List.filter (fun r => String.eqb (at_state r) s) rows)))
         |})
      (distinct_by String.eqb (map at_state rows)).

(** Lines 65-70: [years_quarters].  The query returns the distinct
    (year, quarter) pairs in order. *)
Definition pair_eqb (a b : Z * Z) : bool :=
  (fst a =? fst b)%Z && (snd a =? snd b)%Z.
Definition pair_leb (a b : Z * Z) : bool :=
  (fst a <? fst b)%Z || ((fst a =? fst b)%Z && (snd a <=? snd b)%Z).

Definition periods (db : database) : list (Z * Z) :=
  sort_by pair_leb
    (distinct_by pair_eqb
       (map (fun r => (at_year r, at_quarter r)) (aggregated_transaction db))).

(** [sorted(col.unique().tolist())] *)
Definition sorted_unique (col : list Z) : list Z :=
  sort_by Z.leb (distinct_by Z.eqb col).

Definition years_quarters (db : database) : list Z * list Z :=
  match periods db with
  | [] => ([2021%Z], [1%Z; 2%Z; 3%Z; 4%Z])
  | df => (sorted_unique (map fst df), sorted_unique (map snd df))
  end.

(** Lines 72-75: [quarters_for_year]. *)
Definition quarters_for_year (db : database) (y : Z) : list Z :=
  match sort_by Z.leb
          (distinct_by Z.eqb
             (map at_quarter
                (List.filter (fun r => (at_year r =? y)%Z)
                   (aggregated_transaction db)))) with
  | [] => [1%Z; 2%Z; 3%Z; 4%Z]
  | qs => qs
  end.

(** [l[-1]] *)
Definition list_last (l : list Z) : result Z :=
  match last l with
  | Some x => Ok x
  | None => Raise IndexError
  end.

(** [l.index(x)] on integers. *)
Fixpoint index_Z (l : list Z) (x : Z) : result nat :=
  match l with
  | [] => Raise ValueError
  | y :: l' =>
      if (x =? y)%Z then Ok 0%nat else n ← index_Z l' x; Ok (S n)
  end.

(** Lines 249-251 and 768-771: the default of the year select box,
    [years.index(years[-1])]. *)
Definition default_year_index (db : database) : result (Z * nat) :=
  let years := fst (years_quarters db) in
  default_y ← list_last years;
  i ← index_Z years default_y;
  Ok (default_y, i).

(* ===================================================================== *)
(** ** Choropleth rows, app.py 170-173                                    *)
(* ===================================================================== *)

(** A row of the frame handed to [choropleth]: [state] may be missing. *)
Record value_row : Type := { vr_state : option string; vr_value : Q }.

(** [to_st_nm] on a cell: a value that is not a [str] is returned as is. *)
Definition to_st_nm_cell (s : option string) : option string :=
  match s with
  | Some str => Some (to_st_nm str)
  | None => None
  end.

(** Line 172: [d["ST_NM"] = d["state"].map(to_st_nm)] *)
Definition with_st_nm (df : list value_row)
  : list (value_row * option string) :=
  map (fun r => (r, to_st_nm_cell (vr_state r))) df.

(** Line 173: [d[d["ST_NM"].notna() & (d["ST_NM"] != "")]] *)
Definition choropleth_rows (df : list value_row)
  : list (value_row * option string) :=
  List.filter (fun r => match snd r with
                        | Some nm => negb (String.eqb nm "")
                        | None => false
                        end)
              (with_st_nm df).

(** The state of the row is present and not blank. *)
Definition has_state (r : value_row) : bool :=
  match vr_state r with
  | Some s => negb (blank s)
  | None => false
  end.

(* ===================================================================== *)
(** ** Latest common period, app.py 445-456                               *)
(* ===================================================================== *)

Record aggregated_user_row : Type := {
  au_state : string;
  au_year : Z;
  au_quarter : Z;
  au_brand : option string;
  au_count : option Z;
  au_percentage : option Q
}.

(** [SELECT year, quarter FROM t GROUP BY 1,2] *)
Definition user_periods (aggregated_user : list aggregated_user_row)
  : list (Z * Z) :=
  distinct_by pair_eqb (map (fun r => (au_year r, au_quarter r)) aggregated_user).
Definition map_user_periods (db : database) : list (Z * Z) :=
  distinct_by pair_eqb (map (fun r => (mu_year r, mu_quarter r)) (map_user db)).

(** [a INNER JOIN m USING (year, quarter)
     ORDER BY year DESC, quarter DESC] *)
Definition common_periods_desc (aggregated_user : list aggregated_user_row)
    (db : database) : list (Z * Z) :=
  rev (sort_by pair_leb
         (List.filter (fun p => existsb (pair_eqb p) (map_user_periods db))
            (user_periods aggregated_user))).

(** [latest_common_period()]: the first row ([LIMIT 1]), or
    [(None, None)] when the frame is empty. *)
Definition latest_common_period (aggregated_user : list aggregated_user_row)
    (db : database) : option Z * option Z :=
  match common_periods_desc aggregated_user db with
  | [] => (None, None)
  | (y, q) :: _ => (Some y, Some q)
  end.

(** [metric_values] continued from a dict built so far. *)
Definition metric_values_from (acc : list (string * Q))
    (df_plot : list metric_row) : list (string * Q) :=
  fold_left (fun vals r =>
               dict_set vals (to_st_nm (mr_state r))
                 (value_or_zero (mr_value r)))
            df_plot acc.

(** Some row of the metric table is about the region [name]. *)
Definition present_in (df : list metric_row) (name : string) : Prop :=
  exists r, In r df /\ to_st_nm (mr_state r) = name.

(** The object at [l] can be reached from the value [v] in heap [h]. *)
Inductive reachable (h : heap) : val -> loc -> Prop :=
| reach_here (l : loc) : reachable h (VRef l) l
| reach_step (l : loc) (o : obj) (x : val) (l' : loc) :
    h !! l = Some o -> In x (obj_values o) -> reachable h x l' ->
    reachable h (VRef l) l'.

(* ===================================================================== *)
(** ** One render pass of the Home page, app.py 266-326                   *)
(* ===================================================================== *)

(** Lines 266 and 304-306: with a non-empty metric frame the map is drawn
    and its selection event is resolved; a truthy result is stored under
    ["home_clicked_state"].  [session] is the value stored so far. *)
Definition handle_click (session : option string)
    (df_metric : list metric_row) (event : py) : result (option string) :=
  match df_metric with
  | [] => Ok session
  | _ :: _ =>
      clicked ← get_selected_state_from_event event;
      match clicked with
      | Some c => if PyStr.truthy c then Ok (Some c) else Ok session
      | None => Ok session
      end
  end.

(** Lines 266-324: the stored click after the pass and the index of the
    state select box. *)
Definition home_pass (session : option string) (df_metric : list metric_row)
    (states : list string) (event : py) : result (option string * nat) :=
  session' ← handle_click session df_metric event;
  idx ← home_state_index session' df_metric states;
  Ok (session', idx).

(** A geometry whose second feature has no ["properties"]. *)
Definition broken_heap : heap :=
  snd (load_geojson
         (JObj [("type", JStr "FeatureCollection");
                ("features",
                 JArr [feature_text "Kerala";
                       JObj [("type", JStr "Feature")]])]) []).

Definition broken_geojson : val := VRef 7.

(* ===================================================================== *)
(** ** Top districts and pincodes, app.py 137-142                         *)
(* ===================================================================== *)

Record top_map_row : Type := {
  tm_state : string;
  tm_year : Z;
  tm_quarter : Z;
  tm_entity_type : string;
  tm_entity_name : string;
  tm_count : option Z;
  tm_amount : option Q
}.

(** One row of the result: [name], [txns], [amount]. *)
Record top_row : Type := {
  tr_name : string;
  tr_txns : option Z;
  tr_amount : option Q
}.

(** [WHERE state=%(s)s AND year=%(y)s AND quarter=%(q)s
     AND entity_type=%(t)s] *)
Definition top_geo_where (state : string) (y q : Z) (etype : string)
    (r : top_map_row) : bool :=
  String.eqb (tm_state r) state && (tm_year r =? y)%Z
  && (tm_quarter r =? q)%Z && String.eqb (tm_entity_type r) etype.

(** [GROUP BY entity_name] with the two sums. *)
Definition top_geo_groups (rows : list top_map_row) : list top_row :=
  map (fun n =>
         let members :=
           List.filter (fun r => String.eqb (tm_entity_name r) n) rows in
         {| tr_name := n;
            tr_txns := sql_sum Z.add (map tm_count members);
            tr_amount := sql_sum Qplus (map tm_amount members) |})
      (distinct_by String.eqb (map tm_entity_name rows)).

(** [ORDER BY amount DESC NULLS LAST]: [a] may come before [b]. *)
Definition amount_desc_nulls_last (a b : top_row) : bool :=
  match tr_amount a, tr_amount b with
  | Some x, Some y => Qle_bool y x
  | Some _, None => true
  | None, Some _ => false
  | None, None => true
  end.

(** [top_geo(state, y, q, etype)], with its [LIMIT 10]. *)
Definition top_geo (top_map : list top_map_row) (state : string) (y q : Z)
    (etype : string) : list top_row :=
  firstn 10
    (sort_by amount_desc_nulls_last
       (top_geo_groups (List.filter (top_geo_where state y q etype) top_map))).

(* ===================================================================== *)
(** ** The text of the enriched features                                  *)
(* ===================================================================== *)

(** Nesting depth of a text: the fuel [dumps] needs for it. *)
Fixpoint json_depth (t : json) : nat :=
  match t with
  | JArr ts => S (fold_right (fun t acc => Nat.max (json_depth t) acc) 0%nat ts)
  | JObj kvs =>
      S (fold_right (fun kv acc => Nat.max (json_depth (snd kv)) acc) 0%nat kvs)
  | _ => 0%nat
  end.

(** No object of the text repeats a key. *)
Fixpoint json_wf (t : json) : Prop :=
  match t with
  | JArr ts => fold_right (fun t acc => json_wf t /\ acc) True ts
  | JObj kvs =>
      List.NoDup (map fst kvs) /\
      fold_right (fun kv acc => json_wf (snd kv) /\ acc) True kvs
  | _ => True
  end.

(** Lines 196-201 on the text of a properties object. *)
Definition enriched_properties (vals : list (string * Q)) (name : string)
    (pk : list (string * json)) : list (string * json) :=
  let v := dict_get_default vals name 0%Q in
  dict_set
    (dict_set
       (dict_set
          (dict_set
             (dict_set (dict_set pk "metric_value" (JFloat v))
                "height" (JFloat (height_of vals v)))
             "fill_r" (JInt 66))
          "fill_g" (JInt 135))
       "fill_b" (JInt 245))
    "fill_a" (JInt 180).

(** The text of the output feature made from the feature of text [t]. *)
Definition enriched_text (vals : list (string * Q)) (name : string)
    (t : json) : json :=
  match t with
  | JObj kvs =>
      match dict_get kvs "properties" with
      | Some (JObj pk) =>
          JObj (dict_set kvs "properties"
                  (JObj (enriched_properties vals name pk)))
      | _ => t
      end
  | _ => t
  end.

(** The text of the returned collection. *)
Definition collection_text (vals : list (string * Q))
    (named_texts : list (string * json)) : json :=
  JObj [("type", JStr "FeatureCollection");
        ("features",
         JArr (map (fun nt => enriched_text vals (fst nt) (snd nt))
                 named_texts))].

(** Heap [h2] holds at the locations from [a] up to [b] what [h] holds. *)
Definition agrees (a b : nat) (h h2 : heap) : Prop :=
  forall l, (a <= l < b)%nat -> h2 !! l = h !! l.

(** In every heap that agrees with [h] from [a] up to [b], the value [g]
    has the text [t], at every fuel from [d] on. *)
Definition stable_text (a b : nat) (h : heap) (d : nat) (g : val) (t : json)
  : Prop :=
  forall h2 n, agrees a b h h2 -> (d <= n)%nat -> dumps n h2 g = Ok t.

(** Lines 196-201 on the items of the properties dict of the copy. *)
Definition enriched_items (vals : list (string * Q)) (v : Q)
    (dp : list (string * val)) : list (string * val) :=
  dict_set
    (dict_set
       (dict_set
          (dict_set
             (dict_set (dict_set dp "metric_value" (VFloat v))
                "height" (VFloat (height_of vals v)))
             "fill_r" (VInt 66))
          "fill_g" (VInt 135))
       "fill_b" (VInt 245))
    "fill_a" (VInt 180).

(** The text read back from what [json.loads] built, in any heap that
    still has the objects built. *)
Definition loads_text (t : json) : Prop :=
  json_wf t ->
  forall h v h', loads t h = (v, h') ->
    forall h2, agrees (length h) (length h') h' h2 ->
      dumps (json_depth t) h2 v = Ok t.


(* ===================================================================== *)
(** * Properties                                                          *)
(* ===================================================================== *)

(** ** [str.strip] *)

Section StripFacts.
Import PyStr.

Lemma lstrip_no_lead s : no_lead (lstrip s).
Proof.
  induction s as [|c s IH]; simpl; [exact I|].
  destruct (is_space c) eqn:E; [exact IH | exact E].
Qed.

Lemma lstrip_fix s : no_lead s -> lstrip s = s.
Proof. destruct s as [|c s]; simpl; [reflexivity|]. intros ->. reflexivity. Qed.

Lemma rstrip_no_lead s : no_lead s -> no_lead (rstrip s).
Proof.
  destruct s as [|c s]; simpl; [exact id|]. intros E.
  destruct (rstrip s); simpl; [rewrite E; exact E | exact E].
Qed.

Lemma rstrip_idem s : rstrip (rstrip s) = rstrip s.
Proof.
  induction s as [|c s IH]; simpl; [reflexivity|].
  destruct (rstrip s) as [|d r] eqn:E.
  - destruct (is_space c) eqn:Ec; simpl; [reflexivity|]. rewrite Ec. reflexivity.
  - change (rstrip (String c (String d r)))
      with (match rstrip (String d r) with
            | EmptyString =>
                if is_space c then EmptyString else String c EmptyString
            | x => String c x
            end).
    rewrite IH. reflexivity.
Qed.

Lemma strip_idem s : strip (strip s) = strip s.
Proof.
  unfold strip.
  rewrite (lstrip_fix (rstrip (lstrip s))).
  - apply rstrip_idem.
  - apply rstrip_no_lead, lstrip_no_lead.
Qed.

End StripFacts.

(** ** Name normalization *)

Lemma dict_get_In {V} (d : list (string * V)) k v :
  dict_get d k = Some v -> In (k, v) d.
Proof.
  induction d as [|[k' v'] d IH]; simpl; [discriminate|].
  destruct (String.eqb_spec k k') as [->|_].
  - intros [= ->]. now left.
  - intros H. right. now apply IH.
Qed.

Lemma dict_get_default_cases {V} (d : list (string * V)) k dflt :
  (exists v, dict_get d k = Some v /\ dict_get_default d k dflt = v)
  \/ (dict_get d k = None /\ dict_get_default d k dflt = dflt).
Proof.
  unfold dict_get_default. destruct (dict_get d k) as [v|]; eauto.
Qed.

Example ST_NM_TO_NAME_value :
  ST_NM_TO_NAME =
  [ ("Andaman & Nicobar Islands", "Andaman And Nicobar");
    ("Dadra and Nagar Haveli and Daman and Diu",
     "Dadra And Nagar Haveli And Daman Diu");
    ("Delhi", "Nct Of Delhi");
    ("Jammu & Kashmir", "Jammu And Kashmir");
    ("Puducherry", "Pondicherry");
    ("Odisha", "Orissa") ].
Proof. reflexivity. Qed.

(** A table is _settled_ when each of its values is already trimmed and is
    not a key of the same table. *)
Lemma settled_check (d : list (string * string)) :
  forallb (fun kv => String.eqb (PyStr.strip (snd kv)) (snd kv)
                     && negb (dict_mem d (snd kv))) d = true ->
  forall k v, dict_get d k = Some v ->
              PyStr.strip v = v /\ dict_get d v = None.
Proof.
  intros Hall k v Hget. apply dict_get_In in Hget.
  rewrite forallb_forall in Hall. specialize (Hall _ Hget). simpl in Hall.
  apply andb_prop in Hall as [H1 H2]. split.
  - now apply String.eqb_eq.
  - unfold dict_mem in H2. destruct (dict_get d v); [discriminate|reflexivity].
Qed.

Lemma lookup_or_self_idem (d : list (string * string)) :
  (forall k v, dict_get d k = Some v ->
               PyStr.strip v = v /\ dict_get d v = None) ->
  forall s,
    let f := fun s => dict_get_default d (PyStr.strip s) (PyStr.strip s) in
    f (f s) = f s.
Proof.
  intros Hd s f. unfold f.
  destruct (dict_get_default_cases d (PyStr.strip s) (PyStr.strip s))
    as [(v & Hv & ->)|[Hmiss ->]].
  - destruct (Hd _ _ Hv) as [Hstrip Hnone].
    unfold dict_get_default. rewrite Hstrip, Hnone. reflexivity.
  - rewrite strip_idem. unfold dict_get_default. rewrite Hmiss. reflexivity.
Qed.

(** C9. Both name maps are idempotent: applying [to_st_nm] twice is the
    same as applying it once, and likewise for [stnm_to_db], for every
    string. *)
Theorem name_maps_idempotent (s : string) :
  to_st_nm (to_st_nm s) = to_st_nm s /\
  stnm_to_db (stnm_to_db s) = stnm_to_db s.
Proof.
  split.
  - apply (lookup_or_self_idem NAME_TO_ST_NM).
    apply settled_check. reflexivity.
  - apply (lookup_or_self_idem ST_NM_TO_NAME).
    apply settled_check. reflexivity.
Qed.

(** Every pair of the forward table is undone by the inverse map. *)
Lemma forward_pairs_inverted k v :
  dict_get NAME_TO_ST_NM k = Some v -> stnm_to_db v = k.
Proof.
  intros H. apply dict_get_In in H.
  assert (Hall : forallb (fun kv => String.eqb (stnm_to_db (snd kv)) (fst kv))
                   NAME_TO_ST_NM = true) by reflexivity.
  rewrite forallb_forall in Hall. specialize (Hall _ H).
  now apply String.eqb_eq in Hall.
Qed.

(** C3 (as stated). The round trip is not the identity on a padded name,
    although the name is absent from both tables. *)
Lemma round_trip_padded_counterexample :
  dict_get ST_NM_TO_NAME "Goa " = None /\
  dict_get NAME_TO_ST_NM "Goa " = None /\
  stnm_to_db (to_st_nm "Goa ") = "Goa" /\
  stnm_to_db (to_st_nm "Goa ") <> "Goa ".
Proof. repeat split; try reflexivity. discriminate. Qed.

(** C3 (amended). For every name [x] whose trimmed form is not a
    boundary-side key of the inverse table, the round trip
    [stnm_to_db (to_st_nm x)] is the trimmed [x]; so it is [x] itself
    whenever [x] carries no leading or trailing whitespace. *)
Theorem name_round_trip (x : string) :
  dict_get ST_NM_TO_NAME (PyStr.strip x) = None ->
  stnm_to_db (to_st_nm x) = PyStr.strip x /\
  (PyStr.strip x = x -> stnm_to_db (to_st_nm x) = x).
Proof.
  intros Hfree.
  assert (Hrt : stnm_to_db (to_st_nm x) = PyStr.strip x).
  { unfold to_st_nm.
    destruct (dict_get_default_cases NAME_TO_ST_NM (PyStr.strip x)
                (PyStr.strip x)) as [(v & Hv & ->)|[_ ->]].
    - now apply forward_pairs_inverted.
    - unfold stnm_to_db, dict_get_default.
      rewrite strip_idem, Hfree. reflexivity. }
  split; [exact Hrt|]. intros Hx. rewrite Hrt. exact Hx.
Qed.

Lemma name_round_trip_witness :
  stnm_to_db (to_st_nm "Orissa") = PyStr.strip "Orissa" /\
  (PyStr.strip "Orissa" = "Orissa" -> stnm_to_db (to_st_nm "Orissa") = "Orissa").
Proof. apply (name_round_trip "Orissa"). reflexivity. Defined.

(** ** Map click resolution *)

Lemma getitem_mem d k : dict_mem d k = true -> exists x, getitem d k = Ok x.
Proof.
  unfold dict_mem, getitem. destruct (dict_get d k) as [x|]; [eauto|discriminate].
Qed.

Lemma selection_of_total event : exists sel, selection_of event = Ok sel.
Proof.
  unfold selection_of. destruct (hasattr event "selection") eqn:E.
  - destruct event; simpl in E; try discriminate.
    unfold getattr, dict_mem in *.
    destruct (dict_get attrs "selection"); [eauto|discriminate].
  - destruct event; eauto.
Qed.

Lemma objects_of_total sel : exists objs, objects_of sel = Ok objs.
Proof.
  unfold objects_of. destruct (dict_mem sel "objects") eqn:E1.
  - destruct (getitem_mem _ _ E1) as [o ->]. simpl. destruct o; eauto.
  - destruct (dict_mem sel "object") eqn:E2; [|eauto].
    destruct (getitem_mem _ _ E2) as [o ->]. simpl. eauto.
Qed.

Lemma unwrap_object_total obj : exists o, unwrap_object obj = Ok o.
Proof.
  destruct obj; simpl; eauto.
  destruct (dict_mem d "object") eqn:E; [|eauto]. now apply getitem_mem.
Qed.

(** The call never raises, whatever the event. *)
Lemma get_selected_state_never_raises event :
  exists r, get_selected_state_from_event event = Ok r.
Proof.
  unfold get_selected_state_from_event.
  destruct (selection_of_total event) as [sel ->]. simpl.
  destruct sel; eauto.
  destruct (objects_of_total d) as [objs ->]. simpl.
  destruct objs as [|o objs]; [eauto|]. simpl.
  destruct (unwrap_object_total o) as [obj ->]. simpl.
  destruct (properties_of obj); eauto.
  destruct (name_of d0); eauto.
  destruct (PyStr.truthy (PyStr.strip s)); eauto.
Qed.

(** C2 (as stated). An event without a ["selection"] key is read as the
    selection itself, and resolves to a name when it has that shape. *)
Lemma missing_selection_key_counterexample :
  let event :=
    PDict [("objects",
            PList [PDict [("object",
                           PDict [("properties",
                                   PDict [("ST_NM", PStr "Odisha")])])]])] in
  (exists d, event = PDict d /\ dict_mem d "selection" = false) /\
  get_selected_state_from_event event = Ok (Some "Orissa").
Proof. split; [eexists; split; reflexivity | reflexivity]. Qed.

(** C2 (amended). [get_selected_state_from_event] never raises, and it
    returns [None] for: the empty event (and [None]); an event that has
    none of the keys ["selection"], ["objects"], ["object"] (an event
    without ["selection"] is read as the selection itself); an event whose
    selected object, once unwrapped, has no ["properties"] mapping; and an
    event whose properties mapping has none of the keys ["ST_NM"],
    ["state"], ["name"]. *)
Theorem malformed_event_resolves_to_none (event : py) :
  (exists r, get_selected_state_from_event event = Ok r) /\
  (event = PDict [] \/ event = PNone ->
   get_selected_state_from_event event = Ok None) /\
  (forall d, event = PDict d ->
     dict_mem d "selection" = false ->
     dict_mem d "objects" = false ->
     dict_mem d "object" = false ->
     get_selected_state_from_event event = Ok None) /\
  (forall sel o rest obj,
     selection_of event = Ok (PDict sel) ->
     objects_of sel = Ok (o :: rest) ->
     unwrap_object o = Ok obj ->
     (forall d props, obj = PDict d ->
        dict_get d "properties" <> Some (PDict props)) ->
     get_selected_state_from_event event = Ok None) /\
  (forall sel o rest obj props,
     selection_of event = Ok (PDict sel) ->
     objects_of sel = Ok (o :: rest) ->
     unwrap_object o = Ok obj ->
     properties_of obj = PDict props ->
     dict_get props "ST_NM" = None ->
     dict_get props "state" = None ->
     dict_get props "name" = None ->
     get_selected_state_from_event event = Ok None).
Proof.
  split; [apply get_selected_state_never_raises|].
  split; [intros [->| ->]; reflexivity|].
  split; [|split].
  - intros d -> Hsel Hobjs Hobj.
    unfold get_selected_state_from_event, selection_of. simpl.
    unfold dict_get_default. unfold dict_mem in Hsel.
    destruct (dict_get d "selection"); [discriminate|]. simpl.
    unfold objects_of. rewrite Hobjs, Hobj. reflexivity.
  - intros sel o rest obj Hsel Hobjs Hun Hprops.
    unfold get_selected_state_from_event.
    rewrite Hsel. simpl. rewrite Hobjs. simpl. rewrite Hun. simpl.
    destruct obj; try reflexivity. simpl.
    unfold py_get, dict_get_default.
    destruct (dict_get d "properties") as [p|] eqn:Ep; [|reflexivity].
    destruct p; try reflexivity.
    exfalso. now apply (Hprops d d0).
  - intros sel o rest obj props Hsel Hobjs Hun Hprops H1 H2 H3.
    unfold get_selected_state_from_event.
    rewrite Hsel. simpl. rewrite Hobjs. simpl. rewrite Hun. simpl.
    rewrite Hprops. unfold name_of, py_get, dict_get_default.
    rewrite H1, H2, H3. reflexivity.
Qed.

Lemma malformed_event_resolves_to_none_witness :
  get_selected_state_from_event (PDict [("foo", PInt 1)]) = Ok None /\
  get_selected_state_from_event
    (PDict [("selection",
             PDict [("objects", PList [PDict [("object", PDict [])]])])])
  = Ok None /\
  get_selected_state_from_event
    (PDict [("selection",
             PDict [("objects",
                     PList [PDict [("object",
                                    PDict [("properties",
                                            PDict [("id", PInt 7)])])]])])])
  = Ok None.
Proof.
  split; [|split].
  - apply (malformed_event_resolves_to_none (PDict [("foo", PInt 1)]))
      with (d := [("foo", PInt 1)]); reflexivity.
  - apply (malformed_event_resolves_to_none
             (PDict [("selection",
                      PDict [("objects",
                              PList [PDict [("object", PDict [])]])])]))
      with (sel := [("objects", PList [PDict [("object", PDict [])]])])
           (o := PDict [("object", PDict [])]) (rest := []) (obj := PDict []);
      try reflexivity.
    intros d props [= <-]. discriminate.
  - apply (malformed_event_resolves_to_none
             (PDict [("selection",
                      PDict [("objects",
                              PList [PDict [("object",
                                             PDict [("properties",
                                                     PDict [("id", PInt 7)])])]])])]))
      with (sel := [("objects",
                     PList [PDict [("object",
                                    PDict [("properties",
                                            PDict [("id", PInt 7)])])]])])
           (o := PDict [("object",
                         PDict [("properties", PDict [("id", PInt 7)])])])
           (rest := [])
           (obj := PDict [("properties", PDict [("id", PInt 7)])])
           (props := [("id", PInt 7)]);
      reflexivity.
Defined.

(** C6. The event
    [{selection: {objects: [{object: {properties: {ST_NM: "Odisha"}}}]}}]
    resolves to the canonical name ["Orissa"]. *)
Theorem click_on_odisha_resolves_to_orissa :
  get_selected_state_from_event
    (PDict [("selection",
             PDict [("objects",
                     PList [PDict [("object",
                                    PDict [("properties",
                                            PDict [("ST_NM", PStr "Odisha")])])]])])])
  = Ok (Some "Orissa").
Proof. reflexivity. Qed.

(** ** KPI aggregates *)

Lemma filter_none {A} (p : A -> bool) (l : list A) :
  (forall x, In x l -> p x = false) -> List.filter p l = [].
Proof.
  induction l as [|a l IH]; simpl; intros H; [reflexivity|].
  rewrite (H a (or_introl eq_refl)). apply IH. intros x Hx. apply H. now right.
Qed.

(** C7. When no row matches the year and quarter, each of the four KPI
    operations returns the number 0 for both of its metrics: the call does
    not raise and the value is not [None]. *)
Theorem kpis_zero_on_empty_period (db : database) (state : string) (y q : Z) :
  (forall r, In r (aggregated_transaction db) -> txn_in_period y q r = false) ->
  (forall r, In r (map_user db) -> user_in_period y q r = false) ->
  india_txn_kpis db y q = Ok (0%Q, 0%Z) /\
  india_user_kpis db y q = Ok (0%Z, 0%Z) /\
  state_txn_kpis db state y q = Ok (0%Q, 0%Z) /\
  state_user_kpis db state y q = Ok (0%Z, 0%Z).
Proof.
  intros Ht Hu.
  unfold india_txn_kpis, india_user_kpis, state_txn_kpis, state_user_kpis.
  rewrite (filter_none (txn_in_period y q)) by exact Ht.
  rewrite (filter_none (user_in_period y q)) by exact Hu.
  rewrite (filter_none (fun r => String.eqb (at_state r) state
                                 && txn_in_period y q r)).
  2:{ intros r Hr. rewrite (Ht r Hr). apply andb_false_r. }
  rewrite (filter_none (fun r => String.eqb (mu_state r) state
                                 && user_in_period y q r)).
  2:{ intros r Hr. rewrite (Hu r Hr). apply andb_false_r. }
  repeat split.
Qed.

Lemma kpis_zero_on_empty_period_witness :
  india_txn_kpis sample_db 2022 3 = Ok (0%Q, 0%Z) /\
  india_user_kpis sample_db 2022 3 = Ok (0%Z, 0%Z) /\
  state_txn_kpis sample_db "Kerala" 2022 3 = Ok (0%Q, 0%Z) /\
  state_user_kpis sample_db "Kerala" 2022 3 = Ok (0%Z, 0%Z).
Proof.
  apply (kpis_zero_on_empty_period sample_db "Kerala" 2022 3).
  - intros r [<-|[]]. reflexivity.
  - intros r [<-|[]]. reflexivity.
Defined.

(** ** State dropdown default *)

Lemma insert_desc_In r l x : In x (insert_desc r l) <-> x = r \/ In x l.
Proof.
  induction l as [|y l IH]; simpl.
  - intuition.
  - destruct (Qle_bool (mr_value y) (mr_value r)); simpl; [intuition|].
    rewrite IH. intuition.
Qed.

Lemma sort_values_desc_In df x : In x (sort_values_desc df) <-> In x df.
Proof.
  induction df as [|r df IH]; simpl; [tauto|].
  rewrite insert_desc_In, IH. intuition.
Qed.

(** The first row of a list bounds all its rows. *)
Definition head_bounds (l : list metric_row) : Prop :=
  match l with
  | [] => True
  | h :: _ => forall x, In x l -> (mr_value x <= mr_value h)%Q
  end.

Lemma insert_desc_head_bounds r l :
  head_bounds l -> head_bounds (insert_desc r l).
Proof.
  destruct l as [|y l]; simpl.
  - intros _ x [->|[]]. apply Qle_refl.
  - intros Hy. destruct (Qle_bool (mr_value y) (mr_value r)) eqn:E.
    + apply Qle_bool_iff in E. intros x [->|Hx]; [apply Qle_refl|].
      eapply Qle_trans; [apply (Hy x Hx) | exact E].
    + assert (Hlt : (mr_value r < mr_value y)%Q).
      { apply Qnot_le_lt. intros H. apply Qle_bool_iff in H. congruence. }
      intros x [->|Hx]; [apply Qle_refl|].
      apply insert_desc_In in Hx as [->|Hx].
      * now apply Qlt_le_weak.
      * apply Hy. now right.
Qed.

Lemma sort_values_desc_head_bounds df : head_bounds (sort_values_desc df).
Proof.
  induction df as [|r df IH]; simpl; [exact I|].
  now apply insert_desc_head_bounds.
Qed.

Lemma default_state_highest df d :
  default_state df = Some d -> highest_metric df d.
Proof.
  unfold default_state. pose proof (sort_values_desc_head_bounds df) as Hb.
  destruct (sort_values_desc df) as [|r l] eqn:E; [discriminate|].
  intros [= <-]. exists r. split; [|split].
  - apply sort_values_desc_In. rewrite E. now left.
  - reflexivity.
  - intros r' Hr'. apply Hb. rewrite <- E. now apply sort_values_desc_In.
Qed.

Lemma default_state_None df : default_state df = None <-> df = [].
Proof.
  split; [|intros ->; reflexivity].
  unfold default_state. destruct df as [|r df]; [reflexivity|].
  destruct (sort_values_desc (r :: df)) as [|x l] eqn:E; [|discriminate].
  intros _. assert (H : In r (sort_values_desc (r :: df))).
  { apply sort_values_desc_In. now left. }
  rewrite E in H. destruct H.
Qed.

Lemma list_mem_In x l : list_mem x l = true <-> In x l.
Proof.
  unfold list_mem. rewrite existsb_exists. split.
  - intros (y & Hy & E). apply String.eqb_eq in E. now subst.
  - intros H. exists x. split; [exact H | apply String.eqb_refl].
Qed.

Lemma index_of_found l x :
  In x l -> exists i, index_of l x = Ok i /\ nth_error l i = Some x.
Proof.
  induction l as [|y l IH]; simpl; [intros []|].
  intros H. destruct (String.eqb_spec x y) as [->|Hne].
  - exists 0%nat. split; reflexivity.
  - destruct H as [->|H]; [congruence|].
    destruct (IH H) as (i & -> & Hi). exists (S i). split; [reflexivity|exact Hi].
Qed.

Lemma leb_empty_l s : String.leb "" s = true.
Proof. destruct s; reflexivity. Qed.

Lemma leb_empty_r s : String.leb s "" = true -> s = "".
Proof. destruct s; [reflexivity|discriminate]. Qed.

Lemma sorted_head_least states :
  lexically_sorted states ->
  forall s, In s states ->
    exists h, nth_error states 0 = Some h /\ String.leb h s = true.
Proof.
  intros Hs s Hin. destruct states as [|h t]; [destruct Hin|].
  exists h. split; [reflexivity|].
  destruct Hin as [->|Hin].
  - destruct (String.leb_total s s); assumption.
  - inversion Hs as [|? ? _ Hall]; subst.
    rewrite Forall_forall in Hall. apply Hall.
    now apply list_elem_of_In.
Qed.

Lemma sorted_empty_first states :
  lexically_sorted states -> In "" states -> nth_error states 0 = Some "".
Proof.
  intros Hs Hin. destruct (sorted_head_least _ Hs _ Hin) as (h & Hh & Hle).
  apply leb_empty_r in Hle. now subst.
Qed.

(** C8. For every stored clicked state and every region list in lexical
    order, the index given to the state select box follows the chain:
    the clicked state when it is in the list; otherwise, when the metric
    table has rows, the state [d] of its first row by descending value,
    which no row exceeds, when [d] is in the list; otherwise (no row, or
    [d] not in the list) index 0, the lexically first region. *)
Theorem active_state_fallback_chain
    (preferred : option string) (df : list metric_row)
    (states : list string) :
  lexically_sorted states ->
  exists idx,
    home_state_index preferred df states = Ok idx /\
    (forall p, preferred = Some p -> In p states ->
       nth_error states idx = Some p) /\
    ((forall p, preferred = Some p -> ~ In p states) ->
     (df <> [] ->
        exists d, default_state df = Some d /\ highest_metric df d /\
          (In d states -> nth_error states idx = Some d) /\
          (~ In d states ->
             idx = 0%nat /\
             forall s, In s states ->
               exists h, nth_error states idx = Some h /\
                         String.leb h s = true)) /\
     (df = [] ->
        idx = 0%nat /\
        forall s, In s states ->
          exists h, nth_error states idx = Some h /\ String.leb h s = true)).
Proof.
  intros Hsorted.
  assert (Hfb : exists idx,
    match default_state df with
    | Some d =>
        if PyStr.truthy d && list_mem d states then index_of states d
        else Ok 0%nat
    | None => Ok 0%nat
    end = Ok idx /\
    (df <> [] ->
       exists d, default_state df = Some d /\ highest_metric df d /\
         (In d states -> nth_error states idx = Some d) /\
         (~ In d states ->
            idx = 0%nat /\
            forall s, In s states ->
              exists h, nth_error states idx = Some h /\
                        String.leb h s = true)) /\
    (df = [] ->
       idx = 0%nat /\
       forall s, In s states ->
         exists h, nth_error states idx = Some h /\ String.leb h s = true)).
  { destruct (default_state df) as [d|] eqn:Ed.
    - pose proof (default_state_highest _ _ Ed) as Hhigh.
      assert (Hne : df <> []).
      { intros ->. discriminate Ed. }
      destruct (list_mem d states) eqn:Em.
      + apply list_mem_In in Em.
        destruct d as [|c d'] eqn:Edd.
        * exists 0%nat. simpl. split; [reflexivity|]. split; [|contradiction].
          intros _. exists "". split; [reflexivity|]. split; [exact Hhigh|].
          split; [intros _; now apply sorted_empty_first|contradiction].
        * simpl. destruct (index_of_found _ _ Em) as (i & Hi & Hnth).
          exists i. split; [exact Hi|]. split; [|contradiction].
          intros _. exists (String c d'). split; [reflexivity|].
          split; [exact Hhigh|]. split; [intros _; exact Hnth|contradiction].
      + rewrite andb_false_r. exists 0%nat. split; [reflexivity|].
        split; [|contradiction].
        intros _. exists d. split; [reflexivity|]. split; [exact Hhigh|].
        split.
        * intros Hin. apply list_mem_In in Hin. congruence.
        * intros _. split; [reflexivity|]. now apply sorted_head_least.
    - apply (proj1 (default_state_None _)) in Ed. subst df.
      exists 0%nat. split; [reflexivity|]. split; [contradiction|].
      intros _. split; [reflexivity|]. now apply sorted_head_least. }
  unfold home_state_index.
  destruct preferred as [p|].
  - destruct (list_mem p states) eqn:Em.
    + apply list_mem_In in Em.
      destruct (index_of_found _ _ Em) as (i & Hi & Hnth).
      exists i. split; [exact Hi|]. split.
      * intros p0 [= <-] _. exact Hnth.
      * intros Hno. exfalso. now apply (Hno p).
    + destruct Hfb as (idx & Hidx & H2 & H3).
      exists idx. split; [exact Hidx|]. split.
      * intros p0 [= <-] Hin. apply list_mem_In in Hin. congruence.
      * intros _. split; assumption.
  - destruct Hfb as (idx & Hidx & H2 & H3).
    exists idx. split; [exact Hidx|]. split.
    + intros p [=].
    + intros _. split; assumption.
Qed.

Lemma active_state_fallback_chain_witness :
  let preferred := Some "Sikkim" in
  let df := [ {| mr_state := "Goa"; mr_value := 3 |};
              {| mr_state := "Kerala"; mr_value := 8 |} ] in
  let states := ["Goa"; "Kerala"; "Punjab"] in
  exists idx,
    home_state_index preferred df states = Ok idx /\
    (forall p, preferred = Some p -> In p states ->
       nth_error states idx = Some p) /\
    ((forall p, preferred = Some p -> ~ In p states) ->
     (df <> [] ->
        exists d, default_state df = Some d /\ highest_metric df d /\
          (In d states -> nth_error states idx = Some d) /\
          (~ In d states ->
             idx = 0%nat /\
             forall s, In s states ->
               exists h, nth_error states idx = Some h /\
                         String.leb h s = true)) /\
     (df = [] ->
        idx = 0%nat /\
        forall s, In s states ->
          exists h, nth_error states idx = Some h /\ String.leb h s = true)).
Proof.
  apply (active_state_fallback_chain (Some "Sikkim")
           [ {| mr_state := "Goa"; mr_value := 3 |};
             {| mr_state := "Kerala"; mr_value := 8 |} ]
           ["Goa"; "Kerala"; "Punjab"]).
  unfold lexically_sorted.
  repeat (constructor; try reflexivity).
Defined.

Example home_state_index_default :
  home_state_index (Some "Sikkim")
    [ {| mr_state := "Goa"; mr_value := 3 |};
      {| mr_state := "Kerala"; mr_value := 8 |} ]
    ["Goa"; "Kerala"; "Punjab"] = Ok 1%nat.
Proof. reflexivity. Qed.

(** ** Dicts *)

Lemma dict_get_set_eq {V} (d : list (string * V)) k v :
  dict_get (dict_set d k v) k = Some v.
Proof.
  induction d as [|[k' v'] d IH]; simpl.
  - now rewrite String.eqb_refl.
  - destruct (String.eqb_spec k k') as [->|Hne]; simpl.
    + now rewrite String.eqb_refl.
    + destruct (String.eqb_spec k k'); [contradiction|exact IH].
Qed.

Lemma dict_get_set_ne {V} (d : list (string * V)) k k' v :
  k <> k' -> dict_get (dict_set d k v) k' = dict_get d k'.
Proof.
  intros Hne. induction d as [|[k0 v0] d IH]; simpl.
  - destruct (String.eqb_spec k' k); [congruence|reflexivity].
  - destruct (String.eqb_spec k k0) as [->|Hne0]; simpl.
    + destruct (String.eqb_spec k' k0); [congruence|reflexivity].
    + destruct (String.eqb_spec k' k0); [reflexivity|exact IH].
Qed.

Lemma dict_get_values {V} (d : list (string * V)) k v :
  dict_get d k = Some v -> In v (dict_values d).
Proof.
  intros H. apply dict_get_In in H. unfold dict_values.
  change v with (snd (k, v)). now apply in_map.
Qed.

Lemma dict_set_values_Forall {V} (P : V -> Prop) (d : list (string * V)) k v :
  Forall P (dict_values d) -> P v -> Forall P (dict_values (dict_set d k v)).
Proof.
  unfold dict_values. intros Hd Hv.
  induction d as [|[k' v'] d IH]; simpl.
  - constructor; [exact Hv|constructor].
  - inversion Hd as [|? ? Hv' Hd']; subst.
    destruct (String.eqb k k'); simpl; constructor; auto.
Qed.

Lemma dict_get_notin {V} (d : list (string * V)) k :
  ~ In k (dict_keys d) -> dict_get d k = None.
Proof.
  unfold dict_keys. induction d as [|[k' v'] d IH]; simpl; [reflexivity|].
  intros H. destruct (String.eqb_spec k k') as [->|_].
  - exfalso. apply H. now left.
  - apply IH. intros Hin. apply H. now right.
Qed.

(** ** Freshness *)

Lemma val_fresh_le n m v : (n <= m)%nat -> val_fresh m v -> val_fresh n v.
Proof. destruct v; simpl; auto. intros. lia. Qed.

Lemma obj_fresh_le n m o : (n <= m)%nat -> obj_fresh m o -> obj_fresh n o.
Proof.
  unfold obj_fresh. intros Hle. apply List.Forall_impl.
  intros v. now apply val_fresh_le.
Qed.

(** ** Induction on JSON texts *)

Lemma json_nested_ind (P : json -> Prop) :
  P JNull ->
  (forall b, P (JBool b)) ->
  (forall z, P (JInt z)) ->
  (forall q, P (JFloat q)) ->
  (forall s, P (JStr s)) ->
  (forall ts, Forall P ts -> P (JArr ts)) ->
  (forall kvs, Forall (fun kv => P (snd kv)) kvs -> P (JObj kvs)) ->
  forall t, P t.
Proof.
  intros Hnull Hbool Hint Hfloat Hstr Harr Hobj.
  fix IH 1. intros [| b | z | q | s | ts | kvs].
  - exact Hnull.
  - apply Hbool.
  - apply Hint.
  - apply Hfloat.
  - apply Hstr.
  - apply Harr. induction ts as [|t ts IHts]; constructor; [apply IH | exact IHts].
  - apply Hobj. induction kvs as [|[k t] kvs IHkvs]; constructor;
      [apply IH | exact IHkvs].
Qed.

(** ** [json.loads] only adds objects *)

Definition loads_adds (t : json) : Prop :=
  forall h v h', loads t h = (v, h') ->
    exists ext, h' = h ++ ext /\ val_fresh (length h) v /\
                Forall (obj_fresh (length h)) ext.

Lemma loads_list_adds ts :
  Forall loads_adds ts ->
  forall h vs h', loads_list loads ts h = (vs, h') ->
    exists ext, h' = h ++ ext /\ Forall (val_fresh (length h)) vs /\
                Forall (obj_fresh (length h)) ext.
Proof.
  induction 1 as [|t ts Ht _ IH]; simpl; intros h vs h' E.
  - injection E as <- <-. exists []. rewrite app_nil_r. repeat constructor.
  - destruct (loads t h) as [v h1] eqn:E1.
    destruct (loads_list loads ts h1) as [vs' h2] eqn:E2.
    injection E as <- <-.
    destruct (Ht _ _ _ E1) as (e1 & -> & Hv & He1).
    destruct (IH _ _ _ E2) as (e2 & -> & Hvs & He2).
    assert (Hle : (length h <= length (h ++ e1))%nat)
      by (rewrite length_app; lia).
    exists (e1 ++ e2). rewrite app_assoc. split; [reflexivity|]. split.
    + constructor; [exact Hv|].
      eapply List.Forall_impl; [|exact Hvs]. intros x. now apply val_fresh_le.
    + apply Forall_app. split; [exact He1|].
      eapply List.Forall_impl; [|exact He2]. intros x. now apply obj_fresh_le.
Qed.

Lemma loads_items_adds kvs :
  Forall (fun kv => loads_adds (snd kv)) kvs ->
  forall n d h d' h', loads_items loads kvs d h = (d', h') ->
    (n <= length h)%nat ->
    Forall (val_fresh n) (dict_values d) ->
    exists ext, h' = h ++ ext /\ Forall (val_fresh n) (dict_values d') /\
                Forall (obj_fresh n) ext.
Proof.
  induction 1 as [|[k t] kvs Ht _ IH]; simpl; intros n d h d' h' E Hn Hd.
  - injection E as <- <-. exists []. rewrite app_nil_r. repeat constructor.
    exact Hd.
  - destruct (loads t h) as [v h1] eqn:E1.
    destruct (Ht _ _ _ E1) as (e1 & -> & Hv & He1).
    destruct (IH n _ _ _ _ E) as (e2 & -> & Hd' & He2).
    + rewrite length_app. lia.
    + apply dict_set_values_Forall; [exact Hd|].
      now apply (val_fresh_le n (length h)).
    + exists (e1 ++ e2). rewrite app_assoc. split; [reflexivity|]. split.
      * exact Hd'.
      * apply Forall_app. split; [|exact He2].
        eapply List.Forall_impl; [|exact He1]. intros x.
        now apply obj_fresh_le.
Qed.

Lemma loads_only_adds t : loads_adds t.
Proof.
  induction t as [| b | z | q | s | ts IH | kvs IH] using json_nested_ind;
    intros h v h'; simpl; intros E;
    try (injection E as <- <-; exists []; rewrite app_nil_r;
         repeat constructor).
  - destruct (loads_list loads ts h) as [vs h1] eqn:E1.
    injection E as <- <-.
    destruct (loads_list_adds ts IH _ _ _ E1) as (e1 & -> & Hvs & He1).
    exists (e1 ++ [OList vs]). rewrite app_assoc. split; [reflexivity|]. split.
    + simpl. rewrite length_app. lia.
    + apply Forall_app. split; [exact He1|]. constructor; [exact Hvs|constructor].
  - destruct (loads_items loads kvs [] h) as [d h1] eqn:E1.
    injection E as <- <-.
    destruct (loads_items_adds kvs IH (length h) _ _ _ _ E1) as (e1 & -> & Hd & He1).
    + lia.
    + constructor.
    + exists (e1 ++ [ODict d]). rewrite app_assoc. split; [reflexivity|]. split.
      * simpl. rewrite length_app. lia.
      * apply Forall_app. split; [exact He1|]. constructor; [exact Hd|constructor].
Qed.

(** ** Rules for [keeps] *)

Lemma keeps_ret {A} I (a : A) (Q : A -> Prop) : Q a -> keeps I (mret a) Q.
Proof. intros HQ h Hh. split; [exact Hh|]. intros a' [= <-]. exact HQ. Qed.

Lemma keeps_bind {A B} I (m : M A) (f : A -> M B) (Q : A -> Prop)
    (R : B -> Prop) :
  keeps I m Q -> (forall a, Q a -> keeps I (f a) R) -> keeps I (m ≫= f) R.
Proof.
  intros Hm Hf h Hh. unfold mbind, M_bind, bindM.
  destruct (Hm h Hh) as [HI HQ]. destruct (m h) as [[a|e] h1]; simpl in *.
  - apply (Hf a (HQ a eq_refl) h1 HI).
  - split; [exact HI|discriminate].
Qed.

Lemma keeps_weaken {A} I (m : M A) (Q Q' : A -> Prop) :
  keeps I m Q -> (forall a, Q a -> Q' a) -> keeps I m Q'.
Proof.
  intros Hm HQ h Hh. destruct (Hm h Hh) as [HI Ha]. split; [exact HI|].
  intros a E. apply HQ, Ha, E.
Qed.

(** A computation that leaves the heap as it is. *)
Lemma keeps_reader {A} I (m : M A) :
  (forall h, snd (m h) = h) -> keeps I m (fun _ => True).
Proof. intros Hm h Hh. rewrite Hm. split; [exact Hh|trivial]. Qed.

Lemma getitem_h_heap v k h : snd (getitem_h v k h) = h.
Proof.
  unfold getitem_h. destruct v; try reflexivity.
  destruct (h !! l) as [[d|xs]|]; try reflexivity.
  destruct (dict_get d k); reflexivity.
Qed.

Lemma iter_h_heap v h : snd (iter_h v h) = h.
Proof.
  unfold iter_h. destruct v; try reflexivity.
  destruct (h !! l) as [[d|xs]|]; reflexivity.
Qed.

Lemma vals_get_heap vals v h : snd (vals_get vals v h) = h.
Proof. destruct v; reflexivity. Qed.

Lemma for_each_keeps {A} I (xs : list A) (body : A -> M unit) :
  (forall x, keeps I (body x) (fun _ => True)) ->
  keeps I (for_each xs body) (fun _ => True).
Proof.
  intros Hbody. induction xs as [|x xs IH]; simpl.
  - now apply keeps_ret.
  - eapply keeps_bind; [apply Hbody|]. intros _ _. exact IH.
Qed.

Section Untouched.
Variable h0 : heap.
Let I := extends_untouched h0.
Let fresh := val_fresh (length h0).

Lemma untouched_start : I h0.
Proof. exists []. rewrite app_nil_r. split; [reflexivity|constructor]. Qed.

Lemma untouched_lookup_new h l o :
  I h -> (length h0 <= l)%nat -> h !! l = Some o -> obj_fresh (length h0) o.
Proof.
  intros (ext & -> & Hext) Hl Ho.
  rewrite lookup_app_r in Ho by exact Hl.
  apply (Forall_lookup_1 _ _ _ _ Hext Ho).
Qed.

Lemma untouched_insert_new h l o :
  I h -> (length h0 <= l)%nat -> obj_fresh (length h0) o -> I (<[l := o]> h).
Proof.
  intros (ext & -> & Hext) Hl Ho.
  exists (<[l - length h0 := o]> ext). split.
  - now apply insert_app_r_alt.
  - now apply Forall_insert.
Qed.

Lemma untouched_lookup_old h l o :
  I h -> h0 !! l = Some o -> h !! l = Some o.
Proof. intros (ext & -> & _) Ho. now apply lookup_app_l_Some. Qed.

Lemma alloc_keeps o : obj_fresh (length h0) o -> keeps I (alloc o) fresh.
Proof.
  intros Ho h (ext & -> & Hext). unfold alloc. simpl. split.
  - exists (ext ++ [o]). rewrite app_assoc. split; [reflexivity|].
    apply Forall_app. split; [exact Hext|]. constructor; [exact Ho|constructor].
  - intros a [= <-]. unfold fresh. simpl. rewrite length_app. lia.
Qed.

Lemma json_loads_keeps t : keeps I (json_loads t) fresh.
Proof.
  intros h (ext & -> & Hext). unfold json_loads.
  destruct (loads t (h0 ++ ext)) as [v h'] eqn:E. simpl.
  destruct (loads_only_adds t _ _ _ E) as (e & -> & Hv & He).
  assert (Hle : (length h0 <= length (h0 ++ ext))%nat)
    by (rewrite length_app; lia).
  split.
  - exists (ext ++ e). rewrite app_assoc. split; [reflexivity|].
    apply Forall_app. split; [exact Hext|].
    eapply List.Forall_impl; [|exact He]. intros x. now apply obj_fresh_le.
  - intros a [= <-]. now apply (val_fresh_le _ _ _ Hle).
Qed.

(** Reading through a new object yields a new object or a scalar. *)
Lemma getitem_h_keeps v k : fresh v -> keeps I (getitem_h v k) fresh.
Proof.
  intros Hv h Hh. rewrite getitem_h_heap. split; [exact Hh|].
  intros a. unfold getitem_h. destruct v; try discriminate.
  destruct (h !! l) as [[d|xs]|] eqn:El; try discriminate.
  destruct (dict_get d k) as [x|] eqn:Ek; [|discriminate].
  intros [= <-].
  pose proof (untouched_lookup_new _ _ _ Hh Hv El) as Hd.
  unfold obj_fresh in Hd. rewrite Forall_forall in Hd.
  apply Hd. simpl. apply list_elem_of_In. eapply dict_get_values, Ek.
Qed.

Lemma setitem_h_keeps v k x :
  fresh v -> fresh x -> keeps I (setitem_h v k x) (fun _ => True).
Proof.
  intros Hv Hx h Hh. split; [|trivial].
  unfold setitem_h. destruct v; try exact Hh.
  destruct (h !! l) as [[d|xs]|] eqn:El; try exact Hh. simpl.
  apply untouched_insert_new; [exact Hh|exact Hv|].
  pose proof (untouched_lookup_new _ _ _ Hh Hv El) as Hd.
  unfold obj_fresh in *. simpl in *. now apply dict_set_values_Forall.
Qed.

Lemma append_h_keeps v x :
  fresh v -> fresh x -> keeps I (append_h v x) (fun _ => True).
Proof.
  intros Hv Hx h Hh. split; [|trivial].
  unfold append_h. destruct v; try exact Hh.
  destruct (h !! l) as [[d|xs]|] eqn:El; try exact Hh. simpl.
  apply untouched_insert_new; [exact Hh|exact Hv|].
  pose proof (untouched_lookup_new _ _ _ Hh Hv El) as Hd.
  unfold obj_fresh in *. simpl in *. apply Forall_app. split; [exact Hd|].
  constructor; [exact Hx|constructor].
Qed.

Lemma enrich_feature_keeps vals feats f :
  fresh feats -> keeps I (enrich_feature vals feats f) (fun _ => True).
Proof.
  intros Hfeats. unfold enrich_feature.
  eapply keeps_bind; [apply keeps_reader, getitem_h_heap|]. intros props _.
  eapply keeps_bind; [apply keeps_reader, getitem_h_heap|]. intros st_nm _.
  eapply keeps_bind; [apply keeps_reader, vals_get_heap|]. intros v _.
  eapply keeps_bind; [apply keeps_reader; reflexivity|]. intros text _.
  eapply keeps_bind; [apply json_loads_keeps|]. intros g Hg.
  do 6 (eapply keeps_bind; [now apply getitem_h_keeps|]; intros ? ?;
        eapply keeps_bind; [now apply setitem_h_keeps|]; intros _ _).
  now apply append_h_keeps.
Qed.

Lemma build_feature_collection_keeps geo df :
  keeps I (build_feature_collection geo df) (fun _ => True).
Proof.
  unfold build_feature_collection.
  eapply keeps_bind; [apply alloc_keeps; constructor|]. intros feats Hfeats.
  eapply keeps_bind; [apply keeps_reader, getitem_h_heap|]. intros features _.
  eapply keeps_bind; [apply keeps_reader, iter_h_heap|]. intros fs _.
  eapply keeps_bind.
  { apply for_each_keeps. intros f. now apply enrich_feature_keeps. }
  intros _ _. eapply keeps_weaken; [apply alloc_keeps|trivial].
  repeat constructor. exact Hfeats.
Qed.
End Untouched.

(** ** [json.dumps] on a grown heap *)

Lemma result_map_ext {A B} (f g : A -> result B) xs ys :
  result_map f xs = Ok ys ->
  (forall x y, In x xs -> f x = Ok y -> g x = Ok y) ->
  result_map g xs = Ok ys.
Proof.
  revert ys. induction xs as [|x xs IH]; simpl; intros ys E Hfg; [exact E|].
  destruct (f x) as [y|e] eqn:Ef; [|discriminate]. simpl in E.
  destruct (result_map f xs) as [ys'|e] eqn:Em; [|discriminate]. simpl in E.
  rewrite (Hfg x y (or_introl eq_refl) Ef). simpl.
  rewrite (IH ys' eq_refl); [exact E|]. intros x' y' Hx'. apply Hfg. now right.
Qed.

Lemma dumps_ref n h l :
  dumps (S n) h (VRef l) =
  match h !! l with
  | Some (ODict d) =>
      kvs ← result_map (fun kv => t ← dumps n h (snd kv); Ok (fst kv, t)) d;
      Ok (JObj kvs)
  | Some (OList xs) => ts ← result_map (dumps n h) xs; Ok (JArr ts)
  | None => Raise TypeError
  end.
Proof. reflexivity. Qed.

Lemma dumps_mono n m h h' v t :
  (n <= m)%nat -> (forall l o, h !! l = Some o -> h' !! l = Some o) ->
  dumps n h v = Ok t -> dumps m h' v = Ok t.
Proof.
  intros Hnm Hh. revert m Hnm v t.
  induction n as [|n IH]; intros m Hnm v t E.
  - destruct v; destruct m; simpl in *; try exact E; discriminate.
  - destruct m as [|m]; [lia|].
    destruct v; try exact E.
    rewrite dumps_ref in E. rewrite dumps_ref.
    destruct (h !! l) as [o|] eqn:El; [|discriminate].
    rewrite (Hh _ _ El). destruct o as [d|xs].
    + destruct (result_map (fun kv => t ← dumps n h (snd kv); Ok (fst kv, t)) d)
        as [kvs|e] eqn:Em; [|discriminate].
      erewrite result_map_ext; [exact E|exact Em|].
      intros kv y _ Ekv. cbv beta in Ekv |- *.
      destruct (dumps n h (snd kv)) as [t'|] eqn:Et; cbn in Ekv;
        [|discriminate].
      rewrite (IH m ltac:(lia) _ _ Et). exact Ekv.
    + destruct (result_map (dumps n h) xs) as [ts|e] eqn:Em; [|discriminate].
      erewrite result_map_ext; [exact E|exact Em|].
      intros x y _ Ex. apply (IH m ltac:(lia) _ _ Ex).
Qed.

(** C10. [build_feature_collection] does not mutate the shared geometry:
    whatever the metric table, and whether the call returns or raises,
    every object that existed before the call is the same afterwards, so
    the JSON text of every earlier value, each feature of [INDIA_GEOJSON]
    included, is unchanged. *)
Theorem build_feature_collection_geometry_unchanged
    (INDIA_GEOJSON : val) (df_plot : list metric_row) (h0 : heap) :
  let h' := snd (build_feature_collection INDIA_GEOJSON df_plot h0) in
  (forall l o, h0 !! l = Some o -> h' !! l = Some o) /\
  (forall n v t, dumps n h0 v = Ok t -> dumps n h' v = Ok t).
Proof.
  intros h'.
  assert (Hold : forall l o, h0 !! l = Some o -> h' !! l = Some o).
  { intros l o. apply untouched_lookup_old.
    apply (build_feature_collection_keeps h0 INDIA_GEOJSON df_plot h0).
    apply untouched_start. }
  split; [exact Hold|].
  intros n v t. now apply dumps_mono.
Qed.

(** ** The copy made by [json.loads(json.dumps(f))] *)

Lemma result_map_Forall2 {A B} (f : A -> result B) xs ys :
  result_map f xs = Ok ys -> Forall2 (fun x y => f x = Ok y) xs ys.
Proof.
  revert ys. induction xs as [|x xs IH]; simpl; intros ys E.
  - injection E as <-. constructor.
  - destruct (f x) as [y|e] eqn:Ef; [|discriminate]. cbn in E.
    destruct (result_map f xs) as [ys'|e] eqn:Em; [|discriminate]. cbn in E.
    injection E as <-. constructor; [exact Ef|]. now apply IH.
Qed.

(** The text of a dict has the keys of the dict, in the same order, each
    with the text of its value. *)
Lemma dumps_dict n h l d t :
  h !! l = Some (ODict d) -> dumps (S n) h (VRef l) = Ok t ->
  exists kvs, t = JObj kvs /\
    Forall2 (fun kv kt => fst kt = fst kv /\ dumps n h (snd kv) = Ok (snd kt))
            d kvs.
Proof.
  intros Hl E. rewrite dumps_ref, Hl in E.
  destruct (result_map (fun kv => t ← dumps n h (snd kv); Ok (fst kv, t)) d)
    as [kvs|e] eqn:Em; cbn in E; [|discriminate].
  injection E as <-. exists kvs. split; [reflexivity|].
  apply result_map_Forall2 in Em.
  eapply Forall2_impl; [exact Em|]. intros kv kt Hkv. cbv beta in Hkv.
  destruct (dumps n h (snd kv)) as [t'|] eqn:Et; cbn in Hkv; [|discriminate].
  injection Hkv as <-. split; reflexivity.
Qed.

Lemma Forall2_keys {A B} (d : list (string * A)) (kvs : list (string * B))
    (R : A -> B -> Prop) :
  Forall2 (fun kv kt => fst kt = fst kv /\ R (snd kv) (snd kt)) d kvs ->
  map fst kvs = map fst d /\
  forall k v, dict_get d k = Some v ->
    exists t, In (k, t) kvs /\ R v t.
Proof.
  induction 1 as [|[k0 v0] [k1 t1] d kvs [Hk HR] _ [IHk IHv]]; simpl in *.
  - split; [reflexivity|discriminate].
  - subst k1. split; [now rewrite IHk|].
    intros k v. destruct (String.eqb_spec k k0) as [->|_].
    + intros [= <-]. exists t1. split; [now left|exact HR].
    + intros Hv. destruct (IHv _ _ Hv) as (t & Ht & HRt).
      exists t. split; [now right|exact HRt].
Qed.

Lemma loads_items_other kvs k :
  ~ In k (map fst kvs) ->
  forall d h d' h', loads_items loads kvs d h = (d', h') ->
    dict_get d' k = dict_get d k.
Proof.
  induction kvs as [|[k0 t0] kvs IH]; simpl; intros Hk d h d' h' E.
  - now injection E as <- <-.
  - destruct (loads t0 h) as [v h1].
    rewrite (IH ltac:(tauto) _ _ _ _ E).
    apply dict_get_set_ne. intros ->. tauto.
Qed.

Lemma loads_items_grows kvs d h d' h' :
  loads_items loads kvs d h = (d', h') -> exists ext, h' = h ++ ext.
Proof.
  revert d h. induction kvs as [|[k0 t0] kvs IH]; simpl; intros d h E.
  - injection E as <- <-. exists []. now rewrite app_nil_r.
  - destruct (loads t0 h) as [v h1] eqn:E1.
    destruct (loads_only_adds t0 _ _ _ E1) as (e1 & -> & _).
    destruct (IH _ _ E) as (e2 & ->). exists (e1 ++ e2). now rewrite app_assoc.
Qed.

(** With distinct keys, the dict built by [json.loads] holds under each
    key the value loaded from the member of that key. *)
Lemma loads_items_member kvs k t :
  NoDup (map fst kvs) -> In (k, t) kvs ->
  forall d h d' h', loads_items loads kvs d h = (d', h') ->
    exists v ha hb ea eb ec,
      dict_get d' k = Some v /\ loads t ha = (v, hb) /\
      ha = h ++ ea /\ hb = ha ++ eb /\ h' = hb ++ ec.
Proof.
  induction kvs as [|[k0 t0] kvs IH]; simpl; intros Hnd Hin d h d' h' E;
    [destruct Hin|].
  inversion Hnd as [|? ? Hk0 Hnd']; subst.
  destruct (loads t0 h) as [v0 h1] eqn:E1.
  destruct (loads_only_adds t0 _ _ _ E1) as (e1 & -> & _).
  destruct Hin as [[= -> ->]|Hin].
  - destruct (loads_items_grows _ _ _ _ _ E) as (e2 & ->).
    exists v0, h, (h ++ e1), [], e1, e2.
    rewrite app_nil_r. repeat split; try reflexivity; try exact E1.
    rewrite (loads_items_other kvs k ltac:(now rewrite <- list_elem_of_In) _ _ _ _ E).
    apply dict_get_set_eq.
  - destruct (IH Hnd' Hin _ _ _ _ E) as (v & ha & hb & ea & eb & ec &
                                          Hv & Hl & -> & -> & ->).
    exists v, ((h ++ e1) ++ ea), (((h ++ e1) ++ ea) ++ eb), (e1 ++ ea), eb, ec.
    repeat split; try assumption; try reflexivity. now rewrite app_assoc.
Qed.

Lemma dumps_str n h s : dumps n h (VStr s) = Ok (JStr s).
Proof. destruct n; reflexivity. Qed.

Lemma loads_obj kvs h :
  exists d h1, loads_items loads kvs [] h = (d, h1) /\
               loads (JObj kvs) h = (VRef (length h1), h1 ++ [ODict d]).
Proof.
  simpl. destruct (loads_items loads kvs [] h) as [d h1]. eauto.
Qed.

(** The copy of a well-formed feature is a new dict whose ["properties"]
    is a new dict with the same ["ST_NM"]. *)
Lemma copy_feature h f name t :
  wf_feature h f name -> dumps (S (length h)) h f = Ok t ->
  exists lg lgp dg dgp ext,
    loads t h = (VRef lg, h ++ ext) /\
    lgp <> lg /\ (length h <= lg)%nat /\ (length h <= lgp)%nat /\
    (h ++ ext) !! lg = Some (ODict dg) /\
    dict_get dg "properties" = Some (VRef lgp) /\
    (h ++ ext) !! lgp = Some (ODict dgp) /\
    dict_get dgp "ST_NM" = Some (VStr name).
Proof.
  intros (lf & d & lp & dp & t0 & -> & Hlf & Hnd & Hprops & Hlp & Hndp & Hname & _) E.
  destruct (dumps_dict _ _ _ _ _ Hlf E) as (kvs & -> & Hkvs).
  destruct (Forall2_keys _ _ (fun v t => dumps (length h) h v = Ok t) Hkvs)
    as [Hkeys Hmem].
  destruct (Hmem _ _ Hprops) as (tp & Htp_in & Htp).
  assert (Hlen : exists n, length h = S n).
  { apply lookup_lt_Some in Hlp. destruct (length h); [lia|eauto]. }
  destruct Hlen as [n Hn]. rewrite Hn in Htp.
  destruct (dumps_dict _ _ _ _ _ Hlp Htp) as (pk & -> & Hpk).
  destruct (Forall2_keys _ _ (fun v t => dumps n h v = Ok t) Hpk)
    as [Hpkeys Hpmem].
  destruct (Hpmem _ _ Hname) as (ts & Hts_in & Hts).
  rewrite dumps_str in Hts. injection Hts as <-.
  (* loading the text *)
  destruct (loads_obj kvs h) as (dg & h1 & Eitems & Eload).
  assert (Hnd' : NoDup (map fst kvs)) by (rewrite Hkeys; exact Hnd).
  destruct (loads_items_member kvs _ _ Hnd' Htp_in _ _ _ _ Eitems)
    as (v & ha & hb & ea & eb & ec & Hv & Hlv & -> & -> & ->).
  destruct (loads_obj pk (h ++ ea)) as (dgp & hp1 & Epitems & Epload).
  rewrite Epload in Hlv. injection Hlv as <- Hhb.
  assert (Hndp' : NoDup (map fst pk)) by (rewrite Hpkeys; exact Hndp).
  destruct (loads_items_member pk _ _ Hndp' Hts_in _ _ _ _ Epitems)
    as (v' & ha' & hb' & ea' & eb' & ec' & Hv' & Hlv' & _).
  simpl in Hlv'. injection Hlv' as <- _.
  destruct (loads_items_grows _ _ _ _ _ Epitems) as (ep & ->).
  set (lgp := length ((h ++ ea) ++ ep)) in *.
  set (h1 := ((h ++ ea) ++ eb) ++ ec) in *.
  assert (Hlgp1 : h1 !! lgp = Some (ODict dgp)).
  { unfold h1. rewrite <- Hhb. rewrite <- !app_assoc.
    rewrite (app_assoc h ea), (app_assoc (h ++ ea) ep).
    rewrite lookup_app_r by (unfold lgp; lia).
    unfold lgp. now rewrite Nat.sub_diag. }
  assert (Hlt : (lgp < length h1)%nat) by (now apply lookup_lt_Some in Hlgp1).
  assert (Hh1 : exists e, h1 = h ++ e).
  { exists (ea ++ eb ++ ec). unfold h1. now rewrite <- !app_assoc. }
  destruct Hh1 as (e & He).
  exists (length h1), lgp, dg, dgp, (e ++ [ODict dg]).
  rewrite Eload. rewrite app_assoc, <- He.
  repeat split.
  - lia.
  - rewrite He, length_app. lia.
  - unfold lgp. rewrite !length_app. lia.
  - rewrite lookup_app_r by lia. now rewrite Nat.sub_diag.
  - exact Hv.
  - rewrite lookup_app_l by exact Hlt. exact Hlgp1.
  - exact Hv'.
Qed.

(** ** One pass of the loop *)

Lemma bind_ok {A B} (m : M A) (f : A -> M B) h a h1 :
  m h = (Ok a, h1) -> (m ≫= f) h = f a h1.
Proof. intros E. unfold mbind, M_bind, bindM. now rewrite E. Qed.

Lemma set_prop_step {B} h lg lgp dp k x (rest : M B) :
  lgp <> lg -> feature_at h lg lgp dp ->
  exists h',
    (gp ← getitem_h (VRef lg) "properties";
     _ ← setitem_h gp k x; rest) h = rest h' /\
    feature_at h' lg lgp (dict_set dp k x) /\
    (forall l, l <> lgp -> h' !! l = h !! l) /\
    length h' = length h.
Proof.
  intros Hne (dg & Hlg & Hprops & Hlgp).
  exists (<[lgp := ODict (dict_set dp k x)]> h). split; [|split; [|split]].
  - unfold mbind, M_bind, bindM, getitem_h, setitem_h.
    now rewrite Hlg, Hprops, Hlgp.
  - exists dg. split; [|split; [exact Hprops|]].
    + rewrite list_lookup_insert_ne by exact Hne. exact Hlg.
    + apply list_lookup_insert_eq. now apply lookup_lt_Some in Hlgp.
  - intros l Hl. now apply list_lookup_insert_ne.
  - apply length_insert.
Qed.

Lemma wf_feature_grows h h' f name :
  (forall l o, h !! l = Some o -> h' !! l = Some o) ->
  (length h <= length h')%nat ->
  wf_feature h f name -> wf_feature h' f name.
Proof.
  intros Hh Hlen (lf & d & lp & dp & t & -> & Hlf & Hnd & Hp & Hlp & Hndp & Hn & Ht).
  exists lf, d, lp, dp, t. repeat split; auto.
  eapply dumps_mono; [|exact Hh|exact Ht]. lia.
Qed.

Lemma enrich_feature_spec vals lfeats gs f name h :
  wf_feature h f name ->
  h !! lfeats = Some (OList gs) ->
  exists g h',
    enrich_feature vals (VRef lfeats) f h = (Ok tt, h') /\
    (forall l, (l < length h)%nat -> l <> lfeats -> h' !! l = h !! l) /\
    (length h <= length h')%nat /\
    h' !! lfeats = Some (OList (gs ++ [g])) /\
    enriched vals lfeats h' g name.
Proof.
  intros Hwf Hfeats.
  pose proof Hwf as (lf & d & lp & dp & t & -> & Hlf & Hnd & Hprops & Hlp
                     & Hndp & Hname & Ht).
  destruct (copy_feature _ _ _ _ Hwf Ht)
    as (lg & lgp & dg & dgp & ext & Eload & Hne & Hlg & Hlgp & Hg & Hgp & Hp & Hnm).
  assert (Hlfeats : (lfeats < length h)%nat) by (now apply lookup_lt_Some in Hfeats).
  set (v := dict_get_default vals name 0%Q).
  unfold enrich_feature.
  rewrite (bind_ok _ _ h (VRef lp) h)
    by (unfold getitem_h; now rewrite Hlf, Hprops).
  rewrite (bind_ok _ _ h (VStr name) h)
    by (unfold getitem_h; now rewrite Hlp, Hname).
  rewrite (bind_ok _ _ h v h) by reflexivity.
  rewrite (bind_ok _ _ h t h) by (unfold json_dumps; now rewrite Ht).
  rewrite (bind_ok _ _ h (VRef lg) (h ++ ext))
    by (unfold json_loads; now rewrite Eload).
  assert (H0 : feature_at (h ++ ext) lg lgp dgp) by (exists dg; auto).
  destruct (set_prop_step (h ++ ext) lg lgp _ "metric_value" (VFloat v)
              (gp ← getitem_h (VRef lg) "properties";
               _ ← setitem_h gp "height" (VFloat (height_of vals v));
               gp ← getitem_h (VRef lg) "properties";
               _ ← setitem_h gp "fill_r" (VInt 66);
               gp ← getitem_h (VRef lg) "properties";
               _ ← setitem_h gp "fill_g" (VInt 135);
               gp ← getitem_h (VRef lg) "properties";
               _ ← setitem_h gp "fill_b" (VInt 245);
               gp ← getitem_h (VRef lg) "properties";
               _ ← setitem_h gp "fill_a" (VInt 180);
               append_h (VRef lfeats) (VRef lg)) Hne H0)
    as (h1 & -> & H1 & Ho1 & Hl1).
  destruct (set_prop_step h1 lg lgp _ "height" (VFloat (height_of vals v))
              (gp ← getitem_h (VRef lg) "properties";
               _ ← setitem_h gp "fill_r" (VInt 66);
               gp ← getitem_h (VRef lg) "properties";
               _ ← setitem_h gp "fill_g" (VInt 135);
               gp ← getitem_h (VRef lg) "properties";
               _ ← setitem_h gp "fill_b" (VInt 245);
               gp ← getitem_h (VRef lg) "properties";
               _ ← setitem_h gp "fill_a" (VInt 180);
               append_h (VRef lfeats) (VRef lg)) Hne H1)
    as (h2 & -> & H2 & Ho2 & Hl2).
  destruct (set_prop_step h2 lg lgp _ "fill_r" (VInt 66)
              (gp ← getitem_h (VRef lg) "properties";
               _ ← setitem_h gp "fill_g" (VInt 135);
               gp ← getitem_h (VRef lg) "properties";
               _ ← setitem_h gp "fill_b" (VInt 245);
               gp ← getitem_h (VRef lg) "properties";
               _ ← setitem_h gp "fill_a" (VInt 180);
               append_h (VRef lfeats) (VRef lg)) Hne H2)
    as (h3 & -> & H3 & Ho3 & Hl3).
  destruct (set_prop_step h3 lg lgp _ "fill_g" (VInt 135)
              (gp ← getitem_h (VRef lg) "properties";
               _ ← setitem_h gp "fill_b" (VInt 245);
               gp ← getitem_h (VRef lg) "properties";
               _ ← setitem_h gp "fill_a" (VInt 180);
               append_h (VRef lfeats) (VRef lg)) Hne H3)
    as (h4 & -> & H4 & Ho4 & Hl4).
  destruct (set_prop_step h4 lg lgp _ "fill_b" (VInt 245)
              (gp ← getitem_h (VRef lg) "properties";
               _ ← setitem_h gp "fill_a" (VInt 180);
               append_h (VRef lfeats) (VRef lg)) Hne H4)
    as (h5 & -> & H5 & Ho5 & Hl5).
  destruct (set_prop_step h5 lg lgp _ "fill_a" (VInt 180)
              (append_h (VRef lfeats) (VRef lg)) Hne H5)
    as (h6 & -> & H6 & Ho6 & Hl6).
  assert (Hsame : forall l, l <> lgp -> h6 !! l = (h ++ ext) !! l).
  { intros l Hl. now rewrite Ho6, Ho5, Ho4, Ho3, Ho2, Ho1. }
  assert (Hlen6 : length h6 = length (h ++ ext)) by congruence.
  assert (Hf6 : h6 !! lfeats = Some (OList gs)).
  { rewrite Hsame by lia. now apply lookup_app_l_Some. }
  exists (VRef lg), (<[lfeats := OList (gs ++ [VRef lg])]> h6).
  split; [|split; [|split; [|split]]].
  - unfold append_h. now rewrite Hf6.
  - intros l Hl Hlf'. rewrite list_lookup_insert_ne by congruence.
    rewrite Hsame by lia. now apply lookup_app_l.
  - rewrite length_insert, Hlen6, length_app. lia.
  - apply list_lookup_insert_eq. now apply lookup_lt_Some in Hf6.
  - destruct H6 as (dg6 & Hg6 & Hp6 & Hgp6).
    eexists lg, lgp, _. split; [reflexivity|]. split; [lia|]. split; [lia|].
    split; [|split; [|split]].
    + exists dg6. rewrite !list_lookup_insert_ne by lia.
      split; [exact Hg6|]. split; [exact Hp6|exact Hgp6].
    + rewrite !dict_get_set_ne by discriminate. exact Hnm.
    + rewrite !dict_get_set_ne by discriminate. apply dict_get_set_eq.
    + rewrite !dict_get_set_ne by discriminate. apply dict_get_set_eq.
Qed.

(** ** The whole loop *)

Lemma enriched_stable vals lfeats h h' g name :
  (forall l, (l < length h)%nat -> l <> lfeats -> h' !! l = h !! l) ->
  enriched vals lfeats h g name -> enriched vals lfeats h' g name.
Proof.
  intros Hsame (lg & lgp & dp & -> & Hlg & Hlgp & (dg & Hg & Hp & Hgp) & Hrest).
  exists lg, lgp, dp. split; [reflexivity|]. split; [exact Hlg|].
  split; [exact Hlgp|]. split; [|exact Hrest].
  exists dg. split; [|split; [exact Hp|]].
  - rewrite Hsame; [exact Hg| |lia]. now apply lookup_lt_Some in Hg.
  - rewrite Hsame; [exact Hgp| |lia]. now apply lookup_lt_Some in Hgp.
Qed.

Lemma for_each_enrich_spec vals h0 lfeats fs names :
  Forall2 (wf_feature h0) fs names ->
  (length h0 <= lfeats)%nat ->
  forall h gs0 names0,
    (forall l o, h0 !! l = Some o -> h !! l = Some o) ->
    (length h0 <= length h)%nat ->
    h !! lfeats = Some (OList gs0) ->
    Forall2 (enriched vals lfeats h) gs0 names0 ->
    exists gs h',
      for_each fs (enrich_feature vals (VRef lfeats)) h = (Ok tt, h') /\
      (forall l o, h0 !! l = Some o -> h' !! l = Some o) /\
      (length h <= length h')%nat /\
      h' !! lfeats = Some (OList (gs0 ++ gs)) /\
      Forall2 (enriched vals lfeats h') (gs0 ++ gs) (names0 ++ names).
Proof.
  intros Hwf Hlfeats.
  induction Hwf as [|f name fs names Hf _ IH]; intros h gs0 names0 Hold Hlen Hl Hdone.
  - exists [], h. rewrite !app_nil_r. repeat split; auto.
  - assert (Hfh : wf_feature h f name) by (eapply wf_feature_grows; eauto).
    destruct (enrich_feature_spec vals lfeats gs0 f name h Hfh Hl)
      as (g & h1 & Estep & Hsame & Hlen1 & Hl1 & Hg).
    assert (Hold1 : forall l o, h0 !! l = Some o -> h1 !! l = Some o).
    { intros l o Ho. pose proof (lookup_lt_Some _ _ _ Ho).
      rewrite Hsame by lia. now apply Hold. }
    destruct (IH h1 (gs0 ++ [g]) (names0 ++ [name]) Hold1 ltac:(lia) Hl1)
      as (gs & h' & Erest & Hold' & Hlen' & Hl' & Hall).
    { apply Forall2_app; [|now repeat constructor].
      eapply Forall2_impl; [exact Hdone|]. intros g' n'.
      now apply enriched_stable. }
    exists (g :: gs), h'. split; [|split; [|split; [|split]]].
    + simpl. rewrite (bind_ok _ _ h tt h1) by exact Estep. exact Erest.
    + exact Hold'.
    + lia.
    + rewrite <- app_assoc in Hl'. exact Hl'.
    + rewrite <- !app_assoc in Hall. exact Hall.
Qed.

Lemma enriched_readback vals lfeats h g name :
  enriched vals lfeats h g name ->
  feature_prop h g "ST_NM" = Some (VStr name) /\
  feature_prop h g "metric_value"
    = Some (VFloat (dict_get_default vals name 0%Q)) /\
  feature_prop h g "height"
    = Some (VFloat (height_of vals (dict_get_default vals name 0%Q))).
Proof.
  intros (lg & lgp & dp & -> & _ & _ & (dg & Hg & Hp & Hgp) & H1 & H2 & H3).
  unfold feature_prop, peek. rewrite Hg, Hp, Hgp. auto.
Qed.

(** For a well-formed geometry the call returns a collection with one
    feature per geometry feature, in order, each carrying the region's
    name, its metric value [vals.get(name, 0.0)] and the height computed
    from it. *)
Lemma build_feature_collection_spec h0 geo fs names df :
  geometry h0 geo fs names ->
  exists fc gs h',
    build_feature_collection geo df h0 = (Ok fc, h') /\
    collection_features h' fc = Some gs /\
    Forall2 (fun g name =>
      let v := dict_get_default (metric_values df) name 0%Q in
      feature_prop h' g "ST_NM" = Some (VStr name) /\
      feature_prop h' g "metric_value" = Some (VFloat v) /\
      feature_prop h' g "height"
        = Some (VFloat (height_of (metric_values df) v))) gs names.
Proof.
  intros (lfs & Hpeek & Hlfs & Hwf).
  set (vals := metric_values df). set (lfeats := length h0).
  set (ha := h0 ++ [OList []]).
  assert (Hold : forall l o, h0 !! l = Some o -> ha !! l = Some o)
    by (intros l o; apply lookup_app_l_Some).
  assert (Hfeats : ha !! lfeats = Some (OList [])).
  { unfold ha, lfeats. rewrite lookup_app_r by lia. now rewrite Nat.sub_diag. }
  destruct (for_each_enrich_spec vals h0 lfeats fs names Hwf ltac:(unfold lfeats; lia)
              ha [] [] Hold ltac:(unfold ha; rewrite length_app; lia)
              Hfeats ltac:(constructor))
    as (gs & hb & Eloop & Holdb & Hlenb & Hlb & Hall).
  simpl in Hlb, Hall.
  exists (VRef (length hb)), gs,
    (hb ++ [ODict [("type", VStr "FeatureCollection"); ("features", VRef lfeats)]]).
  split; [|split].
  - unfold build_feature_collection. fold vals.
    rewrite (bind_ok _ _ h0 (VRef lfeats) ha) by reflexivity.
    rewrite (bind_ok _ _ ha (VRef lfs) ha).
    2:{ unfold peek in Hpeek. unfold getitem_h. destruct geo; try discriminate.
        destruct (h0 !! l) as [[dgeo|]|] eqn:El; try discriminate.
        rewrite (Hold _ _ El). now rewrite Hpeek. }
    rewrite (bind_ok _ _ ha fs ha)
      by (unfold iter_h; now rewrite (Hold _ _ Hlfs)).
    rewrite (bind_ok _ _ ha tt hb) by exact Eloop.
    reflexivity.
  - unfold collection_features, peek.
    rewrite lookup_app_r by lia. rewrite Nat.sub_diag. simpl.
    now rewrite (lookup_app_l_Some _ _ _ _ Hlb).
  - eapply Forall2_impl; [exact Hall|]. intros g name Hg.
    apply (enriched_readback vals lfeats).
    eapply enriched_stable; [|exact Hg].
    intros l Hl _. now apply lookup_app_l.
Qed.

Lemma metric_values_absent df name :
  absent_from df name -> dict_get (metric_values df) name = None.
Proof.
  unfold metric_values, absent_from.
  assert (Hgen : forall acc,
    (forall r, In r df -> to_st_nm (mr_state r) <> name) ->
    dict_get (fold_left (fun vals r =>
                dict_set vals (to_st_nm (mr_state r))
                  (value_or_zero (mr_value r))) df acc) name
    = dict_get acc name).
  { induction df as [|r df IH]; simpl; intros acc Habs; [reflexivity|].
    rewrite IH by (intros r' Hr'; apply Habs; now right).
    apply dict_get_set_ne. apply Habs. now left. }
  intros Habs. now rewrite Hgen.
Qed.

(** C5. For every well-formed boundary geometry and every metric table,
    [build_feature_collection] returns a collection with exactly one
    feature per geometry feature, in the same order and with the same
    region name; a region absent from the metric table gets metric
    value 0. *)
Theorem one_output_feature_per_region
    (h0 : heap) (INDIA_GEOJSON : val) (fs : list val) (names : list string)
    (df_plot : list metric_row) :
  geometry h0 INDIA_GEOJSON fs names ->
  exists fc gs,
    let h' := snd (build_feature_collection INDIA_GEOJSON df_plot h0) in
    fst (build_feature_collection INDIA_GEOJSON df_plot h0) = Ok fc /\
    collection_features h' fc = Some gs /\
    length gs = length fs /\
    Forall2 (fun g name =>
      feature_prop h' g "ST_NM" = Some (VStr name) /\
      feature_prop h' g "metric_value"
        = Some (VFloat (dict_get_default (metric_values df_plot) name 0%Q)) /\
      (absent_from df_plot name ->
       feature_prop h' g "metric_value" = Some (VFloat 0%Q))) gs names.
Proof.
  intros Hgeo.
  destruct (build_feature_collection_spec h0 INDIA_GEOJSON fs names df_plot Hgeo)
    as (fc & gs & h' & E & Hfc & Hall).
  exists fc, gs. rewrite E. simpl. split; [reflexivity|]. split; [exact Hfc|].
  split.
  - destruct Hgeo as (lfs & _ & _ & Hwf).
    apply Forall2_length in Hall. apply Forall2_length in Hwf. congruence.
  - eapply Forall2_impl; [exact Hall|]. intros g name (H1 & H2 & _).
    split; [exact H1|]. split; [exact H2|].
    intros Habs. rewrite H2. unfold dict_get_default.
    now rewrite (metric_values_absent _ _ Habs).
Qed.

(** ** Heights *)

Lemma py_min_spec xs x :
  (py_min x xs <= x)%Q /\ (forall y, In y xs -> (py_min x xs <= y)%Q) /\
  (py_min x xs = x \/ In (py_min x xs) xs).
Proof.
  unfold py_min. revert x. induction xs as [|y xs IH]; intros x; simpl.
  - split; [apply Qle_refl|]. split; [intros _ []|now left].
  - destruct (Qlt_le_dec y x) as [Hlt|Hle].
    + destruct (IH y) as (H1 & H2 & H3). split; [|split].
      * eapply Qle_trans; [exact H1|]. now apply Qlt_le_weak.
      * intros z [<-|Hz]; [exact H1|now apply H2].
      * right. destruct H3 as [->|H3]; [now left|now right].
    + destruct (IH x) as (H1 & H2 & H3). split; [exact H1|]. split.
      * intros z [<-|Hz]; [|now apply H2]. eapply Qle_trans; eassumption.
      * destruct H3 as [->|H3]; [now left|right; now right].
Qed.

Lemma py_max_spec xs x :
  (x <= py_max x xs)%Q /\ (forall y, In y xs -> (y <= py_max x xs)%Q) /\
  (py_max x xs = x \/ In (py_max x xs) xs).
Proof.
  unfold py_max. revert x. induction xs as [|y xs IH]; intros x; simpl.
  - split; [apply Qle_refl|]. split; [intros _ []|now left].
  - destruct (Qlt_le_dec x y) as [Hlt|Hle].
    + destruct (IH y) as (H1 & H2 & H3). split; [|split].
      * eapply Qle_trans; [|exact H1]. now apply Qlt_le_weak.
      * intros z [<-|Hz]; [exact H1|now apply H2].
      * right. destruct H3 as [->|H3]; [now left|now right].
    + destruct (IH x) as (H1 & H2 & H3). split; [exact H1|]. split.
      * intros z [<-|Hz]; [|now apply H2]. eapply Qle_trans; eassumption.
      * destruct H3 as [->|H3]; [now left|right; now right].
Qed.

(** A value of the table lies between [vmin] and [vmax]. *)
Lemma value_between vals v :
  In v (dict_values vals) -> (vmin_of vals <= v <= vmax_of vals)%Q.
Proof.
  unfold vmin_of, vmax_of. destruct (dict_values vals) as [|x xs]; [intros []|].
  destruct (py_min_spec xs x) as (Hm1 & Hm2 & _).
  destruct (py_max_spec xs x) as (HM1 & HM2 & _).
  intros [<-|Hv]; split; auto.
Qed.

Lemma vmin_le_vmax vals : (vmin_of vals <= vmax_of vals)%Q.
Proof.
  unfold vmin_of, vmax_of. destruct (dict_values vals) as [|x xs]; [lra|].
  destruct (py_min_spec xs x) as (Hm1 & _).
  destruct (py_max_spec xs x) as (HM1 & _). lra.
Qed.

Lemma rng_of_cases vals :
  (0 < rng_of vals)%Q /\ (vmax_of vals - vmin_of vals <= rng_of vals)%Q.
Proof.
  unfold rng_of. pose proof (vmin_le_vmax vals) as Hle.
  destruct (Qeq_bool (vmax_of vals - vmin_of vals) 0) eqn:E.
  - apply Qeq_bool_iff in E. lra.
  - apply Qeq_bool_neq in E. lra.
Qed.

(** Within one result set the height does not decrease when the metric
    value grows; this holds for every value, in the table or not. *)
Lemma height_monotone vals v1 v2 :
  (v1 <= v2)%Q -> (height_of vals v1 <= height_of vals v2)%Q.
Proof.
  intros Hv. unfold height_of. destruct (rng_of_cases vals) as [Hpos _].
  assert (Hn : ((v1 - vmin_of vals) / rng_of vals
                <= (v2 - vmin_of vals) / rng_of vals)%Q).
  { unfold Qdiv. apply Qmult_le_compat_r; [lra|].
    apply Qlt_le_weak. now apply Qinv_lt_0_compat. }
  lra.
Qed.

(** A value between [vmin] and [vmax] gets a height between 200000 and
    900000. *)
Lemma height_in_range vals v :
  (vmin_of vals <= v <= vmax_of vals)%Q ->
  (200000 <= height_of vals v <= 200000 + 700000)%Q.
Proof.
  intros [Hlo Hhi]. unfold height_of.
  destruct (rng_of_cases vals) as [Hpos Hrng].
  assert (H0 : (0 <= (v - vmin_of vals) / rng_of vals)%Q).
  { apply Qle_shift_div_l; [exact Hpos|]. lra. }
  assert (H1 : ((v - vmin_of vals) / rng_of vals <= 1)%Q).
  { apply Qle_shift_div_r; [exact Hpos|]. lra. }
  lra.
Qed.

(** A region present in the metric table gets a height in range. *)
Lemma height_present_in_range vals name v :
  dict_get vals name = Some v ->
  (200000 <= height_of vals v <= 200000 + 700000)%Q.
Proof.
  intros Hv. apply height_in_range, value_between.
  eapply dict_get_values, Hv.
Qed.

(** When all values of the table are equal, a region present in the table
    gets the minimum height. *)
Lemma height_all_equal_present vals c name v :
  (forall x, In x (dict_values vals) -> (x == c)%Q) ->
  dict_get vals name = Some v ->
  (height_of vals v == 200000)%Q.
Proof.
  intros Hall Hv. apply dict_get_values in Hv.
  pose proof (Hall _ Hv) as Hvc.
  assert (Hmin : (vmin_of vals == c)%Q).
  { unfold vmin_of. destruct (dict_values vals) as [|x xs] eqn:E; [destruct Hv|].
    destruct (py_min_spec xs x) as (_ & _ & [->|Hin]).
    - apply Hall. now left.
    - apply Hall. now right. }
  unfold height_of. destruct (rng_of_cases vals) as [Hpos _].
  assert (Hz : ((v - vmin_of vals) / rng_of vals == 0)%Q).
  { assert (Hd : (v - vmin_of vals == 0)%Q) by lra.
    unfold Qdiv. rewrite Hd. apply Qmult_0_l. }
  rewrite Hz. lra.
Qed.

(** ** The sample geometry *)

Example sample_geojson_loaded :
  load_geojson (geojson_text sample_regions) [] = (Ok sample_geojson, sample_heap).
Proof. reflexivity. Qed.

Lemma NoDup_by_decide (l : list string) : bool_decide (NoDup l) = true -> NoDup l.
Proof. apply bool_decide_eq_true. Qed.

Lemma sample_geometry :
  geometry sample_heap sample_geojson [VRef 4; VRef 9; VRef 14] sample_regions.
Proof.
  exists 15%nat. split; [reflexivity|]. split; [reflexivity|].
  repeat constructor;
    (do 5 eexists; split; [reflexivity|]; split; [reflexivity|];
     split; [apply NoDup_by_decide; vm_compute; reflexivity|];
     split; [reflexivity|]; split; [reflexivity|];
     split; [apply NoDup_by_decide; vm_compute; reflexivity|];
     split; [reflexivity|]; vm_compute; reflexivity).
Qed.

Lemma one_output_feature_per_region_witness :
  exists fc gs,
    let df := [ {| mr_state := "Kerala"; mr_value := 7 |} ] in
    let h' := snd (build_feature_collection sample_geojson df sample_heap) in
    fst (build_feature_collection sample_geojson df sample_heap) = Ok fc /\
    collection_features h' fc = Some gs /\
    length gs = length [VRef 4; VRef 9; VRef 14] /\
    Forall2 (fun g name =>
      feature_prop h' g "ST_NM" = Some (VStr name) /\
      feature_prop h' g "metric_value"
        = Some (VFloat (dict_get_default (metric_values df) name 0%Q)) /\
      (absent_from df name ->
       feature_prop h' g "metric_value" = Some (VFloat 0%Q))) gs sample_regions.
Proof.
  apply (one_output_feature_per_region sample_heap sample_geojson
           [VRef 4; VRef 9; VRef 14] sample_regions
           [ {| mr_state := "Kerala"; mr_value := 7 |} ]).
  exact sample_geometry.
Defined.

(** Three regions, one of them in the metric table: three features, two
    of them with metric value 0. *)
Example three_regions_one_covered :
  feature_rows sample_geojson [ {| mr_state := "Kerala"; mr_value := 7 |} ]
    sample_heap
  = Some [ Some ("Kerala", 7, 200000);
           Some ("Goa", 0, -4700000);
           Some ("Sikkim", 0, -4700000) ]%Q.
Proof. vm_compute. reflexivity. Qed.

(** C1 (failing input). With the metric table [Kerala: 100, Goa: 200] and
    a geometry that also has Sikkim, the feature of Sikkim gets metric
    value 0 and height -500000, below the minimum height 200000. *)
Theorem absent_region_height_out_of_range :
  feature_rows sample_geojson
    [ {| mr_state := "Kerala"; mr_value := 100 |};
      {| mr_state := "Goa"; mr_value := 200 |} ]
    sample_heap
  = Some [ Some ("Kerala", 100, 200000);
           Some ("Goa", 200, 900000);
           Some ("Sikkim", 0, -500000) ]%Q
  /\ ~ (200000 <= -500000)%Q.
Proof. split; [vm_compute; reflexivity|]. lra. Qed.

(** C4 (failing input). With the single-row metric table [Kerala: 5], all
    values are equal, yet the features of Goa and Sikkim get the height
    200000 - 5 * 700000 = -3300000, not 200000. *)
Theorem all_equal_absent_region_height_not_minimum :
  feature_rows sample_geojson [ {| mr_state := "Kerala"; mr_value := 5 |} ]
    sample_heap
  = Some [ Some ("Kerala", 5, 200000);
           Some ("Goa", 0, -3300000);
           Some ("Sikkim", 0, -3300000) ]%Q
  /\ ~ (-3300000 == 200000)%Q.
Proof. split; [vm_compute; reflexivity|]. lra. Qed.

(** When every value of the table is positive, a region missing from the
    table (value 0) gets a height below 200000. *)
Lemma height_absent_below_minimum vals :
  (0 < vmin_of vals)%Q -> (height_of vals 0 < 200000)%Q.
Proof.
  intros Hmin. unfold height_of. destruct (rng_of_cases vals) as [Hpos _].
  assert (Hn : ((0 - vmin_of vals) / rng_of vals < 0)%Q).
  { apply Qlt_shift_div_r; [exact Hpos|]. lra. }
  lra.
Qed.

(* ===================================================================== *)
(** * Further properties                                                  *)
(* ===================================================================== *)

(** ** Name normalization: whitespace, inverse table *)

Lemma lstrip_blank s : blank s = true -> PyStr.lstrip s = "".
Proof.
  induction s as [|c s IH]; simpl; [reflexivity|].
  intros H. apply andb_prop in H as [-> Hs]. now apply IH.
Qed.

Lemma lstrip_app_blank pre x :
  blank pre = true -> PyStr.lstrip (pre ++ x)%string = PyStr.lstrip x.
Proof.
  induction pre as [|c pre IH]; simpl; [reflexivity|].
  intros H. apply andb_prop in H as [-> Hs]. now apply IH.
Qed.

Lemma lstrip_app s post :
  PyStr.lstrip (s ++ post)%string
  = if blank s then PyStr.lstrip post else (PyStr.lstrip s ++ post)%string.
Proof.
  induction s as [|c s IH]; simpl; [reflexivity|].
  destruct (PyStr.is_space c); simpl; [exact IH|reflexivity].
Qed.

Lemma rstrip_cons c s :
  PyStr.rstrip (String c s)
  = match PyStr.rstrip s with
    | EmptyString =>
        if PyStr.is_space c then EmptyString else String c EmptyString
    | r => String c r
    end.
Proof. reflexivity. Qed.

Lemma rstrip_blank s : blank s = true -> PyStr.rstrip s = "".
Proof.
  induction s as [|c s IH]; [reflexivity|]. simpl blank.
  intros H. apply andb_prop in H as [Hc Hs].
  rewrite rstrip_cons, (IH Hs), Hc. reflexivity.
Qed.

Lemma rstrip_app_blank x post :
  blank post = true -> PyStr.rstrip (x ++ post)%string = PyStr.rstrip x.
Proof.
  intros Hp. induction x as [|c x IH].
  - now apply rstrip_blank.
  - change (String c x ++ post)%string with (String c (x ++ post)%string).
    rewrite (rstrip_cons c (x ++ post)%string), (rstrip_cons c x), IH.
    reflexivity.
Qed.

Lemma strip_padded pre s post :
  blank pre = true -> blank post = true ->
  PyStr.strip (pre ++ s ++ post)%string = PyStr.strip s.
Proof.
  intros Hpre Hpost. unfold PyStr.strip.
  rewrite lstrip_app_blank by exact Hpre. rewrite lstrip_app.
  destruct (blank s) eqn:Hs.
  - now rewrite (lstrip_blank post), (lstrip_blank s).
  - now apply rstrip_app_blank.
Qed.

Lemma to_st_nm_trimmed s : PyStr.strip (to_st_nm s) = to_st_nm s.
Proof.
  unfold to_st_nm.
  destruct (dict_get_default_cases NAME_TO_ST_NM (PyStr.strip s) (PyStr.strip s))
    as [(v & Hv & ->)|[_ ->]]; [|apply strip_idem].
  now apply (settled_check NAME_TO_ST_NM eq_refl _ _ Hv).
Qed.

Lemma stnm_to_db_trimmed s : PyStr.strip (stnm_to_db s) = stnm_to_db s.
Proof.
  unfold stnm_to_db.
  destruct (dict_get_default_cases ST_NM_TO_NAME (PyStr.strip s) (PyStr.strip s))
    as [(v & Hv & ->)|[_ ->]]; [|apply strip_idem].
  now apply (settled_check ST_NM_TO_NAME eq_refl _ _ Hv).
Qed.

(** X1. Surrounding whitespace never matters to the name maps: a name
    padded with whitespace on either side maps to the same result as the
    bare name, and the result itself carries no surrounding whitespace. *)
Theorem name_maps_ignore_padding (pre s post : string) :
  blank pre = true -> blank post = true ->
  to_st_nm (pre ++ s ++ post)%string = to_st_nm s /\
  stnm_to_db (pre ++ s ++ post)%string = stnm_to_db s /\
  PyStr.strip (to_st_nm s) = to_st_nm s /\
  PyStr.strip (stnm_to_db s) = stnm_to_db s.
Proof.
  intros Hpre Hpost. unfold to_st_nm at 1 2, stnm_to_db at 1 2.
  rewrite (strip_padded pre s post Hpre Hpost).
  split; [reflexivity|]. split; [reflexivity|]. split.
  - apply to_st_nm_trimmed.
  - apply stnm_to_db_trimmed.
Qed.

Lemma name_maps_ignore_padding_witness :
  to_st_nm ("  " ++ "Orissa" ++ " ")%string = to_st_nm "Orissa" /\
  stnm_to_db ("  " ++ "Orissa" ++ " ")%string = stnm_to_db "Orissa" /\
  PyStr.strip (to_st_nm "Orissa") = to_st_nm "Orissa" /\
  PyStr.strip (stnm_to_db "Orissa") = stnm_to_db "Orissa".
Proof. apply (name_maps_ignore_padding "  " "Orissa" " "); reflexivity. Defined.

(** Every pair of the inverse table is undone by the forward map. *)
Lemma inverse_pairs_forwarded v k :
  dict_get ST_NM_TO_NAME v = Some k -> to_st_nm k = v.
Proof.
  intros H. apply dict_get_In in H.
  assert (Hall : forallb (fun vk => String.eqb (to_st_nm (snd vk)) (fst vk))
                   ST_NM_TO_NAME = true) by reflexivity.
  rewrite forallb_forall in Hall. specialize (Hall _ H).
  now apply String.eqb_eq in Hall.
Qed.

(** X2. The round trip in the other direction: for every boundary name
    [y] whose trimmed form is not a canonical key of the forward table,
    [to_st_nm (stnm_to_db y)] is the trimmed [y]. *)
Theorem boundary_round_trip (y : string) :
  dict_get NAME_TO_ST_NM (PyStr.strip y) = None ->
  to_st_nm (stnm_to_db y) = PyStr.strip y.
Proof.
  intros Hfree. unfold stnm_to_db.
  destruct (dict_get_default_cases ST_NM_TO_NAME (PyStr.strip y) (PyStr.strip y))
    as [(k & Hk & ->)|[_ ->]].
  - now apply inverse_pairs_forwarded.
  - unfold to_st_nm, dict_get_default. now rewrite strip_idem, Hfree.
Qed.

Lemma boundary_round_trip_witness :
  to_st_nm (stnm_to_db " Odisha ") = PyStr.strip " Odisha ".
Proof. apply (boundary_round_trip " Odisha "). reflexivity. Defined.

Lemma dict_get_of_In {V} (d : list (string * V)) k v :
  NoDup (dict_keys d) -> In (k, v) d -> dict_get d k = Some v.
Proof.
  unfold dict_keys. induction d as [|[k' v'] d IH]; simpl; [intros _ []|].
  intros Hnd Hin. apply NoDup_cons in Hnd as [Hk' Hnd].
  destruct (String.eqb_spec k k') as [->|Hne].
  - destruct Hin as [[= ->]|Hin]; [reflexivity|].
    exfalso. apply Hk'. apply list_elem_of_In.
    change k' with (fst (k', v)). now apply in_map.
  - destruct Hin as [[= -> ->]|Hin]; [congruence|]. now apply IH.
Qed.

Lemma invert_fold (d acc : list (string * string)) v k :
  NoDup (dict_values d) ->
  dict_get (fold_left (fun a kv => dict_set a (snd kv) (fst kv)) d acc) v
    = Some k <->
  In (k, v) d \/ (~ In v (dict_values d) /\ dict_get acc v = Some k).
Proof.
  unfold dict_values. revert acc.
  induction d as [|[k0 v0] d IH]; simpl; intros acc Hnd.
  - tauto.
  - apply NoDup_cons in Hnd as [Hv0 Hnd]. rewrite (IH _ Hnd). simpl.
    assert (Hv0' : ~ In v0 (map snd d)) by (now rewrite <- list_elem_of_In).
    destruct (String.eqb_spec v0 v) as [->|Hne].
    + rewrite dict_get_set_eq. split.
      * intros [Hin|[_ [= ->]]]; [|now left; left].
        exfalso. apply Hv0'. change v with (snd (k, v)). now apply in_map.
      * intros [[[= -> ]|Hin]|[Hn _]].
        -- right. split; [exact Hv0'|reflexivity].
        -- now left.
        -- exfalso. apply Hn. now left.
    + rewrite dict_get_set_ne by exact Hne. split.
      * intros [Hin|[Hn Hacc]]; [left; now right|].
        right. split; [|exact Hacc]. intros [?|?]; [congruence|contradiction].
      * intros [[[= -> ->]|Hin]|[Hn Hacc]]; [congruence|now left|].
        right. split; [|exact Hacc]. intros ?. apply Hn. now right.
Qed.

(** X3. The dict comprehension [{v: k for k, v in d.items()}] inverts a
    dict with pairwise distinct values exactly: it maps [v] to [k] if and
    only if [d] maps [k] to [v]. *)
Theorem invert_is_inverse (d : list (string * string)) (k v : string) :
  injective_dict d ->
  (dict_get (invert d) v = Some k <-> dict_get d k = Some v).
Proof.
  intros [Hkeys Hvals]. unfold invert. rewrite (invert_fold d [] v k Hvals).
  simpl. split.
  - intros [Hin|[_ [=]]]. now apply dict_get_of_In.
  - intros H. left. now apply dict_get_In.
Qed.

Lemma NAME_TO_ST_NM_injective : injective_dict NAME_TO_ST_NM.
Proof. split; apply NoDup_by_decide; vm_compute; reflexivity. Qed.

Lemma invert_is_inverse_witness :
  dict_get ST_NM_TO_NAME "Puducherry" = Some "Pondicherry" <->
  dict_get NAME_TO_ST_NM "Pondicherry" = Some "Puducherry".
Proof.
  apply (invert_is_inverse NAME_TO_ST_NM "Pondicherry" "Puducherry").
  exact NAME_TO_ST_NM_injective.
Defined.

(** ** Map click resolution: result, alias priority, payload shapes *)

Lemma stnm_to_db_nonempty s :
  PyStr.truthy (PyStr.strip s) = true -> PyStr.truthy (stnm_to_db s) = true.
Proof.
  intros Hs. unfold stnm_to_db.
  destruct (dict_get_default_cases ST_NM_TO_NAME (PyStr.strip s) (PyStr.strip s))
    as [(v & Hv & ->)|[_ ->]]; [|exact Hs].
  apply dict_get_In in Hv.
  assert (Hall : forallb (fun vk => PyStr.truthy (snd vk)) ST_NM_TO_NAME = true)
    by reflexivity.
  rewrite forallb_forall in Hall. apply (Hall _ Hv).
Qed.

(** The tail of the function, from the properties dict on. *)
Lemma get_selected_state_from_props event sel o rest obj props :
  selection_of event = Ok (PDict sel) ->
  objects_of sel = Ok (o :: rest) ->
  unwrap_object o = Ok obj ->
  properties_of obj = PDict props ->
  get_selected_state_from_event event
  = Ok (match name_of props with
        | PStr st_nm => resolve_name st_nm
        | _ => None
        end).
Proof.
  intros Hsel Hobjs Hun Hprops. unfold get_selected_state_from_event.
  rewrite Hsel. simpl. rewrite Hobjs. simpl. rewrite Hun. simpl.
  rewrite Hprops. unfold resolve_name.
  destruct (name_of props); try reflexivity.
  destruct (PyStr.truthy (PyStr.strip s)); reflexivity.
Qed.

(** X4. A name returned by [get_selected_state_from_event] is never the
    empty string and never carries surrounding whitespace, so the caller's
    [if clicked:] test passes for every returned name. *)
Theorem selected_state_nonempty_trimmed (event : py) (name : string) :
  get_selected_state_from_event event = Ok (Some name) ->
  PyStr.truthy name = true /\ PyStr.strip name = name.
Proof.
  unfold get_selected_state_from_event.
  destruct (selection_of event) as [sel|e]; simpl; [|discriminate].
  destruct sel; try discriminate.
  destruct (objects_of d) as [objs|e]; simpl; [|discriminate].
  destruct objs as [|o objs]; [discriminate|]. simpl.
  destruct (unwrap_object o) as [obj|e]; simpl; [|discriminate].
  destruct (properties_of obj); try discriminate.
  destruct (name_of d0); try discriminate.
  destruct (PyStr.truthy (PyStr.strip s)) eqn:Hs; [|discriminate].
  intros [= <-]. split.
  - apply stnm_to_db_nonempty. now rewrite strip_idem.
  - apply stnm_to_db_trimmed.
Qed.

Lemma selected_state_nonempty_trimmed_witness :
  PyStr.truthy "Orissa" = true /\ PyStr.strip "Orissa" = "Orissa".
Proof.
  apply (selected_state_nonempty_trimmed
           (PDict [("object",
                    PDict [("properties", PDict [("name", PStr " Odisha ")])])])
           "Orissa").
  reflexivity.
Defined.

(** X5. The name is read under the aliases in the order ["ST_NM"],
    ["state"], ["name"]: a non-empty string under ["ST_NM"] decides the
    result whatever the other two hold; ["state"] is used only when
    ["ST_NM"] is missing or falsy, and ["name"] only when both are.  A
    truthy value that is not a string under the deciding alias gives
    [None]; the later aliases are not tried. *)
Theorem alias_priority (event : py) (sel : list (string * py)) (o : py)
    (rest : list py) (obj : py) (props : list (string * py)) :
  selection_of event = Ok (PDict sel) ->
  objects_of sel = Ok (o :: rest) ->
  unwrap_object o = Ok obj ->
  properties_of obj = PDict props ->
  (forall s, dict_get props "ST_NM" = Some (PStr s) -> s <> "" ->
     get_selected_state_from_event event = Ok (resolve_name s)) /\
  (forall s, py_truthy (py_get props "ST_NM") = false ->
     dict_get props "state" = Some (PStr s) -> s <> "" ->
     get_selected_state_from_event event = Ok (resolve_name s)) /\
  (forall s, py_truthy (py_get props "ST_NM") = false ->
     py_truthy (py_get props "state") = false ->
     dict_get props "name" = Some (PStr s) ->
     get_selected_state_from_event event = Ok (resolve_name s)) /\
  (forall v, dict_get props "ST_NM" = Some v -> py_truthy v = true ->
     (forall s, v <> PStr s) ->
     get_selected_state_from_event event = Ok None).
Proof.
  intros Hsel Hobjs Hun Hprops.
  rewrite (get_selected_state_from_props _ _ _ _ _ _ Hsel Hobjs Hun Hprops).
  unfold name_of, py_get, dict_get_default, py_or.
  split; [|split; [|split]].
  - intros s -> Hs. destruct s; [congruence|reflexivity].
  - intros s. destruct (dict_get props "ST_NM") as [v|].
    + intros -> -> Hs. destruct s; [congruence|reflexivity].
    + intros _ -> Hs. destruct s; [congruence|reflexivity].
  - intros s H1 H2 ->.
    assert (E1 : (if py_truthy (match dict_get props "ST_NM" with
                                | Some v => v | None => PNone end)
                  then match dict_get props "ST_NM" with
                       | Some v => v | None => PNone end
                  else match dict_get props "state" with
                       | Some v => v | None => PNone end)
                 = match dict_get props "state" with
                   | Some v => v | None => PNone end) by (now rewrite H1).
    rewrite E1, H2. reflexivity.
  - intros v -> Hv Hns. rewrite Hv. simpl. rewrite Hv.
    destruct v; try reflexivity. now destruct (Hns s).
Qed.

Lemma alias_priority_witness :
  get_selected_state_from_event
    (PDict [("selection",
             PDict [("object",
                     PDict [("properties",
                             PDict [("name", PStr "Goa");
                                    ("ST_NM", PStr "Odisha")])])])])
  = Ok (resolve_name "Odisha").
Proof.
  pose proof (alias_priority
           (PDict [("selection",
                    PDict [("object",
                            PDict [("properties",
                                    PDict [("name", PStr "Goa");
                                           ("ST_NM", PStr "Odisha")])])])])
           [("object",
             PDict [("properties",
                     PDict [("name", PStr "Goa"); ("ST_NM", PStr "Odisha")])])]
           (PDict [("properties",
                    PDict [("name", PStr "Goa"); ("ST_NM", PStr "Odisha")])])
           []
           (PDict [("properties",
                    PDict [("name", PStr "Goa"); ("ST_NM", PStr "Odisha")])])
           [("name", PStr "Goa"); ("ST_NM", PStr "Odisha")]
           eq_refl eq_refl eq_refl eq_refl) as [H _].
  apply H; [reflexivity|discriminate].
Defined.

(** X6. The payload shapes the function accepts resolve alike: a list of
    objects (only its first element counts), a single ["object"], a dict
    of layers whose first non-empty list is taken, an event that is itself
    the selection, and an event object with a [selection] attribute. *)
Theorem payload_shapes_agree (obj : py) (rest : list py) (layer : string) :
  let base :=
    get_selected_state_from_event
      (PDict [("selection", PDict [("objects", PList [obj])])]) in
  get_selected_state_from_event
    (PDict [("selection", PDict [("objects", PList (obj :: rest))])]) = base /\
  get_selected_state_from_event
    (PDict [("selection", PDict [("object", obj)])]) = base /\
  get_selected_state_from_event
    (PDict [("selection",
             PDict [("objects", PDict [(layer, PList (obj :: rest))])])])
  = base /\
  get_selected_state_from_event
    (PDict [("selection",
             PDict [("objects",
                     PDict [("empty", PList []);
                            (layer, PList (obj :: rest))])])])
  = base /\
  get_selected_state_from_event (PDict [("objects", PList [obj])]) = base /\
  get_selected_state_from_event
    (PObj [("selection", PDict [("objects", PList [obj])])]) = base.
Proof. repeat split. Qed.

(** ** DISTINCT and ORDER BY *)

Section OrderingFacts.
Context {A : Type} (eqb leb : A -> A -> bool).
Hypothesis eqb_eq : forall x y, eqb x y = true <-> x = y.
Hypothesis leb_total : forall x y, leb x y = true \/ leb y x = true.
Hypothesis leb_trans :
  forall x y z, leb x y = true -> leb y z = true -> leb x z = true.

Lemma existsb_eqb_In x l : existsb (eqb x) l = true <-> In x l.
Proof.
  rewrite existsb_exists. split.
  - intros (y & Hy & E). apply eqb_eq in E. now subst.
  - intros H. exists x. split; [exact H|]. now apply eqb_eq.
Qed.

Lemma distinct_by_In x l : In x (distinct_by eqb l) <-> In x l.
Proof.
  induction l as [|a l IH]; simpl; [tauto|].
  destruct (existsb (eqb a) l) eqn:E.
  - rewrite IH. apply existsb_eqb_In in E. split; [tauto|].
    intros [<-|H]; assumption.
  - simpl. rewrite IH. tauto.
Qed.

Lemma distinct_by_NoDup l : List.NoDup (distinct_by eqb l).
Proof.
  induction l as [|a l IH]; simpl; [constructor|].
  destruct (existsb (eqb a) l) eqn:E; [exact IH|].
  constructor; [|exact IH]. rewrite distinct_by_In.
  intros H. apply existsb_eqb_In in H. congruence.
Qed.

Lemma insert_by_In x a l : In x (insert_by leb a l) <-> x = a \/ In x l.
Proof.
  induction l as [|y l IH]; simpl; [intuition|].
  destruct (leb a y); simpl; [intuition|]. rewrite IH. intuition.
Qed.

Lemma sort_by_In x l : In x (sort_by leb l) <-> In x l.
Proof.
  induction l as [|a l IH]; simpl; [tauto|].
  rewrite insert_by_In, IH. intuition.
Qed.

Lemma insert_by_NoDup a l :
  List.NoDup l -> ~ In a l -> List.NoDup (insert_by leb a l).
Proof.
  induction l as [|y l IH]; simpl; intros Hnd Ha.
  - constructor; [exact Ha|constructor].
  - destruct (leb a y).
    + constructor; assumption.
    + inversion Hnd as [|? ? Hy Hl]; subst. constructor.
      * rewrite insert_by_In. intros [->|H]; [|contradiction].
        apply Ha. now left.
      * apply IH; [exact Hl|]. intros H. apply Ha. now right.
Qed.

Lemma sort_by_NoDup l : List.NoDup l -> List.NoDup (sort_by leb l).
Proof.
  induction 1 as [|a l Ha _ IH]; simpl; [constructor|].
  apply insert_by_NoDup; [exact IH|]. now rewrite sort_by_In.
Qed.

Lemma insert_by_sorted a l :
  StronglySorted (fun x y => leb x y = true) l ->
  StronglySorted (fun x y => leb x y = true) (insert_by leb a l).
Proof.
  induction 1 as [|y l Hl IH Hy]; simpl.
  - constructor; constructor.
  - destruct (leb a y) eqn:E.
    + constructor; [now constructor|].
      constructor; [exact E|].
      eapply List.Forall_impl; [|exact Hy]. intros z. now apply leb_trans.
    + constructor; [exact IH|].
      apply List.Forall_forall. intros z Hz. apply insert_by_In in Hz.
      destruct Hz as [->|Hz].
      * destruct (leb_total a y); [congruence|assumption].
      * rewrite List.Forall_forall in Hy. now apply Hy.
Qed.

Lemma sort_by_sorted l :
  StronglySorted (fun x y => leb x y = true) (sort_by leb l).
Proof.
  induction l as [|a l IH]; simpl; [constructor|].
  now apply insert_by_sorted.
Qed.

Lemma sort_by_nil l : sort_by leb l = [] <-> l = [].
Proof.
  split; [|intros ->; reflexivity].
  destruct l as [|a l]; [reflexivity|]. intros E.
  assert (H : In a (sort_by leb (a :: l))) by (apply sort_by_In; now left).
  rewrite E in H. destruct H.
Qed.

Lemma distinct_by_nil l : distinct_by eqb l = [] <-> l = [].
Proof.
  split; [|intros ->; reflexivity].
  destruct l as [|a l]; [reflexivity|]. intros E.
  assert (H : In a (distinct_by eqb (a :: l))) by (apply distinct_by_In; now left).
  rewrite E in H. destruct H.
Qed.
End OrderingFacts.

Lemma string_leb_iff a b :
  String.leb a b = true <-> a = b \/ OrderedTypeEx.String_as_OT.lt a b.
Proof.
  destruct (string_dec a b) as [->|Hne].
  - split; [now left|]. intros _. now destruct (String.leb_total b b).
  - pose proof (String.compare_eq_iff a b) as Heq.
    pose proof (OrderedTypeEx.String_as_OT.cmp_lt a b) as Hlt.
    unfold OrderedTypeEx.String_as_OT.cmp in Hlt. unfold String.leb.
    destruct (String.compare a b); split; intros H; try discriminate.
    + left. now apply Heq.
    + reflexivity.
    + right. now apply Hlt.
    + reflexivity.
    + destruct H as [H|H]; [contradiction|]. apply (proj2 Hlt) in H.
      discriminate.
Qed.

Lemma string_leb_trans a b c :
  String.leb a b = true -> String.leb b c = true -> String.leb a c = true.
Proof.
  rewrite !string_leb_iff. intros [->|Hab] [->|Hbc]; auto.
  right. eapply OrderedTypeEx.String_as_OT.lt_trans; eassumption.
Qed.

Lemma Z_leb_total x y : (x <=? y)%Z = true \/ (y <=? x)%Z = true.
Proof. rewrite !Z.leb_le. lia. Qed.

Lemma Z_leb_trans x y z :
  (x <=? y)%Z = true -> (y <=? z)%Z = true -> (x <=? z)%Z = true.
Proof. rewrite !Z.leb_le. lia. Qed.

(** ** KPI aggregates: values and composition *)

Lemma sql_sum_Z_total xs : default 0%Z (sql_sum Z.add xs) = total_Z xs.
Proof.
  induction xs as [|[x|] xs IH]; simpl; [reflexivity| |exact IH].
  rewrite <- IH. destruct (sql_sum Z.add xs); simpl; lia.
Qed.

Lemma sql_sum_Q_total xs : (default 0 (sql_sum Qplus xs) == total_Q xs)%Q.
Proof.
  induction xs as [|[x|] xs IH]; simpl; [reflexivity| |].
  - rewrite <- IH. destruct (sql_sum Qplus xs); simpl; lra.
  - rewrite <- IH. lra.
Qed.

Lemma kpi_count_value xs :
  py_int (py_or (cell_of_Z (sql_sum Z.add xs)) (PInt 0)) = Ok (total_Z xs).
Proof.
  rewrite <- sql_sum_Z_total. destruct (sql_sum Z.add xs) as [z|]; simpl;
    [|reflexivity].
  unfold py_or. simpl. destruct (Z.eqb_spec z 0) as [->|_]; reflexivity.
Qed.

Lemma kpi_amount_value xs :
  exists a, py_float (py_or (cell_of_Q (sql_sum Qplus xs)) (PInt 0)) = Ok a /\
            (a == total_Q xs)%Q.
Proof.
  pose proof (sql_sum_Q_total xs) as H.
  destruct (sql_sum Qplus xs) as [s|]; simpl in *.
  - unfold py_or. simpl. destruct (Qeq_bool s 0) eqn:E; simpl.
    + exists (inject_Z 0). split; [reflexivity|].
      apply Qeq_bool_iff in E. rewrite <- H, E. reflexivity.
    + exists s. split; [reflexivity|exact H].
  - exists (inject_Z 0). split; [reflexivity|]. rewrite <- H. reflexivity.
Qed.

(** What [state_txn_kpis] and [india_txn_kpis] return in terms of the
    totals of the matching rows. *)
Lemma state_txn_kpis_value (db : database) (state : string) (y q : Z) :
  let txn_state r := String.eqb (at_state r) state && txn_in_period y q r in
  exists a,
    state_txn_kpis db state y q
    = Ok (a, total_Z (map at_transaction_count
                        (List.filter txn_state (aggregated_transaction db)))) /\
    (a == total_Q (map at_transaction_amount
                     (List.filter txn_state (aggregated_transaction db))))%Q.
Proof.
  intros txn_state. unfold state_txn_kpis, txn_totals. cbn [fst snd].
  destruct (kpi_amount_value (map at_transaction_amount
             (List.filter txn_state (aggregated_transaction db))))
    as (a & Ea & Ha).
  exists a. fold txn_state. rewrite Ea, kpi_count_value.
  split; [reflexivity|exact Ha].
Qed.

Lemma sql_sum_all_null {A} (f : A -> A -> A) (xs : list (option A)) :
  Forall (fun x => x = None) xs -> sql_sum f xs = None.
Proof.
  induction 1 as [|x xs -> _ IH]; simpl; [reflexivity|exact IH].
Qed.

Lemma Forall_map_filter {A B} (P : B -> Prop) (g : A -> B) (p : A -> bool) l :
  (forall r, In r l -> p r = true -> P (g r)) ->
  Forall P (map g (List.filter p l)).
Proof.
  intros H. apply List.Forall_forall. intros x Hx.
  apply in_map_iff in Hx as (r & <- & Hr). apply filter_In in Hr as [Hr Hp].
  now apply H.
Qed.

(** X7. Rows whose measures are NULL count as nothing.  When every row of
    the period (for the state operations: of the state in the period) has
    NULL in both summed columns, each of the four KPI operations returns
    the pair of zeros, as for a period without rows: the NULL that [SUM]
    gives is replaced by 0 and nothing is raised. *)
Theorem kpis_zero_when_measures_null
    (db : database) (state : string) (y q : Z) :
  ((forall r, In r (aggregated_transaction db) -> txn_in_period y q r = true ->
      at_transaction_amount r = None /\ at_transaction_count r = None) ->
   india_txn_kpis db y q = Ok (inject_Z 0, 0%Z)) /\
  ((forall r, In r (map_user db) -> user_in_period y q r = true ->
      mu_registered_users r = None /\ mu_app_opens r = None) ->
   india_user_kpis db y q = Ok (0%Z, 0%Z)) /\
  ((forall r, In r (aggregated_transaction db) -> txn_in_period y q r = true ->
      at_state r = state ->
      at_transaction_amount r = None /\ at_transaction_count r = None) ->
   state_txn_kpis db state y q = Ok (inject_Z 0, 0%Z)) /\
  ((forall r, In r (map_user db) -> user_in_period y q r = true ->
      mu_state r = state ->
      mu_registered_users r = None /\ mu_app_opens r = None) ->
   state_user_kpis db state y q = Ok (0%Z, 0%Z)).
Proof.
  unfold india_txn_kpis, india_user_kpis, state_txn_kpis, state_user_kpis,
    txn_totals, user_totals. cbn [fst snd].
  split; [|split; [|split]]; intros Hnull.
  - rewrite !sql_sum_all_null; [reflexivity| |];
      apply Forall_map_filter; intros r Hr Hp; now apply Hnull.
  - rewrite !sql_sum_all_null; [reflexivity| |];
      apply Forall_map_filter; intros r Hr Hp; now apply Hnull.
  - rewrite !sql_sum_all_null; [reflexivity| |];
      apply Forall_map_filter; intros r Hr Hp;
      apply andb_prop in Hp as [Hs Hp]; apply String.eqb_eq in Hs;
      now apply Hnull.
  - rewrite !sql_sum_all_null; [reflexivity| |];
      apply Forall_map_filter; intros r Hr Hp;
      apply andb_prop in Hp as [Hs Hp]; apply String.eqb_eq in Hs;
      now apply Hnull.
Qed.

Lemma kpis_zero_when_measures_null_witness :
  india_txn_kpis null_measures_db 2022 3 = Ok (inject_Z 0, 0%Z) /\
  india_user_kpis null_measures_db 2022 3 = Ok (0%Z, 0%Z) /\
  state_txn_kpis null_measures_db "Goa" 2022 3 = Ok (inject_Z 0, 0%Z) /\
  state_user_kpis null_measures_db "Goa" 2022 3 = Ok (0%Z, 0%Z).
Proof.
  pose proof (kpis_zero_when_measures_null null_measures_db "Goa" 2022 3)
    as (H1 & H2 & H3 & H4).
  split; [|split; [|split]].
  - apply H1. intros r [<-|[<-|[]]]; simpl; intros E;
      [split; reflexivity|discriminate E].
  - apply H2. intros r [<-|[]] _. split; reflexivity.
  - apply H3. intros r [<-|[<-|[]]]; simpl; intros E;
      [split; reflexivity|discriminate E].
  - apply H4. intros r [<-|[]] _ _. split; reflexivity.
Defined.

(** ** The region list of the Home page *)

Lemma home_states_In db y q s :
  In s (home_states db y q) <->
  exists r, In r (aggregated_transaction db) /\ txn_in_period y q r = true /\
            at_state r = s.
Proof.
  unfold home_states, txn_rows.
  rewrite (sort_by_In String.leb), (distinct_by_In _ String.eqb_eq), in_map_iff.
  split.
  - intros (r & <- & Hr). apply filter_In in Hr as [Hr Hp]. eauto.
  - intros (r & Hr & Hp & <-). exists r. split; [reflexivity|].
    apply filter_In. auto.
Qed.

Lemma home_states_NoDup db y q : List.NoDup (home_states db y q).
Proof.
  unfold home_states. apply sort_by_NoDup.
  apply (distinct_by_NoDup _ String.eqb_eq).
Qed.

(** X8. The region list of the Home page holds exactly the states that
    have a row in the period, each once, in ascending lexical order; so it
    is empty exactly when the period has no row. *)
Theorem home_states_sorted_distinct (db : database) (y q : Z) :
  lexically_sorted (home_states db y q) /\
  List.NoDup (home_states db y q) /\
  (forall s, In s (home_states db y q) <->
     exists r, In r (aggregated_transaction db) /\
               txn_in_period y q r = true /\ at_state r = s) /\
  (home_states db y q = [] <-> txn_rows db y q = []).
Proof.
  split; [|split; [|split]].
  - apply (sort_by_sorted String.leb String.leb_total string_leb_trans).
  - apply home_states_NoDup.
  - apply home_states_In.
  - unfold home_states.
    rewrite (sort_by_nil String.leb), (distinct_by_nil _ String.eqb_eq).
    split; [apply map_eq_nil|intros ->; reflexivity].
Qed.

(** ** The metric table of the Home map *)

Lemma filter_filter_andb {A} (f g : A -> bool) l :
  List.filter f (List.filter g l) = List.filter (fun x => f x && g x) l.
Proof.
  induction l as [|a l IH]; simpl; [reflexivity|].
  destruct (g a); simpl; rewrite ?andb_true_r, ?andb_false_r;
    [destruct (f a)|]; now rewrite IH.
Qed.

Lemma df_state_txn_amount_states db y q :
  map mr_state (df_state_txn_amount db y q)
  = distinct_by String.eqb (map at_state (txn_rows db y q)).
Proof.
  unfold df_state_txn_amount. rewrite map_map. simpl. apply map_id.
Qed.

Lemma df_state_txn_amount_In_states db y q s :
  In s (map mr_state (df_state_txn_amount db y q)) <-> In s (home_states db y q).
Proof.
  rewrite df_state_txn_amount_states. unfold home_states.
  now rewrite (sort_by_In String.leb).
Qed.

Lemma df_state_txn_amount_nil db y q :
  df_state_txn_amount db y q = [] <-> txn_rows db y q = [].
Proof.
  unfold df_state_txn_amount. split.
  - intros E. apply map_eq_nil in E.
    apply (proj1 (distinct_by_nil _ String.eqb_eq _)) in E.
    now apply map_eq_nil in E.
  - intros ->. reflexivity.
Qed.

(** X10. The metric table of the Transactions map has exactly one row
    per state of the region list, and the value of a row equals the
    amount that [state_txn_kpis] reports for that state; the table is
    empty exactly when the period has no row. *)
Theorem metric_table_matches_state_kpis (db : database) (y q : Z) :
  let df := df_state_txn_amount db y q in
  List.NoDup (map mr_state df) /\
  (forall s, In s (map mr_state df) <-> In s (home_states db y q)) /\
  (forall r, In r df ->
     exists a c, state_txn_kpis db (mr_state r) y q = Ok (a, c) /\
                 (a == mr_value r)%Q) /\
  (df = [] <-> txn_rows db y q = []).
Proof.
  intros df. split; [|split; [|split]].
  - unfold df. rewrite df_state_txn_amount_states.
    apply (distinct_by_NoDup _ String.eqb_eq).
  - intros s. apply df_state_txn_amount_In_states.
  - intros r Hr. unfold df, df_state_txn_amount in Hr.
    apply in_map_iff in Hr as (s & <- & _). simpl.
    destruct (state_txn_kpis_value db s y q) as (a & Ea & Ha).
    eexists a, _. split; [exact Ea|]. rewrite Ha.
    unfold txn_rows. rewrite filter_filter_andb.
    symmetry. apply sql_sum_Q_total.
  - unfold df, df_state_txn_amount. split.
    + intros E. apply map_eq_nil in E.
      apply (proj1 (distinct_by_nil _ String.eqb_eq _)) in E.
      now apply map_eq_nil in E.
    + intros ->. reflexivity.
Qed.

(** X11. In the Transactions view, when the stored click is not a state
    of the region list and the period has rows, the state select box
    starts on a state with the highest total amount. *)
Theorem home_default_is_highest_amount
    (db : database) (y q : Z) (preferred : option string) :
  (forall p, preferred = Some p -> ~ In p (home_states db y q)) ->
  txn_rows db y q <> [] ->
  exists idx d,
    home_state_index preferred (df_state_txn_amount db y q) (home_states db y q)
    = Ok idx /\
    nth_error (home_states db y q) idx = Some d /\
    highest_metric (df_state_txn_amount db y q) d.
Proof.
  intros Hpref Hrows.
  set (df := df_state_txn_amount db y q). set (states := home_states db y q).
  destruct (default_state df) as [d|] eqn:Ed.
  2:{ apply (proj1 (default_state_None _)) in Ed.
      now apply (proj1 (df_state_txn_amount_nil db y q)) in Ed. }
  pose proof (default_state_highest _ _ Ed) as Hhigh.
  assert (Hin : In d states).
  { apply df_state_txn_amount_In_states.
    destruct Hhigh as (r & Hr & <- & _). now apply in_map. }
  assert (Hsorted : lexically_sorted states)
    by apply (sort_by_sorted String.leb String.leb_total string_leb_trans).
  assert (Hfb : exists idx,
    (if PyStr.truthy d && list_mem d states then index_of states d
     else Ok 0%nat) = Ok idx /\ nth_error states idx = Some d).
  { rewrite (proj2 (list_mem_In d states) Hin), andb_true_r.
    destruct d as [|c d']; simpl.
    - exists 0%nat. split; [reflexivity|]. now apply sorted_empty_first.
    - apply index_of_found in Hin. exact Hin. }
  destruct Hfb as (idx & Hidx & Hnth).
  exists idx, d. split; [|split; [exact Hnth|exact Hhigh]].
  unfold home_state_index. fold df states. rewrite Ed.
  destruct preferred as [p|]; [|exact Hidx].
  destruct (list_mem p states) eqn:Ep; [|exact Hidx].
  apply list_mem_In in Ep. now destruct (Hpref p eq_refl).
Qed.

Lemma home_default_is_highest_amount_witness :
  exists idx d,
    home_state_index (Some "Sikkim") (df_state_txn_amount sample_db 2021 1)
      (home_states sample_db 2021 1) = Ok idx /\
    nth_error (home_states sample_db 2021 1) idx = Some d /\
    highest_metric (df_state_txn_amount sample_db 2021 1) d.
Proof.
  apply (home_default_is_highest_amount sample_db 2021 1 (Some "Sikkim")).
  - intros p [= <-] [H|[]]. discriminate H.
  - discriminate.
Defined.

(** ** Years and quarters *)

Lemma pair_eqb_eq (a b : Z * Z) : pair_eqb a b = true <-> a = b.
Proof.
  unfold pair_eqb. destruct a as [a1 a2], b as [b1 b2]. simpl.
  rewrite andb_true_iff, !Z.eqb_eq. split; [intros [-> ->]|intros [= -> ->]]; auto.
Qed.

Lemma sorted_last_max (l : list Z) :
  StronglySorted (fun x y => (x <=? y)%Z = true) l -> l <> [] ->
  exists m, last l = Some m /\ In m l /\ forall x, In x l -> (x <= m)%Z.
Proof.
  induction 1 as [|a l Hl IH Ha]; [congruence|]. intros _.
  destruct l as [|b l].
  - exists a. split; [reflexivity|]. split; [now left|].
    intros x [->|[]]. lia.
  - destruct (IH ltac:(discriminate)) as (m & Hm & Hin & Hmax).
    exists m. split; [exact Hm|]. split; [now right|].
    intros x [->|Hx]; [|now apply Hmax].
    rewrite List.Forall_forall in Ha. apply Z.leb_le. now apply Ha.
Qed.

Lemma index_Z_cons a l m :
  index_Z (a :: l) m
  = if (m =? a)%Z then Ok 0%nat else n ← index_Z l m; Ok (S n).
Proof. reflexivity. Qed.

Lemma index_Z_last (l : list Z) m :
  List.NoDup l -> last l = Some m ->
  index_Z l m = Ok (length l - 1)%nat /\
  nth_error l (length l - 1) = Some m.
Proof.
  induction 1 as [|a l Ha Hnd IH]; [discriminate|].
  destruct l as [|b l].
  - intros [= ->]. simpl. now rewrite Z.eqb_refl.
  - intros Hm. change (last (a :: b :: l)) with (last (b :: l)) in Hm.
    destruct (IH Hm) as [Hi Hn].
    assert (Hin : In m (b :: l)) by (now apply nth_error_In in Hn).
    assert (Hne : m <> a) by (intros ->; contradiction).
    assert (Hlen : (length (a :: b :: l) - 1 = S (length (b :: l) - 1))%nat)
      by (simpl; lia).
    rewrite Hlen, index_Z_cons.
    destruct (Z.eqb_spec m a); [contradiction|].
    rewrite Hi. split; [reflexivity|exact Hn].
Qed.

Lemma sorted_unique_facts col :
  let l := sorted_unique col in
  StronglySorted (fun x y => (x <=? y)%Z = true) l /\ List.NoDup l /\
  (forall x, In x l <-> In x col) /\ (l = [] <-> col = []).
Proof.
  unfold sorted_unique. split; [|split; [|split]].
  - apply (sort_by_sorted Z.leb Z_leb_total Z_leb_trans).
  - apply sort_by_NoDup, (distinct_by_NoDup _ Z.eqb_eq).
  - intros x. now rewrite (sort_by_In Z.leb), (distinct_by_In _ Z.eqb_eq).
  - now rewrite (sort_by_nil Z.leb), (distinct_by_nil _ Z.eqb_eq).
Qed.

Lemma periods_In db y q :
  In (y, q) (periods db) <->
  exists r, In r (aggregated_transaction db) /\ at_year r = y /\ at_quarter r = q.
Proof.
  unfold periods.
  rewrite (sort_by_In pair_leb), (distinct_by_In _ pair_eqb_eq), in_map_iff.
  split.
  - intros (r & [= <- <-] & Hr). eauto.
  - intros (r & Hr & <- & <-). eauto.
Qed.

Lemma periods_nil db : periods db = [] <-> aggregated_transaction db = [].
Proof.
  unfold periods.
  rewrite (sort_by_nil pair_leb), (distinct_by_nil _ pair_eqb_eq).
  split; [apply map_eq_nil|intros ->; reflexivity].
Qed.

(** X12. [years_quarters] always returns a non-empty year list in
    strictly ascending order without duplicates: [2021] with quarters
    1..4 when the table is empty, otherwise exactly the years and the
    quarters that occur in the table.  Hence [years[-1]] never raises, it
    is the latest year, and [years.index(years[-1])] is the last
    position. *)
Theorem years_quarters_default (db : database) :
  let years := fst (years_quarters db) in
  let quarters := snd (years_quarters db) in
  StronglySorted (fun x y => (x <=? y)%Z = true) years /\ List.NoDup years /\
  StronglySorted (fun x y => (x <=? y)%Z = true) quarters /\
  List.NoDup quarters /\
  (aggregated_transaction db = [] ->
   years = [2021%Z] /\ quarters = [1%Z; 2%Z; 3%Z; 4%Z]) /\
  (aggregated_transaction db <> [] ->
   (forall y, In y years <->
      exists r, In r (aggregated_transaction db) /\ at_year r = y) /\
   (forall q, In q quarters <->
      exists r, In r (aggregated_transaction db) /\ at_quarter r = q)) /\
  exists default_y,
    default_year_index db = Ok (default_y, (length years - 1)%nat) /\
    In default_y years /\
    forall y, In y years -> (y <= default_y)%Z.
Proof.
  intros years quarters.
  assert (Hcases :
    (aggregated_transaction db = [] /\
     years = [2021%Z] /\ quarters = [1%Z; 2%Z; 3%Z; 4%Z]) \/
    (aggregated_transaction db <> [] /\
     years = sorted_unique (map fst (periods db)) /\
     quarters = sorted_unique (map snd (periods db)))).
  { unfold years, quarters, years_quarters.
    destruct (periods db) as [|p ps] eqn:E.
    - left. apply periods_nil in E. auto.
    - right. split; [|auto]. intros Hn. apply periods_nil in Hn. congruence. }
  assert (Hsorted : StronglySorted (fun x y => (x <=? y)%Z = true) years /\
                    List.NoDup years /\ years <> []).
  { destruct Hcases as [(_ & -> & _)|(Hne & -> & _)].
    - split; [repeat constructor|]. split; [|discriminate].
      repeat constructor; simpl; tauto.
    - destruct (sorted_unique_facts (map fst (periods db))) as (H1 & H2 & _ & H4).
      split; [exact H1|]. split; [exact H2|]. intros E. apply H4 in E.
      apply map_eq_nil in E. apply periods_nil in E. contradiction. }
  destruct Hsorted as (Hys & Hynd & Hyne).
  split; [exact Hys|]. split; [exact Hynd|].
  split; [|split; [|split; [|split]]].
  - destruct Hcases as [(_ & _ & ->)|(_ & _ & ->)];
      [repeat constructor|apply sorted_unique_facts].
  - destruct Hcases as [(_ & _ & ->)|(_ & _ & ->)];
      [|apply sorted_unique_facts].
    repeat constructor; simpl; intuition discriminate.
  - intros Hnil. destruct Hcases as [(_ & H1 & H2)|(Hne & _)]; [auto|contradiction].
  - intros Hne. destruct Hcases as [(Hnil & _)|(_ & -> & ->)]; [contradiction|].
    split.
    + intros y. destruct (sorted_unique_facts (map fst (periods db)))
        as (_ & _ & -> & _).
      rewrite in_map_iff. split.
      * intros ([y' q] & <- & Hp). apply periods_In in Hp as (r & Hr & <- & _).
        eauto.
      * intros (r & Hr & <-). exists (at_year r, at_quarter r).
        split; [reflexivity|]. apply periods_In. eauto.
    + intros q. destruct (sorted_unique_facts (map snd (periods db)))
        as (_ & _ & -> & _).
      rewrite in_map_iff. split.
      * intros ([y q'] & <- & Hp). apply periods_In in Hp as (r & Hr & _ & <-).
        eauto.
      * intros (r & Hr & <-). exists (at_year r, at_quarter r).
        split; [reflexivity|]. apply periods_In. eauto.
  - destruct (sorted_last_max years Hys Hyne) as (m & Hm & Hin & Hmax).
    destruct (index_Z_last years m Hynd Hm) as [Hi _].
    exists m. split; [|split; [exact Hin|exact Hmax]].
    unfold default_year_index, list_last. fold years. rewrite Hm. cbn.
    rewrite Hi. reflexivity.
Qed.

(** X13. [quarters_for_year] never returns an empty list: it is 1..4 for
    a year without rows and otherwise exactly the quarters that occur in
    that year, ascending and without duplicates; so the default position
    [len(...) - 1] of the quarter select box is valid and holds the latest
    quarter. *)
Theorem quarters_for_year_default (db : database) (y : Z) :
  let qs := quarters_for_year db y in
  let rows := List.filter (fun r => (at_year r =? y)%Z)
                (aggregated_transaction db) in
  StronglySorted (fun a b => (a <=? b)%Z = true) qs /\ List.NoDup qs /\
  (rows = [] -> qs = [1%Z; 2%Z; 3%Z; 4%Z]) /\
  (rows <> [] ->
   forall q, In q qs <->
     exists r, In r (aggregated_transaction db) /\ at_year r = y /\
               at_quarter r = q) /\
  exists latest,
    nth_error qs (length qs - 1) = Some latest /\
    forall q, In q qs -> (q <= latest)%Z.
Proof.
  intros qs rows.
  pose proof (sorted_unique_facts (map at_quarter rows)) as Hfacts0.
  unfold sorted_unique in Hfacts0. cbv zeta in Hfacts0.
  assert (Hcases :
    (rows = [] /\ qs = [1%Z; 2%Z; 3%Z; 4%Z]) \/
    (rows <> [] /\
     qs = sort_by Z.leb (distinct_by Z.eqb (map at_quarter rows)))).
  { unfold qs, quarters_for_year. fold rows.
    destruct (sort_by Z.leb (distinct_by Z.eqb (map at_quarter rows)))
      as [|a l] eqn:E.
    - left. split; [|reflexivity].
      apply (proj1 (sort_by_nil Z.leb _)) in E.
      apply (proj1 (distinct_by_nil _ Z.eqb_eq _)) in E.
      now apply map_eq_nil in E.
    - right. split; [|reflexivity]. intros Hn. rewrite Hn in E. discriminate. }
  destruct Hfacts0 as (H1 & H2 & H3 & H4).
  assert (Hfacts : StronglySorted (fun a b => (a <=? b)%Z = true) qs /\
                   List.NoDup qs /\ qs <> []).
  { destruct Hcases as [(_ & ->)|(Hne & ->)].
    - split; [repeat constructor|]. split; [|discriminate].
      repeat constructor; simpl; intuition discriminate.
    - split; [exact H1|]. split; [exact H2|]. intros E. apply H4 in E.
      now apply map_eq_nil in E. }
  destruct Hfacts as (Hs & Hnd & Hne).
  split; [exact Hs|]. split; [exact Hnd|]. split; [|split].
  - intros Hnil. destruct Hcases as [(_ & E)|(Hn & _)]; [exact E|contradiction].
  - intros Hrows. destruct Hcases as [(Hn & _)|(_ & ->)]; [contradiction|].
    intros q. rewrite H3, in_map_iff. split.
    + intros (r & <- & Hr). apply filter_In in Hr as [Hr Hy].
      apply Z.eqb_eq in Hy. eauto.
    + intros (r & Hr & Hy & <-). exists r. split; [reflexivity|].
      apply filter_In. split; [exact Hr|]. now apply Z.eqb_eq.
  - destruct (sorted_last_max qs Hs Hne) as (m & Hm & _ & Hmax).
    destruct (index_Z_last qs m Hnd Hm) as [_ Hn].
    exists m. split; [exact Hn|exact Hmax].
Qed.

(** ** Choropleth rows *)

Lemma rstrip_empty_blank s : PyStr.rstrip s = "" -> blank s = true.
Proof.
  induction s as [|c s IH]; [reflexivity|]. rewrite rstrip_cons.
  destruct (PyStr.rstrip s) eqn:E; [|discriminate].
  destruct (PyStr.is_space c) eqn:Ec; [|discriminate].
  intros _. simpl. rewrite Ec. now apply IH.
Qed.

Lemma blank_no_lead s : blank s = true -> PyStr.no_lead s -> s = "".
Proof.
  destruct s as [|c s]; [reflexivity|]. simpl. intros H Hc.
  rewrite Hc in H. discriminate.
Qed.

Lemma lstrip_empty_blank s : PyStr.lstrip s = "" -> blank s = true.
Proof.
  induction s as [|c s IH]; [reflexivity|]. simpl.
  destruct (PyStr.is_space c); [exact IH|discriminate].
Qed.

Lemma strip_empty_iff s : PyStr.strip s = "" <-> blank s = true.
Proof.
  unfold PyStr.strip. split.
  - intros H. apply rstrip_empty_blank in H.
    apply lstrip_empty_blank. apply blank_no_lead; [exact H|].
    apply lstrip_no_lead.
  - intros H. now rewrite (lstrip_blank s H).
Qed.

Lemma to_st_nm_empty_iff s : to_st_nm s = "" <-> blank s = true.
Proof.
  rewrite <- strip_empty_iff. unfold to_st_nm.
  destruct (dict_get_default_cases NAME_TO_ST_NM (PyStr.strip s) (PyStr.strip s))
    as [(v & Hv & ->)|[_ ->]]; [|tauto].
  apply dict_get_In in Hv.
  assert (Hall : forallb (fun kv => PyStr.truthy (fst kv) && PyStr.truthy (snd kv))
                   NAME_TO_ST_NM = true) by reflexivity.
  rewrite forallb_forall in Hall. specialize (Hall _ Hv). simpl in Hall.
  apply andb_prop in Hall as [Hk Hval].
  split; intros E; rewrite E in *; discriminate.
Qed.

(** X14. [choropleth] keeps a row exactly when its state is present and
    not blank; the rows kept stay in order, and each carries as location
    the name [to_st_nm] gives its state, which is never empty. *)
Theorem choropleth_drops_blank_states (df : list value_row) :
  choropleth_rows df = with_st_nm (List.filter has_state df) /\
  forall r nm, In (r, nm) (choropleth_rows df) ->
    exists s, vr_state r = Some s /\ nm = Some (to_st_nm s) /\
              PyStr.truthy (to_st_nm s) = true.
Proof.
  assert (Hkeep : forall r,
    match to_st_nm_cell (vr_state r) with
    | Some nm => negb (String.eqb nm "")
    | None => false
    end = has_state r).
  { intros r. unfold has_state, to_st_nm_cell.
    destruct (vr_state r) as [s|]; [|reflexivity]. f_equal.
    destruct (String.eqb_spec (to_st_nm s) "") as [E|E].
    - apply to_st_nm_empty_iff in E. now rewrite E.
    - destruct (blank s) eqn:Eb; [|reflexivity].
      apply to_st_nm_empty_iff in Eb. contradiction. }
  assert (Heq : choropleth_rows df = with_st_nm (List.filter has_state df)).
  { unfold choropleth_rows, with_st_nm.
    induction df as [|r df IH]; [reflexivity|].
    cbn [map List.filter snd]. rewrite IH, Hkeep.
    destruct (has_state r); reflexivity. }
  split; [exact Heq|].
  intros r nm Hin. rewrite Heq in Hin. unfold with_st_nm in Hin.
  apply in_map_iff in Hin as (r' & [= <- <-] & Hr').
  apply filter_In in Hr' as [_ Hs]. unfold has_state in Hs.
  destruct (vr_state r') as [s|]; [|discriminate].
  exists s. split; [reflexivity|]. split; [reflexivity|].
  destruct (to_st_nm s) eqn:E; [|reflexivity].
  apply to_st_nm_empty_iff in E. rewrite E in Hs. discriminate.
Qed.

(** ** Latest common period *)

Lemma pair_leb_total a b : pair_leb a b = true \/ pair_leb b a = true.
Proof.
  unfold pair_leb. destruct a as [a1 a2], b as [b1 b2]. simpl.
  rewrite !orb_true_iff, !andb_true_iff, !Z.ltb_lt, !Z.eqb_eq, !Z.leb_le. lia.
Qed.

Lemma pair_leb_trans a b c :
  pair_leb a b = true -> pair_leb b c = true -> pair_leb a c = true.
Proof.
  unfold pair_leb. destruct a as [a1 a2], b as [b1 b2], c as [c1 c2]. simpl.
  rewrite !orb_true_iff, !andb_true_iff, !Z.ltb_lt, !Z.eqb_eq, !Z.leb_le. lia.
Qed.

Lemma sorted_snoc_max {A} (R : A -> A -> Prop) l x :
  (forall a, R a a) ->
  StronglySorted R (l ++ [x]) -> forall a, In a (l ++ [x]) -> R a x.
Proof.
  intros Hrefl. induction l as [|b l IH]; simpl; intros Hs a Ha.
  - destruct Ha as [<-|[]]. apply Hrefl.
  - inversion Hs as [|? ? Hl Hb]; subst. destruct Ha as [<-|Ha].
    + rewrite List.Forall_forall in Hb. apply Hb, in_or_app. right. now left.
    + now apply IH.
Qed.

Lemma common_periods_In au db y q :
  In (y, q) (common_periods_desc au db) <->
  (exists r, In r au /\ au_year r = y /\ au_quarter r = q) /\
  (exists r, In r (map_user db) /\ mu_year r = y /\ mu_quarter r = q).
Proof.
  unfold common_periods_desc, user_periods, map_user_periods.
  rewrite <- in_rev, (sort_by_In pair_leb), filter_In.
  rewrite (distinct_by_In _ pair_eqb_eq), (existsb_eqb_In _ pair_eqb_eq).
  rewrite (distinct_by_In _ pair_eqb_eq), !in_map_iff.
  split.
  - intros [(r & [= <- <-] & Hr) (r' & [= Hy Hq] & Hr')]. split; eauto.
  - intros [(r & Hr & <- & <-) (r' & Hr' & Hy & Hq)]. split.
    + exists r. auto.
    + exists r'. split; [congruence|exact Hr'].
Qed.

(** X15. [latest_common_period] returns a period that occurs in both
    user tables and that no common period follows (by year, then
    quarter); it returns [(None, None)] exactly when the two tables share
    no period, and never a year without a quarter. *)
Theorem latest_common_period_is_latest
    (aggregated_user : list aggregated_user_row) (db : database) :
  let common y q :=
    (exists r, In r aggregated_user /\ au_year r = y /\ au_quarter r = q) /\
    (exists r, In r (map_user db) /\ mu_year r = y /\ mu_quarter r = q) in
  (latest_common_period aggregated_user db = (None, None) /\
   forall y q, ~ common y q) \/
  (exists y q,
     latest_common_period aggregated_user db = (Some y, Some q) /\
     common y q /\
     forall y' q', common y' q' ->
       (y' < y)%Z \/ (y' = y /\ (q' <= q)%Z)).
Proof.
  intros common.
  assert (Hin : forall y q, In (y, q) (common_periods_desc aggregated_user db)
                            <-> common y q)
    by (intros; apply common_periods_In).
  unfold latest_common_period.
  destruct (common_periods_desc aggregated_user db) as [|[y q] t] eqn:E.
  - left. split; [reflexivity|]. intros y q H. now apply Hin in H.
  - right. exists y, q. split; [reflexivity|]. split.
    + apply Hin. now left.
    + intros y' q' H. apply Hin in H. rewrite <- E in H.
      unfold common_periods_desc in E, H.
      set (l := sort_by pair_leb _) in *.
      assert (Hl : l = rev t ++ [(y, q)]).
      { rewrite <- (rev_involutive l), E. reflexivity. }
      assert (Hs : StronglySorted (fun a b => pair_leb a b = true) l)
        by apply (sort_by_sorted pair_leb pair_leb_total pair_leb_trans).
      rewrite Hl in Hs. apply in_rev in H. rewrite Hl in H.
      pose proof (sorted_snoc_max _ _ _
                    (fun a => match pair_leb_total a a with
                              | or_introl h | or_intror h => h end)
                    Hs _ H) as Hle.
      unfold pair_leb in Hle. simpl in Hle.
      rewrite orb_true_iff, andb_true_iff, Z.ltb_lt, Z.eqb_eq, Z.leb_le in Hle.
      lia.
Qed.

(** ** The metric dict of [build_feature_collection] *)

Lemma metric_values_from_other acc df name :
  (forall r, In r df -> to_st_nm (mr_state r) <> name) ->
  dict_get (metric_values_from acc df) name = dict_get acc name.
Proof.
  unfold metric_values_from. revert acc.
  induction df as [|r df IH]; simpl; intros acc Habs; [reflexivity|].
  rewrite IH by (intros r' Hr'; apply Habs; now right).
  apply dict_get_set_ne. apply Habs. now left.
Qed.

Lemma metric_values_from_app acc df1 df2 :
  metric_values_from acc (df1 ++ df2)
  = metric_values_from (metric_values_from acc df1) df2.
Proof. unfold metric_values_from. apply fold_left_app. Qed.

Lemma dict_set_keys_NoDup {V} (d : list (string * V)) k v :
  List.NoDup (dict_keys d) -> List.NoDup (dict_keys (dict_set d k v)).
Proof.
  unfold dict_keys. induction d as [|[k' v'] d IH]; simpl; intros Hnd.
  - constructor; [intros []|constructor].
  - destruct (String.eqb_spec k k') as [->|Hne]; simpl; [exact Hnd|].
    inversion Hnd as [|? ? Hk' Hd]; subst. constructor; [|now apply IH].
    intros Hin. apply Hk'. clear IH Hnd Hd Hk'.
    induction d as [|[k0 v0] d IHd]; simpl in *.
    + destruct Hin as [->|[]]. congruence.
    + destruct (String.eqb k k0); simpl in Hin; [exact Hin|].
      destruct Hin as [->|Hin]; [now left|right; now apply IHd].
Qed.

Lemma metric_values_from_NoDup acc df :
  List.NoDup (dict_keys acc) -> List.NoDup (dict_keys (metric_values_from acc df)).
Proof.
  unfold metric_values_from. revert acc.
  induction df as [|r df IH]; simpl; intros acc Hacc; [exact Hacc|].
  apply IH. now apply dict_set_keys_NoDup.
Qed.

Lemma metric_values_last_row df1 r df2 :
  (forall r', In r' df2 -> to_st_nm (mr_state r') <> to_st_nm (mr_state r)) ->
  dict_get (metric_values (df1 ++ r :: df2)) (to_st_nm (mr_state r))
  = Some (value_or_zero (mr_value r)).
Proof.
  intros Hlater. change (metric_values (df1 ++ r :: df2))
    with (metric_values_from [] (df1 ++ r :: df2)).
  rewrite metric_values_from_app.
  change (metric_values_from (metric_values_from [] df1) (r :: df2))
    with (metric_values_from
            (dict_set (metric_values_from [] df1) (to_st_nm (mr_state r))
               (value_or_zero (mr_value r))) df2).
  rewrite metric_values_from_other by exact Hlater.
  apply dict_get_set_eq.
Qed.

Lemma exists_in_list_dec {A} (P : A -> Prop) (l : list A) :
  (forall x, P x \/ ~ P x) ->
  (exists y, In y l /\ P y) \/ ~ (exists y, In y l /\ P y).
Proof.
  intros Hdec. induction l as [|b l IHl].
  - right. intros (y & [] & _).
  - destruct (Hdec b) as [Hb|Hb]; [left; exists b; split; [now left|exact Hb]|].
    destruct IHl as [(y & Hy & Py)|Hn].
    + left. exists y. split; [now right|exact Py].
    + right. intros (y & [<-|Hy] & Py); [contradiction|]. apply Hn. eauto.
Qed.

Lemma In_split_last {A} (P : A -> Prop) (l : list A) :
  (forall x, P x \/ ~ P x) -> (exists x, In x l /\ P x) ->
  exists l1 x l2, l = l1 ++ x :: l2 /\ P x /\ forall y, In y l2 -> ~ P y.
Proof.
  intros Hdec. induction l as [|a l IH]; intros (x & Hin & Hx); [destruct Hin|].
  destruct (exists_in_list_dec P l Hdec) as [Hl|Hl].
  - destruct (IH Hl) as (l1 & y & l2 & -> & Py & Hl2).
    exists (a :: l1), y, l2. auto.
  - destruct Hin as [<-|Hin]; [|exfalso; apply Hl; eauto].
    exists [], a, l. split; [reflexivity|]. split; [exact Hx|].
    intros y Hy Py. apply Hl. eauto.
Qed.

Lemma present_has_metric df name :
  present_in df name -> exists v, dict_get (metric_values df) name = Some v.
Proof.
  intros Hp.
  destruct (In_split_last (fun r => to_st_nm (mr_state r) = name) df)
    as (df1 & r & df2 & -> & <- & Hlater).
  - intros r. destruct (string_dec (to_st_nm (mr_state r)) name); auto.
  - exact Hp.
  - eexists. now apply metric_values_last_row.
Qed.

(** X16. The dict of metric values has one entry per region named by a
    row of the table: a lookup hits exactly the regions some row is
    about, and when several rows are about the same region (for example
    ["Orissa"] and ["Odisha"]) the last of them gives the value. *)
Theorem metric_values_last_row_wins (df : list metric_row) (name : string) :
  List.NoDup (dict_keys (metric_values df)) /\
  (present_in df name <-> exists v, dict_get (metric_values df) name = Some v) /\
  (forall df1 r df2,
     df = df1 ++ r :: df2 -> to_st_nm (mr_state r) = name ->
     (forall r', In r' df2 -> to_st_nm (mr_state r') <> name) ->
     dict_get (metric_values df) name = Some (value_or_zero (mr_value r))).
Proof.
  split; [|split].
  - apply (metric_values_from_NoDup [] df). constructor.
  - split.
    + intros Hp.
      destruct (In_split_last (fun r => to_st_nm (mr_state r) = name) df)
        as (df1 & r & df2 & -> & <- & Hlater).
      * intros r. destruct (string_dec (to_st_nm (mr_state r)) name); auto.
      * exact Hp.
      * eexists. now apply metric_values_last_row.
    + intros (v & Hv).
      destruct (exists_in_list_dec (fun r => to_st_nm (mr_state r) = name) df)
        as [Hp|Hn].
      * intros r. destruct (string_dec (to_st_nm (mr_state r)) name); auto.
      * exact Hp.
      * rewrite metric_values_absent in Hv; [discriminate|].
        intros r Hr E. apply Hn. exists r. auto.
  - intros df1 r df2 -> <- Hlater. now apply metric_values_last_row.
Qed.

(** ** The returned collection *)

Lemma build_feature_collection_fresh h0 geo df :
  keeps (extends_untouched h0) (build_feature_collection geo df)
        (val_fresh (length h0)).
Proof.
  unfold build_feature_collection.
  eapply keeps_bind; [apply alloc_keeps; constructor|]. intros feats Hfeats.
  eapply keeps_bind; [apply keeps_reader, getitem_h_heap|]. intros features _.
  eapply keeps_bind; [apply keeps_reader, iter_h_heap|]. intros fs _.
  eapply keeps_bind.
  { apply for_each_keeps. intros f. now apply enrich_feature_keeps. }
  intros _ _. apply alloc_keeps. repeat constructor. exact Hfeats.
Qed.

Lemma reachable_new h0 h v l :
  extends_untouched h0 h -> val_fresh (length h0) v -> reachable h v l ->
  (length h0 <= l)%nat.
Proof.
  intros Hh Hv Hr. induction Hr as [l|l o x l' Hl Hx _ IH]; [exact Hv|].
  apply IH. pose proof (untouched_lookup_new h0 h l o Hh Hv Hl) as Ho.
  unfold obj_fresh in Ho. rewrite List.Forall_forall in Ho. now apply Ho.
Qed.

(** X17. The collection returned by [build_feature_collection] shares no
    object with what existed before the call: every object that can be
    reached from the result was created by the call, so changing the
    result cannot change [INDIA_GEOJSON]. *)
Theorem result_shares_nothing_with_geometry
    (INDIA_GEOJSON : val) (df_plot : list metric_row) (h0 : heap)
    (fc : val) (l : loc) :
  fst (build_feature_collection INDIA_GEOJSON df_plot h0) = Ok fc ->
  reachable (snd (build_feature_collection INDIA_GEOJSON df_plot h0)) fc l ->
  (length h0 <= l)%nat /\ h0 !! l = None.
Proof.
  intros Hfc Hr.
  destruct (build_feature_collection_fresh h0 INDIA_GEOJSON df_plot h0
              (untouched_start h0)) as [Hh Hv].
  assert (Hl : (length h0 <= l)%nat).
  { eapply reachable_new; [exact Hh|apply Hv, Hfc|exact Hr]. }
  split; [exact Hl|]. now apply lookup_ge_None.
Qed.

Lemma Forall2_In_l {A B} (P : A -> B -> Prop) l k x :
  Forall2 P l k -> In x l -> exists y, In y k /\ P x y.
Proof.
  induction 1 as [|a b l k Hab _ IH]; intros Hin; [destruct Hin|].
  destruct Hin as [<-|Hin]; [exists b; split; [now left|exact Hab]|].
  destruct (IH Hin) as (y & Hy & HP). exists y. split; [now right|exact HP].
Qed.

(** X18. For a well-formed geometry, the height of every output feature
    is the rescaling [200000 + (v - vmin) / rng * 700000] of its metric
    value [v]; a region that some row of the table is about gets a height
    in [200000, 900000]; and of two output features the one with the
    smaller metric value never has the greater height. *)
Theorem output_heights
    (h0 : heap) (INDIA_GEOJSON : val) (fs : list val) (names : list string)
    (df_plot : list metric_row) :
  geometry h0 INDIA_GEOJSON fs names ->
  exists fc gs h',
    build_feature_collection INDIA_GEOJSON df_plot h0 = (Ok fc, h') /\
    collection_features h' fc = Some gs /\
    Forall2 (fun g name =>
      exists v,
        feature_prop h' g "metric_value" = Some (VFloat v) /\
        feature_prop h' g "height"
          = Some (VFloat (height_of (metric_values df_plot) v)) /\
        (present_in df_plot name ->
         (200000 <= height_of (metric_values df_plot) v <= 200000 + 700000)%Q))
      gs names /\
    (forall g1 g2 v1 v2 t1 t2,
       In g1 gs -> In g2 gs ->
       feature_prop h' g1 "metric_value" = Some (VFloat v1) ->
       feature_prop h' g2 "metric_value" = Some (VFloat v2) ->
       feature_prop h' g1 "height" = Some (VFloat t1) ->
       feature_prop h' g2 "height" = Some (VFloat t2) ->
       (v1 <= v2)%Q -> (t1 <= t2)%Q).
Proof.
  intros Hgeo.
  destruct (build_feature_collection_spec h0 INDIA_GEOJSON fs names df_plot Hgeo)
    as (fc & gs & h' & E & Hfc & Hall).
  exists fc, gs, h'. split; [exact E|]. split; [exact Hfc|]. split.
  - eapply Forall2_impl; [exact Hall|]. intros g name (_ & Hm & Hh).
    eexists. split; [exact Hm|]. split; [exact Hh|].
    intros Hp.
    destruct (present_has_metric df_plot name Hp) as (v & Hv).
    unfold dict_get_default. rewrite Hv.
    eapply height_present_in_range, Hv.
  - intros g1 g2 v1 v2 t1 t2 Hg1 Hg2 Hm1 Hm2 Ht1 Ht2 Hle.
    destruct (Forall2_In_l _ _ _ _ Hall Hg1) as (n1 & _ & _ & Hm1' & Hh1).
    destruct (Forall2_In_l _ _ _ _ Hall Hg2) as (n2 & _ & _ & Hm2' & Hh2).
    cbv zeta in Hm1', Hm2', Hh1, Hh2.
    rewrite Hm1 in Hm1'. rewrite Hm2 in Hm2'.
    injection Hm1' as Hv1. injection Hm2' as Hv2.
    rewrite Ht1, <- Hv1 in Hh1. rewrite Ht2, <- Hv2 in Hh2.
    injection Hh1 as ->. injection Hh2 as ->.
    now apply height_monotone.
Qed.

(** X19. With an empty metric table every output feature gets metric
    value 0 and a height equal to 200000, the minimum. *)
Theorem empty_table_gives_minimum_heights
    (h0 : heap) (INDIA_GEOJSON : val) (fs : list val) (names : list string) :
  geometry h0 INDIA_GEOJSON fs names ->
  exists fc gs h',
    build_feature_collection INDIA_GEOJSON [] h0 = (Ok fc, h') /\
    collection_features h' fc = Some gs /\
    Forall2 (fun g name =>
      feature_prop h' g "ST_NM" = Some (VStr name) /\
      feature_prop h' g "metric_value" = Some (VFloat 0) /\
      exists ht, feature_prop h' g "height" = Some (VFloat ht) /\
                 (ht == 200000)%Q) gs names.
Proof.
  intros Hgeo.
  destruct (build_feature_collection_spec h0 INDIA_GEOJSON fs names [] Hgeo)
    as (fc & gs & h' & E & Hfc & Hall).
  exists fc, gs, h'. split; [exact E|]. split; [exact Hfc|].
  eapply Forall2_impl; [exact Hall|]. intros g name (Hn & Hm & Hh).
  split; [exact Hn|]. split; [exact Hm|].
  eexists. split; [exact Hh|]. reflexivity.
Qed.

(** ** Malformed geometry *)

Lemma bind_raise {A B} (m : M A) (f : A -> M B) h e h1 :
  m h = (Raise e, h1) -> (m ≫= f) h = (Raise e, h1).
Proof. intros E. unfold mbind, M_bind, bindM. now rewrite E. Qed.

Lemma for_each_app {A} (xs ys : list A) (body : A -> M unit) h h1 :
  for_each xs body h = (Ok tt, h1) ->
  for_each (xs ++ ys) body h = for_each ys body h1.
Proof.
  revert h. induction xs as [|x xs IH]; simpl; intros h E.
  - now injection E as <-.
  - unfold mbind, M_bind, bindM in *.
    destruct (body x h) as [[[]|e] h2]; [|discriminate]. now apply IH.
Qed.

(** X20. [build_feature_collection] raises [KeyError] on a malformed
    geometry and returns nothing: ["features"] when the geometry has no
    such key, and, after the features before it have been processed,
    ["properties"] or ["ST_NM"] at the first feature that lacks that
    key. *)
Theorem build_feature_collection_key_errors
    (h0 : heap) (INDIA_GEOJSON : val) (df_plot : list metric_row) :
  (forall l d,
     INDIA_GEOJSON = VRef l -> h0 !! l = Some (ODict d) ->
     dict_get d "features" = None ->
     fst (build_feature_collection INDIA_GEOJSON df_plot h0)
     = Raise (KeyError "features")) /\
  (forall lfs good names lf d rest,
     peek h0 INDIA_GEOJSON "features" = Some (VRef lfs) ->
     h0 !! lfs = Some (OList (good ++ VRef lf :: rest)) ->
     Forall2 (wf_feature h0) good names ->
     h0 !! lf = Some (ODict d) ->
     (dict_get d "properties" = None ->
      fst (build_feature_collection INDIA_GEOJSON df_plot h0)
      = Raise (KeyError "properties")) /\
     (forall lp dp,
        dict_get d "properties" = Some (VRef lp) ->
        h0 !! lp = Some (ODict dp) -> dict_get dp "ST_NM" = None ->
        fst (build_feature_collection INDIA_GEOJSON df_plot h0)
        = Raise (KeyError "ST_NM"))).
Proof.
  set (ha := h0 ++ [OList []]).
  assert (Hold : forall l o, h0 !! l = Some o -> ha !! l = Some o)
    by (intros l o; apply lookup_app_l_Some).
  split.
  - intros l d -> Hl Hd. unfold build_feature_collection.
    rewrite (bind_ok _ _ h0 (VRef (length h0)) ha) by reflexivity.
    rewrite (bind_raise _ _ ha (KeyError "features") ha); [reflexivity|].
    unfold getitem_h. now rewrite (Hold _ _ Hl), Hd.
  - intros lfs good names lf d rest Hpeek Hlfs Hgood Hlf.
    set (vals := metric_values df_plot). set (lfeats := length h0).
    assert (Hfeats : ha !! lfeats = Some (OList [])).
    { unfold ha, lfeats. rewrite lookup_app_r by lia. now rewrite Nat.sub_diag. }
    destruct (for_each_enrich_spec vals h0 lfeats good names Hgood
                ltac:(unfold lfeats; lia) ha [] [] Hold
                ltac:(unfold ha; rewrite length_app; lia) Hfeats
                ltac:(constructor))
      as (gs & hb & Eloop & Holdb & _).
    assert (Hprefix : forall body_result,
      enrich_feature vals (VRef lfeats) (VRef lf) hb = (Raise body_result, hb) ->
      fst (build_feature_collection INDIA_GEOJSON df_plot h0) = Raise body_result).
    { intros e Ebody. unfold build_feature_collection. fold vals.
      rewrite (bind_ok _ _ h0 (VRef lfeats) ha) by reflexivity.
      rewrite (bind_ok _ _ ha (VRef lfs) ha).
      2:{ unfold peek in Hpeek. unfold getitem_h.
          destruct INDIA_GEOJSON; try discriminate.
          destruct (h0 !! l) as [[dgeo|]|] eqn:El; try discriminate.
          rewrite (Hold _ _ El). now rewrite Hpeek. }
      rewrite (bind_ok _ _ ha (good ++ VRef lf :: rest) ha)
        by (unfold iter_h; now rewrite (Hold _ _ Hlfs)).
      rewrite (bind_raise _ _ ha e hb); [reflexivity|].
      rewrite (for_each_app _ _ _ _ _ Eloop). simpl.
      now apply bind_raise. }
    split.
    + intros Hd. apply Hprefix. unfold enrich_feature.
      apply bind_raise. unfold getitem_h. now rewrite (Holdb _ _ Hlf), Hd.
    + intros lp dp Hd Hlp Hdp. apply Hprefix. unfold enrich_feature.
      rewrite (bind_ok _ _ hb (VRef lp) hb)
        by (unfold getitem_h; now rewrite (Holdb _ _ Hlf), Hd).
      apply bind_raise. unfold getitem_h. now rewrite (Holdb _ _ Hlp), Hdp.
Qed.

(** ** One render pass of the Home page *)

Lemma home_state_index_total preferred df states :
  exists idx, home_state_index preferred df states = Ok idx.
Proof.
  assert (Hidx : forall x, list_mem x states = true ->
            exists idx, index_of states x = Ok idx).
  { intros x Hx. apply list_mem_In in Hx.
    destruct (index_of_found _ _ Hx) as (i & Hi & _). eauto. }
  unfold home_state_index.
  assert (Hfb : exists idx,
    match default_state df with
    | Some d =>
        if PyStr.truthy d && list_mem d states then index_of states d
        else Ok 0%nat
    | None => Ok 0%nat
    end = Ok idx).
  { destruct (default_state df) as [d|]; [|eauto].
    destruct (PyStr.truthy d); simpl; [|eauto].
    destruct (list_mem d states) eqn:E; [now apply Hidx|eauto]. }
  destruct preferred as [p|]; [|exact Hfb].
  destruct (list_mem p states) eqn:E; [now apply Hidx|exact Hfb].
Qed.

Lemma selected_name_truthy event name :
  get_selected_state_from_event event = Ok (Some name) ->
  PyStr.truthy name = true.
Proof.
  unfold get_selected_state_from_event.
  destruct (selection_of event) as [sel|e]; simpl; [|discriminate].
  destruct sel; try discriminate.
  destruct (objects_of d) as [objs|e]; simpl; [|discriminate].
  destruct objs as [|o objs]; [discriminate|]. simpl.
  destruct (unwrap_object o) as [obj|e]; simpl; [|discriminate].
  destruct (properties_of obj); try discriminate.
  destruct (name_of d0); try discriminate.
  destruct (PyStr.truthy (PyStr.strip s)) eqn:Hs; [|discriminate].
  intros [= <-]. apply stnm_to_db_nonempty. now rewrite strip_idem.
Qed.

(** X21. The index handed to the state select box is always valid: for
    every stored click, metric table and region list the computation
    returns an index below the length of the list (0 for an empty list)
    and never raises. *)
Theorem home_state_index_in_range
    (preferred : option string) (df : list metric_row) (states : list string) :
  exists idx,
    home_state_index preferred df states = Ok idx /\
    (states <> [] -> (idx < length states)%nat) /\
    (states = [] -> idx = 0%nat).
Proof.
  assert (Hzero : exists idx, Ok 0%nat = Ok idx /\
            (states <> [] -> (idx < length states)%nat) /\
            (states = [] -> idx = 0%nat)).
  { exists 0%nat. split; [reflexivity|]. split; [|reflexivity].
    destruct states; [congruence|simpl; lia]. }
  assert (Hidx : forall x, list_mem x states = true ->
            exists idx, index_of states x = Ok idx /\
              (states <> [] -> (idx < length states)%nat) /\
              (states = [] -> idx = 0%nat)).
  { intros x Hx. apply list_mem_In in Hx.
    destruct (index_of_found _ _ Hx) as (i & Hi & Hn).
    exists i. split; [exact Hi|]. split.
    - intros _. apply nth_error_Some. congruence.
    - intros ->. destruct Hx. }
  assert (Hfb : exists idx,
    match default_state df with
    | Some d =>
        if PyStr.truthy d && list_mem d states then index_of states d
        else Ok 0%nat
    | None => Ok 0%nat
    end = Ok idx /\
    (states <> [] -> (idx < length states)%nat) /\
    (states = [] -> idx = 0%nat)).
  { destruct (default_state df) as [d|]; [|exact Hzero].
    destruct (PyStr.truthy d); simpl; [|exact Hzero].
    destruct (list_mem d states) eqn:E; [now apply Hidx|exact Hzero]. }
  unfold home_state_index. destruct preferred as [p|]; [|exact Hfb].
  destruct (list_mem p states) eqn:E; [now apply Hidx|exact Hfb].
Qed.

(** X22. A render pass never raises, whatever the selection event; when
    the event resolves to no name, or the metric table is empty, the
    stored click is kept as it was. *)
Theorem pass_without_selection_keeps_click
    (session : option string) (df : list metric_row) (states : list string)
    (event : py) :
  exists session' idx,
    home_pass session df states event = Ok (session', idx) /\
    (df = [] \/ get_selected_state_from_event event = Ok None ->
     session' = session /\ home_state_index session df states = Ok idx).
Proof.
  assert (Hsame : forall s, exists idx,
            (idx ← home_state_index s df states; Ok (s, idx)) = Ok (s, idx) /\
            home_state_index s df states = Ok idx).
  { intros s. destruct (home_state_index_total s df states) as (idx & ->).
    exists idx. split; reflexivity. }
  unfold home_pass, handle_click.
  destruct df as [|r df'].
  - cbn. destruct (Hsame session) as (idx & E & Hi).
    exists session, idx. split; [exact E|]. intros _. split; [reflexivity|exact Hi].
  - destruct (get_selected_state_never_raises event) as [c ->]. cbn.
    destruct c as [c|].
    + destruct (PyStr.truthy c).
      * cbn. destruct (Hsame (Some c)) as (idx & E & Hi).
        exists (Some c), idx. split; [exact E|].
        intros [H|H]; discriminate.
      * cbn. destruct (Hsame session) as (idx & E & Hi).
        exists session, idx. split; [exact E|].
        intros [H|H]; discriminate.
    + cbn. destruct (Hsame session) as (idx & E & Hi).
      exists session, idx. split; [exact E|]. intros _.
      split; [reflexivity|exact Hi].
Qed.

(** X23. A click selects: when the metric table is not empty and the
    event resolves to a name of the region list, the pass stores that
    name and the state select box points at it, whatever was stored
    before and whatever the metric values are. *)
Theorem click_selects_state
    (session : option string) (df : list metric_row) (states : list string)
    (event : py) (name : string) :
  df <> [] ->
  get_selected_state_from_event event = Ok (Some name) ->
  In name states ->
  exists idx,
    home_pass session df states event = Ok (Some name, idx) /\
    nth_error states idx = Some name.
Proof.
  intros Hdf Hev Hin.
  pose proof (selected_name_truthy event name Hev) as Htruthy.
  destruct (index_of_found _ _ Hin) as (i & Hi & Hn).
  exists i. split; [|exact Hn].
  unfold home_pass, handle_click. destruct df as [|r df']; [congruence|].
  rewrite Hev. cbn. rewrite Htruthy. cbn.
  unfold home_state_index.
  rewrite (proj2 (list_mem_In name states) Hin), Hi. reflexivity.
Qed.

Lemma click_selects_state_witness :
  exists idx,
    home_pass None [ {| mr_state := "Goa"; mr_value := 3 |} ]
      ["Goa"; "Orissa"]
      (PDict [("selection",
               PDict [("objects",
                       PList [PDict [("object",
                                      PDict [("properties",
                                              PDict [("ST_NM", PStr "Odisha")])])]])])])
    = Ok (Some "Orissa", idx) /\
    nth_error ["Goa"; "Orissa"] idx = Some "Orissa".
Proof.
  apply (click_selects_state None [ {| mr_state := "Goa"; mr_value := 3 |} ]
           ["Goa"; "Orissa"] _ "Orissa").
  - discriminate.
  - reflexivity.
  - right. now left.
Defined.

(** ** The properties above on the sample inputs *)

Example broken_geojson_loaded :
  fst (load_geojson
         (JObj [("type", JStr "FeatureCollection");
                ("features",
                 JArr [feature_text "Kerala";
                       JObj [("type", JStr "Feature")]])]) [])
  = Ok broken_geojson.
Proof. reflexivity. Qed.

Lemma result_shares_nothing_with_geometry_witness :
  (length sample_heap <= 33)%nat /\ sample_heap !! 33%nat = None.
Proof.
  apply (result_shares_nothing_with_geometry sample_geojson
           [ {| mr_state := "Kerala"; mr_value := 7 |} ] sample_heap
           (VRef 33) 33%nat).
  - reflexivity.
  - apply reach_here.
Defined.

Lemma output_heights_witness :
  let df := [ {| mr_state := "Kerala"; mr_value := 100 |};
              {| mr_state := "Goa"; mr_value := 200 |} ] in
  exists fc gs h',
    build_feature_collection sample_geojson df sample_heap = (Ok fc, h') /\
    collection_features h' fc = Some gs /\
    Forall2 (fun g name =>
      exists v,
        feature_prop h' g "metric_value" = Some (VFloat v) /\
        feature_prop h' g "height"
          = Some (VFloat (height_of (metric_values df) v)) /\
        (present_in df name ->
         (200000 <= height_of (metric_values df) v <= 200000 + 700000)%Q))
      gs sample_regions /\
    (forall g1 g2 v1 v2 t1 t2,
       In g1 gs -> In g2 gs ->
       feature_prop h' g1 "metric_value" = Some (VFloat v1) ->
       feature_prop h' g2 "metric_value" = Some (VFloat v2) ->
       feature_prop h' g1 "height" = Some (VFloat t1) ->
       feature_prop h' g2 "height" = Some (VFloat t2) ->
       (v1 <= v2)%Q -> (t1 <= t2)%Q).
Proof.
  apply (output_heights sample_heap sample_geojson [VRef 4; VRef 9; VRef 14]
           sample_regions
           [ {| mr_state := "Kerala"; mr_value := 100 |};
             {| mr_state := "Goa"; mr_value := 200 |} ]).
  exact sample_geometry.
Defined.

Lemma empty_table_gives_minimum_heights_witness :
  exists fc gs h',
    build_feature_collection sample_geojson [] sample_heap = (Ok fc, h') /\
    collection_features h' fc = Some gs /\
    Forall2 (fun g name =>
      feature_prop h' g "ST_NM" = Some (VStr name) /\
      feature_prop h' g "metric_value" = Some (VFloat 0) /\
      exists ht, feature_prop h' g "height" = Some (VFloat ht) /\
                 (ht == 200000)%Q) gs sample_regions.
Proof.
  apply (empty_table_gives_minimum_heights sample_heap sample_geojson
           [VRef 4; VRef 9; VRef 14] sample_regions).
  exact sample_geometry.
Defined.

Lemma broken_first_feature : wf_feature broken_heap (VRef 4) "Kerala".
Proof.
  do 5 eexists. split; [reflexivity|]. split; [reflexivity|].
  split; [apply NoDup_by_decide; vm_compute; reflexivity|].
  split; [reflexivity|]. split; [reflexivity|].
  split; [apply NoDup_by_decide; vm_compute; reflexivity|].
  split; [reflexivity|]. vm_compute. reflexivity.
Qed.

Lemma build_feature_collection_key_errors_witness :
  fst (build_feature_collection broken_geojson
         [ {| mr_state := "Kerala"; mr_value := 7 |} ] broken_heap)
  = Raise (KeyError "properties").
Proof.
  destruct (build_feature_collection_key_errors broken_heap broken_geojson
              [ {| mr_state := "Kerala"; mr_value := 7 |} ]) as [_ H].
  destruct (H 6%nat [VRef 4] ["Kerala"] 5%nat [("type", VStr "Feature")] [])
    as [Hmissing _].
  - reflexivity.
  - reflexivity.
  - constructor; [exact broken_first_feature|constructor].
  - reflexivity.
  - apply Hmissing. reflexivity.
Defined.

(** ** Top districts and pincodes *)

Lemma amount_order_total a b :
  amount_desc_nulls_last a b = true \/ amount_desc_nulls_last b a = true.
Proof.
  unfold amount_desc_nulls_last.
  destruct (tr_amount a) as [x|], (tr_amount b) as [y|]; auto.
  rewrite !Qle_bool_iff. destruct (Qlt_le_dec x y); [right|left]; lra.
Qed.

Lemma amount_order_trans a b c :
  amount_desc_nulls_last a b = true -> amount_desc_nulls_last b c = true ->
  amount_desc_nulls_last a c = true.
Proof.
  unfold amount_desc_nulls_last.
  destruct (tr_amount a) as [x|], (tr_amount b) as [y|], (tr_amount c) as [z|];
    auto; try discriminate.
  rewrite !Qle_bool_iff. lra.
Qed.

Lemma sorted_app_between {A} (R : A -> A -> Prop) l1 l2 :
  StronglySorted R (l1 ++ l2) ->
  StronglySorted R l1 /\ forall a b, In a l1 -> In b l2 -> R a b.
Proof.
  induction l1 as [|x l1 IH]; simpl; intros Hs.
  - split; [constructor|intros a b []].
  - inversion Hs as [|? ? Hl Hx]; subst. destruct (IH Hl) as [Hs1 Hb].
    rewrite List.Forall_forall in Hx. split.
    + constructor; [exact Hs1|]. apply List.Forall_forall.
      intros y Hy. apply Hx, in_or_app. now left.
    + intros a b [<-|Ha] Hbin; [|now apply Hb].
      apply Hx, in_or_app. now right.
Qed.

(** X24. [top_geo] returns at most ten rows, ordered by amount descending
    with NULL amounts last; each row is one entity of the matching rows
    with the sums of its counts and amounts, no entity twice; and no
    group left out by the limit would sort before a row returned. *)
Theorem top_geo_is_top_ten
    (top_map : list top_map_row) (state : string) (y q : Z) (etype : string) :
  let rows := List.filter (top_geo_where state y q etype) top_map in
  let result := top_geo top_map state y q etype in
  (length result <= 10)%nat /\
  StronglySorted (fun a b => amount_desc_nulls_last a b = true) result /\
  List.NoDup (map tr_name result) /\
  (forall r, In r result ->
     (exists m, In m rows /\ tm_entity_name m = tr_name r) /\
     let members :=
       List.filter (fun m => String.eqb (tm_entity_name m) (tr_name r)) rows in
     tr_txns r = sql_sum Z.add (map tm_count members) /\
     tr_amount r = sql_sum Qplus (map tm_amount members)) /\
  (forall g r, In g (top_geo_groups rows) -> ~ In g result -> In r result ->
     amount_desc_nulls_last r g = true).
Proof.
  intros rows result.
  set (sorted := sort_by amount_desc_nulls_last (top_geo_groups rows)).
  assert (Hres : result = firstn 10 sorted) by reflexivity.
  assert (Hsplit : sorted = result ++ skipn 10 sorted)
    by (rewrite Hres; symmetry; apply firstn_skipn).
  assert (Hsorted : StronglySorted (fun a b => amount_desc_nulls_last a b = true)
                      sorted)
    by apply (sort_by_sorted _ amount_order_total amount_order_trans).
  assert (Hin : forall r, In r result -> In r (top_geo_groups rows)).
  { intros r Hr. apply (sort_by_In amount_desc_nulls_last). fold sorted.
    rewrite Hsplit. apply in_or_app. now left. }
  assert (Hnames : List.NoDup (map tr_name sorted)).
  { assert (Hg : List.NoDup (map tr_name (top_geo_groups rows))).
    { unfold top_geo_groups. rewrite map_map. simpl. rewrite map_id.
      apply (distinct_by_NoDup _ String.eqb_eq). }
    unfold sorted. clear -Hg.
    induction (top_geo_groups rows) as [|g gs IH]; [constructor|].
    simpl in *. inversion Hg as [|? ? Hn Hgs]; subst.
    specialize (IH Hgs).
    assert (Hnot : ~ In (tr_name g)
                     (map tr_name (sort_by amount_desc_nulls_last gs))).
    { intros H. apply Hn. apply in_map_iff in H as (x & Hx & Hxin).
      apply (proj1 (sort_by_In amount_desc_nulls_last _ _)) in Hxin.
      rewrite <- Hx. now apply in_map. }
    revert IH Hnot. generalize (sort_by amount_desc_nulls_last gs) as l.
    induction l as [|x l IHl]; simpl; intros Hl Hnot.
    - constructor; [intros []|constructor].
    - destruct (amount_desc_nulls_last g x); simpl.
      + constructor; [exact Hnot|exact Hl].
      + inversion Hl as [|? ? Hx Hl']; subst. constructor.
        * intros H. apply in_map_iff in H as (z & Hz & Hzin).
          apply (proj1 (insert_by_In amount_desc_nulls_last _ _ _)) in Hzin.
          destruct Hzin as [->|Hzin].
          -- apply Hnot. now left.
          -- apply Hx. rewrite <- Hz. now apply in_map.
        * apply IHl; [exact Hl'|]. intros H. apply Hnot. now right. }
  split; [|split; [|split; [|split]]].
  - rewrite Hres. apply firstn_le_length.
  - rewrite Hsplit in Hsorted. now apply sorted_app_between in Hsorted.
  - rewrite Hsplit, map_app in Hnames. now apply List.NoDup_app_remove_r in Hnames.
  - intros r Hr. apply Hin in Hr. unfold top_geo_groups in Hr.
    apply in_map_iff in Hr as (n & <- & Hn). simpl.
    apply (proj1 (distinct_by_In _ String.eqb_eq _ _)) in Hn.
    apply in_map_iff in Hn as (m & Hm & Hmin).
    split; [eauto|]. split; reflexivity.
  - intros g r Hg Hng Hr.
    apply (proj2 (sort_by_In amount_desc_nulls_last _ _)) in Hg.
    fold sorted in Hg. rewrite Hsplit in Hg. apply in_app_or in Hg as [Hg|Hg]; [contradiction|].
    rewrite Hsplit in Hsorted.
    apply sorted_app_between in Hsorted as [_ Hb]. now apply Hb.
Qed.

(** ** [json.loads] then [json.dumps] *)

Lemma dumps_fuel n m h v t :
  (n <= m)%nat -> dumps n h v = Ok t -> dumps m h v = Ok t.
Proof. intros Hnm. now apply dumps_mono. Qed.

Lemma dumps_scalar n h v :
  (forall l, v <> VRef l) ->
  dumps n h v = dumps 0 h v.
Proof. intros Hv. destruct v, n; try reflexivity; now destruct (Hv l). Qed.

Lemma dict_set_new {V} (d : list (string * V)) k v :
  ~ In k (dict_keys d) -> dict_set d k v = d ++ [(k, v)].
Proof.
  unfold dict_keys. induction d as [|[k' v'] d IH]; simpl; intros Hk;
    [reflexivity|].
  destruct (String.eqb_spec k k') as [->|_]; [exfalso; apply Hk; now left|].
  rewrite IH; [reflexivity|]. intros H. apply Hk. now right.
Qed.

Lemma result_map_app {A B} (f : A -> result B) xs ys xs' ys' :
  result_map f xs = Ok xs' -> result_map f ys = Ok ys' ->
  result_map f (xs ++ ys) = Ok (xs' ++ ys').
Proof.
  revert xs'. induction xs as [|x xs IH]; simpl; intros xs' Hx Hy.
  - now injection Hx as <-.
  - destruct (f x) as [y|e]; [|discriminate]. cbn in *.
    destruct (result_map f xs) as [l|e]; [|discriminate]. cbn in *.
    injection Hx as <-. now rewrite (IH l eq_refl Hy).
Qed.

Lemma lookup_prefix (h ext : heap) l :
  (l < length h)%nat -> (h ++ ext) !! l = h !! l.
Proof. intros Hl. now apply lookup_app_l. Qed.

Lemma loads_list_text ts :
  Forall loads_text ts ->
  fold_right (fun t acc => json_wf t /\ acc) True ts ->
  forall h vs h1, loads_list loads ts h = (vs, h1) ->
    forall h2 m, agrees (length h) (length h1) h1 h2 ->
      (fold_right (fun t acc => Nat.max (json_depth t) acc) 0 ts <= m)%nat ->
      result_map (dumps m h2) vs = Ok ts.
Proof.
  induction 1 as [|t ts Ht _ IH]; simpl; intros Hwf h vs h1 E h2 m Hag Hm.
  - now injection E as <- <-.
  - destruct Hwf as [Hwt Hwts].
    destruct (loads t h) as [v ha] eqn:E1.
    destruct (loads_list loads ts ha) as [vs' hb] eqn:E2.
    injection E as <- <-.
    destruct (loads_only_adds t _ _ _ E1) as (e1 & -> & _).
    destruct (loads_list_adds ts
                ltac:(apply List.Forall_forall; intros; apply loads_only_adds)
                _ _ _ E2) as (e2 & -> & _).
    assert (Hv : dumps m h2 v = Ok t).
    { apply (dumps_fuel (json_depth t)); [lia|].
      apply (Ht Hwt _ _ _ E1). intros l Hl. rewrite Hag.
      - apply lookup_prefix. lia.
      - rewrite !length_app in *. lia. }
    cbn [result_map]. rewrite Hv. cbn.
    rewrite (IH Hwts _ _ _ E2 h2 m); [reflexivity| |lia].
    intros l Hl. apply Hag. rewrite !length_app in *. lia.
Qed.

Lemma loads_items_text kvs :
  Forall (fun kv => loads_text (snd kv)) kvs ->
  List.NoDup (map fst kvs) ->
  fold_right (fun kv acc => json_wf (snd kv) /\ acc) True kvs ->
  forall d0 h d h1, loads_items loads kvs d0 h = (d, h1) ->
    (forall k, In k (map fst kvs) -> ~ In k (dict_keys d0)) ->
    exists items,
      d = d0 ++ items /\ map fst items = map fst kvs /\
      forall h2 m, agrees (length h) (length h1) h1 h2 ->
        (fold_right (fun kv acc => Nat.max (json_depth (snd kv)) acc) 0 kvs
         <= m)%nat ->
        result_map (fun kv => t ← dumps m h2 (snd kv); Ok (fst kv, t)) items
        = Ok kvs.
Proof.
  induction 1 as [|[k t] kvs Ht _ IH]; simpl; intros Hnd Hwf d0 h d h1 E Hfree.
  - injection E as <- <-. exists []. rewrite app_nil_r. auto.
  - destruct Hwf as [Hwt Hwts]. inversion Hnd as [|? ? Hk Hnd']; subst.
    destruct (loads t h) as [v ha] eqn:E1.
    destruct (loads_only_adds t _ _ _ E1) as (e1 & -> & _).
    rewrite dict_set_new in E by (apply Hfree; now left).
    destruct (IH Hnd' Hwts _ _ _ _ E) as (items & -> & Hkeys & Htext).
    { intros k' Hk' Hin. unfold dict_keys in Hin. rewrite map_app in Hin.
      apply in_app_or in Hin as [Hin|[<-|[]]].
      - apply (Hfree k'); [now right|exact Hin].
      - contradiction. }
    destruct (loads_items_grows _ _ _ _ _ E) as (e2 & ->).
    exists ((k, v) :: items). rewrite <- app_assoc. split; [reflexivity|].
    split; [simpl; now rewrite Hkeys|].
    intros h2 m Hag Hm. simpl.
    assert (Hv : dumps m h2 v = Ok t).
    { apply (dumps_fuel (json_depth t)); [lia|].
      apply (Ht Hwt _ _ _ E1). intros l Hl. rewrite Hag.
      - apply lookup_prefix. lia.
      - rewrite !length_app in *. lia. }
    rewrite Hv. cbn. rewrite (Htext h2 m); [reflexivity| |lia].
    intros l Hl. apply Hag. rewrite !length_app in *. lia.
Qed.

Lemma loads_gives_text t : loads_text t.
Proof.
  induction t as [| b | z | q | s | ts IH | kvs IH] using json_nested_ind;
    intros Hwf h v h' E h2 Hag; simpl in E;
    try (injection E as <- <-; reflexivity).
  - destruct (loads_list loads ts h) as [vs h1] eqn:E1.
    injection E as <- <-.
    destruct (loads_list_adds ts
                ltac:(apply List.Forall_forall; intros; apply loads_only_adds)
                _ _ _ E1) as (e1 & -> & _).
    change (json_depth (JArr ts))
      with (S (fold_right (fun t acc => Nat.max (json_depth t) acc) 0%nat ts)).
    rewrite dumps_ref, Hag.
    2:{ rewrite !length_app. simpl. lia. }
    rewrite lookup_app_r by lia. rewrite Nat.sub_diag. cbn.
    rewrite (loads_list_text ts IH Hwf _ _ _ E1); [reflexivity| |lia].
    intros l Hl. rewrite Hag.
    + apply lookup_prefix. lia.
    + rewrite !length_app in *. simpl. lia.
  - destruct (loads_items loads kvs [] h) as [d h1] eqn:E1.
    injection E as <- <-. destruct Hwf as [Hnd Hwf].
    destruct (loads_items_grows _ _ _ _ _ E1) as (e1 & ->).
    destruct (loads_items_text kvs IH Hnd Hwf _ _ _ _ E1) as (items & -> & _ & Htext).
    { intros k _ []. }
    change (json_depth (JObj kvs))
      with (S (fold_right (fun kv acc => Nat.max (json_depth (snd kv)) acc)
                 0%nat kvs)).
    rewrite dumps_ref, Hag.
    2:{ rewrite !length_app. simpl. lia. }
    rewrite lookup_app_r by lia. rewrite Nat.sub_diag. cbn.
    rewrite Htext; [reflexivity| |lia].
    intros l Hl. rewrite Hag.
    + apply lookup_prefix. lia.
    + rewrite !length_app in *. simpl. lia.
Qed.

Lemma dumps_depth n h v t : dumps n h v = Ok t -> (json_depth t <= n)%nat.
Proof.
  revert v t. induction n as [|n IH]; intros v t E.
  - destruct v; simpl in E; try discriminate; injection E as <-; simpl; lia.
  - destruct v; try (simpl in E; injection E as <-; simpl; lia).
    rewrite dumps_ref in E. destruct (h !! l) as [[d|xs]|]; [| |discriminate].
    + destruct (result_map (fun kv => t ← dumps n h (snd kv); Ok (fst kv, t)) d)
        as [kvs|e] eqn:Em; cbn in E; [|discriminate].
      injection E as <-. apply result_map_Forall2 in Em.
      simpl. apply le_n_S.
      induction Em as [|kv kt d kvs Hk _ IHd]; simpl; [lia|].
      cbv beta in Hk.
      destruct (dumps n h (snd kv)) as [t'|] eqn:Et; cbn in Hk; [|discriminate].
      injection Hk as <-. simpl. apply IH in Et. lia.
    + destruct (result_map (dumps n h) xs) as [ts|e] eqn:Em; cbn in E;
        [|discriminate].
      injection E as <-. apply result_map_Forall2 in Em.
      simpl. apply le_n_S.
      induction Em as [|x t' xs ts Hx _ IHx]; simpl; [lia|].
      apply IH in Hx. lia.
Qed.

Lemma result_map_dict_set m h (d : list (string * val)) kvs k x tx :
  result_map (fun kv => t ← dumps m h (snd kv); Ok (fst kv, t)) d = Ok kvs ->
  dumps m h x = Ok tx ->
  result_map (fun kv => t ← dumps m h (snd kv); Ok (fst kv, t))
    (dict_set d k x) = Ok (dict_set kvs k tx).
Proof.
  intros Hd Hx. revert kvs Hd.
  induction d as [|[k' v'] d IH]; simpl; intros kvs Hd.
  - injection Hd as <-. simpl. now rewrite Hx.
  - destruct (dumps m h v') as [t'|] eqn:Ev; cbn in Hd; [|discriminate].
    destruct (result_map (fun kv => t ← dumps m h (snd kv); Ok (fst kv, t)) d)
      as [kvs'|] eqn:Em; cbn in Hd; [|discriminate].
    injection Hd as <-. simpl.
    destruct (String.eqb k k'); simpl.
    + rewrite Hx. cbn. rewrite Em. reflexivity.
    + rewrite Ev. cbn. rewrite (IH kvs' eq_refl). reflexivity.
Qed.

Lemma dict_get_split {V} (kvs : list (string * V)) k v :
  List.NoDup (map fst kvs) -> dict_get kvs k = Some v ->
  exists k1 k2, kvs = k1 ++ (k, v) :: k2 /\
                ~ In k (map fst k1) /\ ~ In k (map fst k2).
Proof.
  induction kvs as [|[k' v'] kvs IH]; simpl; intros Hnd Hget; [discriminate|].
  inversion Hnd as [|? ? Hk' Hnd']; subst.
  destruct (String.eqb_spec k k') as [->|Hne].
  - injection Hget as ->. exists [], kvs. split; [reflexivity|]. split; [intros []|exact Hk'].
  - destruct (IH Hnd' Hget) as (k1 & k2 & -> & H1 & H2).
    exists ((k', v') :: k1), k2. split; [reflexivity|]. split; [|exact H2].
    simpl. intros [E|H]; [congruence|contradiction].
Qed.

Lemma dict_set_split {V} (k1 k2 : list (string * V)) k v v' :
  ~ In k (map fst k1) ->
  dict_set (k1 ++ (k, v) :: k2) k v' = k1 ++ (k, v') :: k2.
Proof.
  induction k1 as [|[k0 v0] k1 IH]; simpl; intros Hk.
  - now rewrite String.eqb_refl.
  - destruct (String.eqb_spec k k0) as [->|_]; [exfalso; apply Hk; now left|].
    rewrite IH; [reflexivity|]. intros H. apply Hk. now right.
Qed.

Lemma loads_items_app ld (k1 k2 : list (string * json)) d0 h :
  loads_items ld (k1 ++ k2) d0 h
  = let '(d1, h1) := loads_items ld k1 d0 h in loads_items ld k2 d1 h1.
Proof.
  revert d0 h. induction k1 as [|[k t] k1 IH]; simpl; intros d0 h;
    [reflexivity|].
  destruct (ld t h) as [v h1]. apply IH.
Qed.

Lemma fold_max_app {A} (f : A -> nat) l1 l2 :
  fold_right (fun x acc => Nat.max (f x) acc) 0%nat (l1 ++ l2)
  = Nat.max (fold_right (fun x acc => Nat.max (f x) acc) 0%nat l1)
            (fold_right (fun x acc => Nat.max (f x) acc) 0%nat l2).
Proof. induction l1 as [|x l1 IH]; simpl; [reflexivity|]. rewrite IH. lia. Qed.

Lemma fold_wf_app {A} (P : A -> Prop) l1 l2 :
  fold_right (fun x acc => P x /\ acc) True (l1 ++ l2) <->
  fold_right (fun x acc => P x /\ acc) True l1 /\
  fold_right (fun x acc => P x /\ acc) True l2.
Proof. induction l1 as [|x l1 IH]; simpl; [tauto|]. rewrite IH. tauto. Qed.

(** ** The text of one output feature *)

Lemma loads_items_cons ld k t (kvs : list (string * json)) d h :
  loads_items ld ((k, t) :: kvs) d h
  = let '(v, h1) := ld t h in loads_items ld kvs (dict_set d k v) h1.
Proof. reflexivity. Qed.

(** Lines 196-202, from the copy on: the six assignments and the
    append. *)
Lemma enrich_tail vals v lfeats gs lg lgp dp h :
  lgp <> lg -> lfeats <> lgp -> lfeats <> lg ->
  feature_at h lg lgp dp -> h !! lfeats = Some (OList gs) ->
  exists h',
    (gp ← getitem_h (VRef lg) "properties";
     _ ← setitem_h gp "metric_value" (VFloat v);
     gp ← getitem_h (VRef lg) "properties";
     _ ← setitem_h gp "height" (VFloat (height_of vals v));
     gp ← getitem_h (VRef lg) "properties";
     _ ← setitem_h gp "fill_r" (VInt 66);
     gp ← getitem_h (VRef lg) "properties";
     _ ← setitem_h gp "fill_g" (VInt 135);
     gp ← getitem_h (VRef lg) "properties";
     _ ← setitem_h gp "fill_b" (VInt 245);
     gp ← getitem_h (VRef lg) "properties";
     _ ← setitem_h gp "fill_a" (VInt 180);
     append_h (VRef lfeats) (VRef lg)) h = (Ok tt, h') /\
    (forall l, l <> lgp -> l <> lfeats -> h' !! l = h !! l) /\
    length h' = length h /\
    h' !! lfeats = Some (OList (gs ++ [VRef lg])) /\
    h' !! lgp = Some (ODict (enriched_items vals v dp)).
Proof.
  intros Hne Hfp Hfg H0 Hfeats.
  destruct (set_prop_step h lg lgp _ "metric_value" (VFloat v)
              (gp ← getitem_h (VRef lg) "properties";
               _ ← setitem_h gp "height" (VFloat (height_of vals v));
               gp ← getitem_h (VRef lg) "properties";
               _ ← setitem_h gp "fill_r" (VInt 66);
               gp ← getitem_h (VRef lg) "properties";
               _ ← setitem_h gp "fill_g" (VInt 135);
               gp ← getitem_h (VRef lg) "properties";
               _ ← setitem_h gp "fill_b" (VInt 245);
               gp ← getitem_h (VRef lg) "properties";
               _ ← setitem_h gp "fill_a" (VInt 180);
               append_h (VRef lfeats) (VRef lg)) Hne H0)
    as (h1 & -> & H1 & Ho1 & Hl1).
  destruct (set_prop_step h1 lg lgp _ "height" (VFloat (height_of vals v))
              (gp ← getitem_h (VRef lg) "properties";
               _ ← setitem_h gp "fill_r" (VInt 66);
               gp ← getitem_h (VRef lg) "properties";
               _ ← setitem_h gp "fill_g" (VInt 135);
               gp ← getitem_h (VRef lg) "properties";
               _ ← setitem_h gp "fill_b" (VInt 245);
               gp ← getitem_h (VRef lg) "properties";
               _ ← setitem_h gp "fill_a" (VInt 180);
               append_h (VRef lfeats) (VRef lg)) Hne H1)
    as (h2 & -> & H2 & Ho2 & Hl2).
  destruct (set_prop_step h2 lg lgp _ "fill_r" (VInt 66)
              (gp ← getitem_h (VRef lg) "properties";
               _ ← setitem_h gp "fill_g" (VInt 135);
               gp ← getitem_h (VRef lg) "properties";
               _ ← setitem_h gp "fill_b" (VInt 245);
               gp ← getitem_h (VRef lg) "properties";
               _ ← setitem_h gp "fill_a" (VInt 180);
               append_h (VRef lfeats) (VRef lg)) Hne H2)
    as (h3 & -> & H3 & Ho3 & Hl3).
  destruct (set_prop_step h3 lg lgp _ "fill_g" (VInt 135)
              (gp ← getitem_h (VRef lg) "properties";
               _ ← setitem_h gp "fill_b" (VInt 245);
               gp ← getitem_h (VRef lg) "properties";
               _ ← setitem_h gp "fill_a" (VInt 180);
               append_h (VRef lfeats) (VRef lg)) Hne H3)
    as (h4 & -> & H4 & Ho4 & Hl4).
  destruct (set_prop_step h4 lg lgp _ "fill_b" (VInt 245)
              (gp ← getitem_h (VRef lg) "properties";
               _ ← setitem_h gp "fill_a" (VInt 180);
               append_h (VRef lfeats) (VRef lg)) Hne H4)
    as (h5 & -> & H5 & Ho5 & Hl5).
  destruct (set_prop_step h5 lg lgp _ "fill_a" (VInt 180)
              (append_h (VRef lfeats) (VRef lg)) Hne H5)
    as (h6 & -> & H6 & Ho6 & Hl6).
  assert (Hsame : forall l, l <> lgp -> h6 !! l = h !! l).
  { intros l Hl. now rewrite Ho6, Ho5, Ho4, Ho3, Ho2, Ho1. }
  assert (Hf6 : h6 !! lfeats = Some (OList gs)) by (now rewrite Hsame).
  exists (<[lfeats := OList (gs ++ [VRef lg])]> h6).
  split; [|split; [|split; [|split]]].
  - unfold append_h. now rewrite Hf6.
  - intros l Hl Hlf. rewrite list_lookup_insert_ne by congruence.
    now apply Hsame.
  - rewrite length_insert. congruence.
  - apply list_lookup_insert_eq. now apply lookup_lt_Some in Hf6.
  - destruct H6 as (dg6 & _ & _ & Hgp6).
    rewrite list_lookup_insert_ne by exact Hfp. exact Hgp6.
Qed.

Lemma all_loads_text (kvs : list (string * json)) :
  Forall (fun kv => loads_text (snd kv)) kvs.
Proof. apply List.Forall_forall. intros kv _. apply loads_gives_text. Qed.

Lemma NoDup_app_disjoint {A} (l1 l2 : list A) k :
  List.NoDup (l1 ++ l2) -> In k l1 -> In k l2 -> False.
Proof.
  induction l1 as [|a l1 IH]; simpl; intros Hnd H1 H2; [contradiction|].
  inversion Hnd as [|? ? Ha Hnd']; subst. destruct H1 as [->|H1].
  - apply Ha, in_or_app. now right.
  - now apply IH.
Qed.

Lemma enrich_feature_text vals lfeats gs f name t h :
  wf_feature h f name -> dumps (S (length h)) h f = Ok t -> json_wf t ->
  h !! lfeats = Some (OList gs) ->
  exists g h',
    enrich_feature vals (VRef lfeats) f h = (Ok tt, h') /\
    (forall l, (l < length h)%nat -> l <> lfeats -> h' !! l = h !! l) /\
    (length h <= length h')%nat /\
    h' !! lfeats = Some (OList (gs ++ [g])) /\
    stable_text (length h) (length h') h' (json_depth t) g
      (enriched_text vals name t).
Proof.
  intros Hwf Ht Hwft Hfeats.
  pose proof Hwf as (lf & d & lp & dp & t0 & -> & Hlf & Hnd & Hprops & Hlp
                     & Hndp & Hname & _).
  assert (Hlfeats : (lfeats < length h)%nat) by (now apply lookup_lt_Some in Hfeats).
  set (v := dict_get_default vals name 0%Q).
  (* the text of the feature *)
  destruct (dumps_dict _ _ _ _ _ Hlf Ht) as (kvs & -> & Hkvs).
  destruct (Forall2_keys _ _ (fun v t => dumps (length h) h v = Ok t) Hkvs)
    as [Hkeys Hmem].
  destruct (Hmem _ _ Hprops) as (tp & Htp_in & Htp).
  assert (Hlen : exists n, length h = S n).
  { apply lookup_lt_Some in Hlp. destruct (length h); [lia|eauto]. }
  destruct Hlen as [n0 Hn0]. rewrite Hn0 in Htp.
  destruct (dumps_dict _ _ _ _ _ Hlp Htp) as (pk & -> & Hpk).
  destruct Hwft as [Hndk Hwfk].
  assert (Hgetp : dict_get kvs "properties" = Some (JObj pk)).
  { apply dict_get_of_In; [|exact Htp_in]. now apply NoDup_ListNoDup. }
  destruct (dict_get_split kvs _ _ Hndk Hgetp) as (kvs1 & kvs2 & -> & Hn1 & Hn2).
  rewrite map_app in Hndk. simpl in Hndk.
  assert (Hnd1 : List.NoDup (map fst kvs1)) by (now apply List.NoDup_app_remove_r in Hndk).
  assert (Hnd2 : List.NoDup (map fst kvs2)).
  { apply List.NoDup_app_remove_l in Hndk. now inversion Hndk. }
  apply fold_wf_app in Hwfk as [Hwf1 Hwfp2]. simpl in Hwfp2.
  destruct Hwfp2 as [[Hndpk Hwfpk] Hwf2].
  (* the copy *)
  destruct (loads_obj (kvs1 ++ ("properties", JObj pk) :: kvs2) h)
    as (dg & h1 & Eitems & Eload).
  rewrite loads_items_app in Eitems.
  destruct (loads_items loads kvs1 [] h) as [d1 ha] eqn:E1.
  rewrite loads_items_cons in Eitems.
  destruct (loads_obj pk ha) as (dgp & hp & Ep & Epload).
  rewrite Epload in Eitems.
  destruct (loads_items_text kvs1 (all_loads_text _) Hnd1 Hwf1 _ _ _ _ E1)
    as (items1 & Hd1 & Hk1 & Htext1); [intros k _ []|].
  simpl in Hd1. subst d1.
  destruct (loads_items_text pk (all_loads_text _) Hndpk Hwfpk _ _ _ _ Ep)
    as (itemsp & Hdgp & Hkp & Htextp); [intros k _ []|].
  simpl in Hdgp. subst dgp.
  assert (Hpnew : ~ In "properties" (dict_keys items1))
    by (unfold dict_keys; now rewrite Hk1).
  rewrite (dict_set_new items1 _ _ Hpnew) in Eitems.
  destruct (loads_items_text kvs2 (all_loads_text _) Hnd2 Hwf2 _ _ _ _ Eitems)
    as (items2 & Hdg & Hk2 & Htext2).
  { intros k Hk Hin. unfold dict_keys in Hin. rewrite map_app, Hk1 in Hin.
    apply in_app_or in Hin as [Hin|[<-|[]]].
    - apply List.NoDup_remove_1 in Hndk.
      exact (NoDup_app_disjoint _ _ _ Hndk Hin Hk).
    - contradiction. }
  subst dg.
  destruct (loads_items_grows _ _ _ _ _ E1) as (ea & ->).
  destruct (loads_items_grows _ _ _ _ _ Ep) as (ep & ->).
  destruct (loads_items_grows _ _ _ _ _ Eitems) as (e2 & ->).
  set (hp := (h ++ ea) ++ ep) in *.
  set (h1 := (hp ++ [ODict itemsp]) ++ e2) in *.
  set (dg := (items1 ++ [("properties", VRef (length hp))]) ++ items2) in *.
  set (h2 := h1 ++ [ODict dg]) in *.
  set (lg := length h1) in *. set (lgp := length hp) in *.
  assert (Hlgp : lgp = (length h + length ea + length ep)%nat)
    by (unfold lgp, hp; rewrite !length_app; lia).
  assert (Hlg : lg = (lgp + 1 + length e2)%nat)
    by (unfold lg, h1; rewrite !length_app; simpl; fold lgp; lia).
  assert (Hg : h2 !! lg = Some (ODict dg)).
  { unfold h2, lg. rewrite lookup_app_r by lia. now rewrite Nat.sub_diag. }
  assert (Hgp : h2 !! lgp = Some (ODict itemsp)).
  { unfold h2. rewrite lookup_app_l by (fold lg; lia).
    unfold h1. rewrite lookup_app_l by (rewrite length_app; simpl; fold lgp; lia).
    rewrite lookup_app_r by (fold lgp; lia). fold lgp.
    now rewrite Nat.sub_diag. }
  assert (Hdgp : dict_get dg "properties" = Some (VRef lgp)).
  { apply dict_get_of_In.
    - apply NoDup_ListNoDup. unfold dg, dict_keys.
      rewrite !map_app, Hk1, Hk2. simpl. rewrite <- app_assoc. simpl.
      exact Hndk.
    - unfold dg. apply in_or_app. left. apply in_or_app. right. now left. }
  assert (H0 : feature_at h2 lg lgp itemsp) by (exists dg; auto).
  assert (Hfeats2 : h2 !! lfeats = Some (OList gs)).
  { unfold h2, h1, hp. rewrite <- !app_assoc. now apply lookup_app_l_Some. }
  destruct (enrich_tail vals v lfeats gs lg lgp itemsp h2
              ltac:(lia) ltac:(lia) ltac:(lia) H0 Hfeats2)
    as (h' & Etail & Hsame & Hlen' & Hfeats' & Hgp').
  exists (VRef lg), h'.
  assert (Hlen2 : length h2 = S lg)
    by (unfold h2; rewrite length_app; simpl; fold lg; lia).
  split; [|split; [|split; [|split]]].
  - unfold enrich_feature.
    rewrite (bind_ok _ _ h (VRef lp) h)
      by (unfold getitem_h; now rewrite Hlf, Hprops).
    rewrite (bind_ok _ _ h (VStr name) h)
      by (unfold getitem_h; now rewrite Hlp, Hname).
    rewrite (bind_ok _ _ h v h) by reflexivity.
    rewrite (bind_ok _ _ h (JObj (kvs1 ++ ("properties", JObj pk) :: kvs2)) h)
      by (unfold json_dumps; now rewrite Ht).
    rewrite (bind_ok _ _ h (VRef lg) h2)
      by (unfold json_loads; now rewrite Eload).
    exact Etail.
  - intros l Hl Hlf'. rewrite Hsame by lia.
    unfold h2, h1, hp. rewrite <- !app_assoc. now apply lookup_app_l.
  - lia.
  - exact Hfeats'.
  - (* the text of the copy, wherever its objects stay *)
    intros H n Hag Hn.
    assert (HH : forall l, (length h <= l < S lg)%nat -> l <> lgp ->
                           H !! l = h2 !! l).
    { intros l Hl Hne. rewrite Hag by lia. apply Hsame; lia. }
    unfold enriched_text. rewrite Hgetp.
    rewrite (dict_set_split kvs1 kvs2 "properties" _ _ Hn1).
    change (json_depth (JObj (kvs1 ++ ("properties", JObj pk) :: kvs2)))
      with (S (fold_right (fun kv acc => Nat.max (json_depth (snd kv)) acc) 0%nat
                 (kvs1 ++ ("properties", JObj pk) :: kvs2))) in Hn.
    rewrite fold_max_app in Hn. simpl in Hn.
    destruct n as [|n1]; [lia|].
    destruct n1 as [|n2]; [lia|].
    rewrite dumps_ref, (HH lg) by lia. rewrite Hg.
    assert (Hitems1 :
      result_map (fun kv => t ← dumps (S n2) H (snd kv); Ok (fst kv, t)) items1
      = Ok kvs1).
    { apply Htext1; [|lia]. intros l Hl.
      rewrite length_app in Hl. rewrite HH by lia.
      unfold h2, h1, hp. rewrite <- !app_assoc.
      rewrite (app_assoc h ea). apply lookup_prefix.
      rewrite length_app. lia. }
    assert (Hitemsp :
      result_map (fun kv => t ← dumps n2 H (snd kv); Ok (fst kv, t)) itemsp
      = Ok pk).
    { apply Htextp; [|lia]. intros l Hl. fold hp in Hl. fold lgp in Hl.
      rewrite length_app in Hl. rewrite HH by lia.
      unfold h2, h1. rewrite <- !app_assoc. apply lookup_prefix.
      fold lgp. lia. }
    assert (Hitems2 :
      result_map (fun kv => t ← dumps (S n2) H (snd kv); Ok (fst kv, t)) items2
      = Ok kvs2).
    { apply Htext2; [|lia]. intros l Hl. fold h1 in Hl. fold lg in Hl.
      rewrite length_app in Hl. simpl in Hl. fold lgp in Hl.
      rewrite HH by lia.
      unfold h2. apply lookup_prefix. fold lg. lia. }
    assert (Hprops' : dumps (S n2) H (VRef lgp)
                      = Ok (JObj (enriched_properties vals name pk))).
    { rewrite dumps_ref, Hag by lia. rewrite Hgp'.
      unfold enriched_items, enriched_properties. fold v.
      assert (Hs : forall x tx, (forall l, x <> VRef l) ->
                     dumps 0 H x = Ok tx -> dumps n2 H x = Ok tx).
      { intros x tx Hx E. now rewrite dumps_scalar. }
      pose proof (result_map_dict_set n2 H _ _ "metric_value" _ _ Hitemsp
                    (Hs (VFloat v) (JFloat v) ltac:(discriminate) eq_refl))
        as P1.
      pose proof (result_map_dict_set n2 H _ _ "height" _ _ P1
                    (Hs (VFloat (height_of vals v)) (JFloat (height_of vals v))
                        ltac:(discriminate) eq_refl)) as P2.
      pose proof (result_map_dict_set n2 H _ _ "fill_r" _ _ P2
                    (Hs (VInt 66) (JInt 66) ltac:(discriminate) eq_refl)) as P3.
      pose proof (result_map_dict_set n2 H _ _ "fill_g" _ _ P3
                    (Hs (VInt 135) (JInt 135) ltac:(discriminate) eq_refl))
        as P4.
      pose proof (result_map_dict_set n2 H _ _ "fill_b" _ _ P4
                    (Hs (VInt 245) (JInt 245) ltac:(discriminate) eq_refl))
        as P5.
      pose proof (result_map_dict_set n2 H _ _ "fill_a" _ _ P5
                    (Hs (VInt 180) (JInt 180) ltac:(discriminate) eq_refl))
        as P6.
      rewrite P6. reflexivity. }
    unfold dg. rewrite <- app_assoc.
    assert (Hrest :
      result_map (fun kv => t ← dumps (S n2) H (snd kv); Ok (fst kv, t))
        ([("properties", VRef lgp)] ++ items2)
      = Ok ([("properties", JObj (enriched_properties vals name pk))] ++ kvs2)).
    { apply result_map_app; [|exact Hitems2].
      cbn [result_map fst snd]. rewrite Hprops'. reflexivity. }
    rewrite (result_map_app _ items1 _ kvs1 _ Hitems1 Hrest). reflexivity.
Qed.

Lemma stable_text_later a b a' b' h h' d d' g t :
  (a <= a')%nat -> (b' <= b)%nat -> (d' <= d)%nat ->
  (forall l, (a' <= l < b')%nat -> h !! l = h' !! l) ->
  stable_text a' b' h' d' g t -> stable_text a b h d g t.
Proof.
  intros Ha Hb Hd Hsame Hst h2 n Hag Hn. apply Hst; [|lia].
  intros l Hl. rewrite (Hag l) by lia. now apply Hsame.
Qed.

(** The loop of lines 191-202 in terms of texts: each pass appends a
    value whose text is the enriched text of the feature it read. *)
Lemma for_each_enrich_text vals h0 lfeats fs :
  (length h0 <= lfeats)%nat ->
  forall names ts,
  Forall2 (wf_feature h0) fs names ->
  Forall2 (fun f t => dumps (S (length h0)) h0 f = Ok t /\ json_wf t) fs ts ->
  forall h gs0 (nts0 : list (string * json)),
    (forall l o, h0 !! l = Some o -> h !! l = Some o) ->
    (lfeats < length h)%nat ->
    h !! lfeats = Some (OList gs0) ->
    Forall2 (fun g nt =>
               stable_text (S lfeats) (length h) h (S (length h0)) g
                 (enriched_text vals (fst nt) (snd nt))) gs0 nts0 ->
    exists gs h',
      for_each fs (enrich_feature vals (VRef lfeats)) h = (Ok tt, h') /\
      (length h <= length h')%nat /\
      h' !! lfeats = Some (OList (gs0 ++ gs)) /\
      Forall2 (fun g nt =>
                 stable_text (S lfeats) (length h') h' (S (length h0)) g
                   (enriched_text vals (fst nt) (snd nt)))
              (gs0 ++ gs) (nts0 ++ combine names ts).
Proof.
  intros Hlf.
  induction fs as [|f fs IH]; intros names ts Hwf Hts h gs0 nts0 Hext Hlen
    Hfeats Hdone.
  - inversion Hwf; subst. inversion Hts; subst.
    exists [], h. simpl. rewrite !app_nil_r. repeat split; auto.
  - inversion Hwf as [|? name ? names' Hf Hwf']; subst.
    inversion Hts as [|? t ? ts' [Ht Hwft] Hts']; subst.
    assert (Hlen0 : (length h0 <= length h)%nat) by lia.
    assert (Hwfh : wf_feature h f name)
      by (apply (wf_feature_grows h0); auto).
    assert (Hth : dumps (S (length h)) h f = Ok t)
      by (apply (dumps_mono (S (length h0)) _ h0); auto; lia).
    destruct (enrich_feature_text vals lfeats gs0 f name t h Hwfh Hth Hwft
                Hfeats) as (g & h1 & Estep & Hsame & Hlen1 & Hfeats1 & Hst).
    assert (Hext1 : forall l o, h0 !! l = Some o -> h1 !! l = Some o).
    { intros l o Hl. pose proof (lookup_lt_Some _ _ _ Hl) as Hlt.
      rewrite Hsame by lia. now apply Hext. }
    assert (Hdone1 :
      Forall2 (fun g nt =>
                 stable_text (S lfeats) (length h1) h1 (S (length h0)) g
                   (enriched_text vals (fst nt) (snd nt)))
              (gs0 ++ [g]) (nts0 ++ [(name, t)])).
    { apply Forall2_app.
      - eapply List.Forall2_impl; [|exact Hdone].
        intros g0 nt0 Hst0.
        apply (stable_text_later _ _ (S lfeats) (length h) h1 h _
                 (S (length h0)) g0 _); try lia; [|exact Hst0].
        intros l Hl. apply Hsame; lia.
      - constructor; [|constructor]. simpl.
        apply (stable_text_later _ _ (length h) (length h1) h1 h1 _
                 (json_depth t) g _); try lia; [|reflexivity|exact Hst].
        now apply dumps_depth in Ht. }
    destruct (IH names' ts' Hwf' Hts' h1 (gs0 ++ [g]) (nts0 ++ [(name, t)])
                Hext1 ltac:(lia) Hfeats1 Hdone1)
      as (gs & h' & Eloop & Hlen' & Hfeats' & Hall).
    exists (g :: gs), h'. split; [|split; [lia|split]].
    + simpl. rewrite (bind_ok _ _ h tt h1 Estep). exact Eloop.
    + rewrite <- app_assoc in Hfeats'. exact Hfeats'.
    + rewrite <- !app_assoc in Hall. exact Hall.
Qed.

Lemma result_map_stable (gs : list val) (ts : list json) (P : val -> json -> Prop)
    (f : val -> result json) :
  (forall g t, P g t -> f g = Ok t) ->
  Forall2 P gs ts -> result_map f gs = Ok ts.
Proof.
  intros HP. induction 1 as [|g t gs ts Hgt _ IH]; simpl; [reflexivity|].
  rewrite (HP _ _ Hgt). cbn. rewrite IH. reflexivity.
Qed.

(** X25. The text of the collection that [build_feature_collection]
    returns.  For a geometry whose features have the texts [ts] (objects
    without repeated keys), the call returns a collection whose JSON text
    is [{"type": "FeatureCollection", "features": [...]}] with one feature
    per input feature, in order, each the text of the input feature with
    [metric_value], [height] and the four fill numbers set in its
    properties and every other member, the geometry included, as it
    was. *)
Theorem build_feature_collection_text
    (h0 : heap) (geo : val) (fs : list val) (names : list string)
    (ts : list json) (df : list metric_row) :
  geometry h0 geo fs names ->
  Forall2 (fun f t => dumps (S (length h0)) h0 f = Ok t /\ json_wf t) fs ts ->
  exists fc h',
    build_feature_collection geo df h0 = (Ok fc, h') /\
    json_dumps fc h'
    = (Ok (collection_text (metric_values df) (combine names ts)), h').
Proof.
  intros (lfs & Hpeek & Hfs & Hwf) Hts.
  set (vals := metric_values df).
  set (lfeats := length h0).
  set (h := h0 ++ [OList []]).
  assert (Hext : forall l o, h0 !! l = Some o -> h !! l = Some o).
  { intros l o Hl. unfold h. now apply lookup_app_l_Some. }
  assert (Hlen : (lfeats < length h)%nat)
    by (unfold h, lfeats; rewrite length_app; simpl; lia).
  assert (Hfeats : h !! lfeats = Some (OList [])).
  { unfold h, lfeats. rewrite lookup_app_r by lia. now rewrite Nat.sub_diag. }
  destruct (for_each_enrich_text vals h0 lfeats fs ltac:(unfold lfeats; lia)
              names ts Hwf Hts h [] [] Hext Hlen Hfeats ltac:(constructor))
    as (gs & h1 & Eloop & Hlen1 & Hfeats1 & Hall).
  simpl in Hfeats1, Hall.
  exists (VRef (length h1)),
    (h1 ++ [ODict [("type", VStr "FeatureCollection");
                   ("features", VRef lfeats)]]).
  split.
  - unfold build_feature_collection. fold vals.
    rewrite (bind_ok _ _ h0 (VRef lfeats) h) by reflexivity.
    assert (Hget : getitem_h geo "features" h = (Ok (VRef lfs), h)).
    { unfold peek in Hpeek. unfold getitem_h.
      destruct geo as [| | | | |lgeo]; try discriminate.
      destruct (h0 !! lgeo) as [[d|xs]|] eqn:Eg; try discriminate.
      rewrite (Hext _ _ Eg), Hpeek. reflexivity. }
    rewrite (bind_ok _ _ h (VRef lfs) h Hget).
    rewrite (bind_ok _ _ h fs h)
      by (unfold iter_h; now rewrite (Hext _ _ Hfs)).
    rewrite (bind_ok _ _ h tt h1 Eloop). reflexivity.
  - unfold json_dumps. f_equal.
    set (h2 := h1 ++ _).
    assert (Hlen2 : length h2 = S (length h1))
      by (unfold h2; rewrite length_app; simpl; lia).
    rewrite Hlen2, dumps_ref.
    assert (Hfc : h2 !! length h1
                  = Some (ODict [("type", VStr "FeatureCollection");
                                 ("features", VRef lfeats)])).
    { unfold h2. rewrite lookup_app_r by lia. now rewrite Nat.sub_diag. }
    rewrite Hfc. cbn [result_map fst snd].
    assert (Hl1 : exists n, length h1 = S n)
      by (destruct (length h1); [lia|eauto]).
    destruct Hl1 as [n Hn]. rewrite Hn.
    assert (Hstr : dumps (S (S n)) h2 (VStr "FeatureCollection")
                   = Ok (JStr "FeatureCollection")) by reflexivity.
    assert (Hf2 : h2 !! lfeats = Some (OList gs)).
    { unfold h2. now apply lookup_app_l_Some. }
    rewrite Hstr, (dumps_ref (S n) h2 lfeats), Hf2.
    rewrite (result_map_stable gs
               (map (fun nt => enriched_text vals (fst nt) (snd nt))
                    (combine names ts))
               (fun g t => stable_text (S lfeats) (length h1) h1
                             (S (length h0)) g t)).
    + reflexivity.
    + intros g t Hst. apply Hst.
      * intros l Hl. unfold h2. apply lookup_app_l. lia.
      * unfold h in Hlen1. rewrite length_app in Hlen1. simpl in Hlen1. lia.
    + clear -Hall. induction Hall; simpl; constructor; auto.
Qed.

Lemma build_feature_collection_text_witness :
  let df := [ {| mr_state := "Kerala"; mr_value := 7 |} ] in
  exists fc h',
    build_feature_collection sample_geojson df sample_heap = (Ok fc, h') /\
    json_dumps fc h'
    = (Ok (collection_text (metric_values df)
             (combine sample_regions (map feature_text sample_regions))), h').
Proof.
  apply (build_feature_collection_text sample_heap sample_geojson
           [VRef 4; VRef 9; VRef 14] sample_regions
           (map feature_text sample_regions)
           [ {| mr_state := "Kerala"; mr_value := 7 |} ]).
  - apply sample_geometry.
  - repeat constructor; try (vm_compute; reflexivity);
      simpl; intuition discriminate.
Defined.
